(** * Compliance analysis engine: a shallow embedding of the Python services

    The development follows the four services of the repository:
    - [risk_prediction.py]   (module [RiskPrediction]),
    - [document_analyzer.py] (module [DocumentAnalyzer]),
    - [gap_analysis.py]      (module [GapAnalysis]),
    - [recommendation_engine.py] (module [RecommendationEngine]).
    The functions of these files that stand beside the ones above are in
    the modules [RiskTrends] ([analyze_risk_trends]), [ControlLibrary]
    (the control recommendations, the framework alignment and the control
    mapping) and [DocumentQuality] (the frameworks mentioned and the
    quality score).  [RiskRequest] follows [calculate_risk_score] on the
    dictionary of a request, whose values can be of any type.

    [gap_analysis.py] is not a Python program as it stands: line 79 of the
    file reads [priority': 'High'], the key without its opening quote, and
    the tokenizer rejects the file ([PySyntax], [GapAnalysis.source_lines]).
    The module [GapAnalysis] embeds the file with that one line repaired to
    ['priority': 'High']; whatever is stated of [analyze_gaps] and of
    [_generate_recommendations] is stated of the repaired file, and says so.

    Python [float]s are IEEE-754 binary64 numbers and are modelled by Rocq's
    primitive floats, so that every arithmetic step rounds as CPython does.
    Python [str] values are modelled by [string], a character being read as
    the code point of the same number (U+0000 .. U+00FF): a text with a
    code point beyond U+00FF is outside the embedding, and the statements
    that compare [str.lower] with matching under [re.IGNORECASE] are made
    of the texts within it ([TextSpec.latin1]).  Dictionaries whose
    shape is fixed by the code (catalog entries, results) are records;
    dictionaries received from the caller are association lists of Python
    values.  Exceptions are an explicit error type.  The clock is a
    sequence of readings: a function that calls [datetime.now()] once takes
    the reading, one that calls it in a loop takes the sequence.

    The file has three parts: the embedding of the source, the definitions
    the statements need (the specification's formulas, the shapes of
    well-formed inputs, the real value of a binary64 number), and the
    theorems. *)

From Stdlib Require Import ZArith List String Ascii Bool Lia Floats Uint63.
From Stdlib Require Import Reals Lra.
From Stdlib Require Import Sorting.Sorted Sorting.Permutation.
From Stdlib Require Import Numbers.DecimalString.
Import ListNotations.

Set Warnings "-inexact-float,-register-all".

Open Scope string_scope.
Open Scope Z_scope.

(* ================================================================== *)
(** ** Part I.  The source: Python values, exceptions and built-ins *)
(* ================================================================== *)

Module Py.

(** The exceptions the modelled code can raise. *)
Inductive pyerr : Type :=
| ValueError (msg : string)
| KeyError (key : string)
| TypeError
| AttributeError
| OverflowError.

Inductive result (A : Type) : Type :=
| Ok (a : A)
| Raise (e : pyerr).
Arguments Ok {A} a.
Arguments Raise {A} e.

Definition bind {A B : Type} (r : result A) (k : A -> result B) : result B :=
  match r with
  | Ok a => k a
  | Raise e => Raise e
  end.

Definition is_ok {A : Type} (r : result A) : bool :=
  match r with Ok _ => true | Raise _ => false end.

(** [for x in xs: f x], stopping at the first exception. *)
Fixpoint mapM {A B : Type} (f : A -> result B) (xs : list A) : result (list B) :=
  match xs with
  | [] => Ok []
  | x :: tl =>
      bind (f x) (fun y => bind (mapM f tl) (fun ys => Ok (y :: ys)))
  end.

(** Values as they arrive from a decoded JSON request. *)
Inductive pyval : Type :=
| VNone
| VBool (b : bool)
| VInt (z : Z)
| VFloat (f : float)
| VStr (s : string)
| VList (l : list pyval)
| VDict (d : list (string * pyval)).

(** A [dict] with [str] keys, in insertion order. *)
Definition dict : Type := list (string * pyval).

Fixpoint dict_get (d : dict) (k : string) : option pyval :=
  match d with
  | [] => None
  | (k', v) :: tl => if String.eqb k' k then Some v else dict_get tl k
  end.

(** [d.get(k, default)] *)
Definition dict_get_default (d : dict) (k : string) (default : pyval) : pyval :=
  match dict_get d k with
  | Some v => v
  | None => default
  end.

(** [d[k] = v]: an existing key keeps its place, a new key goes last. *)
Fixpoint dict_set (d : dict) (k : string) (v : pyval) : dict :=
  match d with
  | [] => [(k, v)]
  | (k', v') :: tl =>
      if String.eqb k' k then (k, v) :: tl else (k', v') :: dict_set tl k v
  end.

(** [obj[k]] for a [str] subscript [k]. *)
Definition subscript (obj : pyval) (k : string) : result pyval :=
  match obj with
  | VDict d =>
      match dict_get d k with
      | Some v => Ok v
      | None => Raise (KeyError k)
      end
  | _ => Raise TypeError
  end.

(** [hash(v)], needed to put [v] in a [set]: lists and dicts have none. *)
Definition hashable (v : pyval) : result pyval :=
  match v with
  | VList _ | VDict _ => Raise TypeError
  | _ => Ok v
  end.

(** [v == s] for a [str] literal [s]. *)
Definition eq_str (v : pyval) (s : string) : bool :=
  match v with
  | VStr t => String.eqb t s
  | _ => false
  end.

(** *** Characters and strings *)

Definition between (lo hi n : nat) : bool := (lo <=? n)%nat && (n <=? hi)%nat.

(** [str.isspace] on one character, also the regular expression class
    [\s] of a [str] pattern. *)
Definition isspace (c : ascii) : bool :=
  let n := nat_of_ascii c in
  between 9 13 n || between 28 32 n || (n =? 133)%nat || (n =? 160)%nat.

Definition lower_char (c : ascii) : ascii :=
  let n := nat_of_ascii c in
  if between 65 90 n || (between 192 222 n && negb (n =? 215)%nat)
  then ascii_of_nat (n + 32)
  else c.

(** [s.lower()] *)
Fixpoint lower (s : string) : string :=
  match s with
  | EmptyString => EmptyString
  | String c tl => String (lower_char c) (lower tl)
  end.

(** [sub in s] *)
Fixpoint contains (sub s : string) : bool :=
  String.prefix sub s ||
  match s with
  | EmptyString => false
  | String _ tl => contains sub tl
  end.

Fixpoint lstrip (s : string) : string :=
  match s with
  | EmptyString => EmptyString
  | String c tl => if isspace c then lstrip tl else s
  end.

Fixpoint rstrip (s : string) : string :=
  match s with
  | EmptyString => EmptyString
  | String c tl =>
      match rstrip tl with
      | EmptyString => if isspace c then EmptyString else String c EmptyString
      | r => String c r
      end
  end.

(** [s.strip()] *)
Definition strip (s : string) : string := rstrip (lstrip s).

(** [str(n)] for a natural number. *)
Definition str_of_nat (n : nat) : string := NilEmpty.string_of_uint (Nat.to_uint n).

(** *** Numbers *)

(** A Python number: [int] or [float]. *)
Inductive pynum : Type :=
| PInt (z : Z)
| PFloat (f : float).

(** [float(n)] for an [int] that a binary64 holds exactly. *)
Definition float_of_nat (n : nat) : float := of_uint63 (Uint63.of_Z (Z.of_nat n)).

(** Nearest integer to [n / d], ties to even, for [0 <= n] and [0 < d]. *)
Definition round_half_even (n d : Z) : Z :=
  let q := n / d in
  match (2 * (n mod d)) ?= d with
  | Lt => q
  | Gt => q + 1
  | Eq => if Z.even q then q else q + 1
  end.

(** Nearest integer to [m * 2^e * p], ties to even. *)
Definition scaled_round (m : positive) (e : Z) (p : Z) : Z :=
  if 0 <=? e then Zpos m * p * 2 ^ e
  else round_half_even (Zpos m * p) (2 ^ (- e)).

(** [round(x, ndigits)] on a [float], [0 <= ndigits]: CPython prints the
    exact binary value with [ndigits] correctly rounded decimals (ties to
    even) and reads the decimal string back as the nearest binary64. *)
Definition round (x : float) (ndigits : nat) : float :=
  match Prim2SF x with
  | S754_finite s m e =>
      let p := 10 ^ Z.of_nat ndigits in
      match scaled_round m e p with
      | Zpos k =>
          SF2Prim (SFdiv prec emax (S754_finite s k 0)
                                   (S754_finite false (Z.to_pos p) 0))
      | _ => SF2Prim (S754_zero s)
      end
  | _ => x
  end.

(** [round(x, ndigits)] on any number: an [int] is returned unchanged for
    [0 <= ndigits]. *)
Definition round_num (x : pynum) (ndigits : nat) : pynum :=
  match x with
  | PInt z => PInt z
  | PFloat f => PFloat (round f ndigits)
  end.

(** [round(x)] on a [float]: the nearest [int], ties to even. *)
Definition round_int (x : float) : result Z :=
  match Prim2SF x with
  | S754_zero _ => Ok 0
  | S754_finite s m e =>
      let a := scaled_round m e 1 in
      Ok (if s then - a else a)
  | S754_infinity _ => Raise OverflowError
  | S754_nan => Raise (ValueError "cannot convert float NaN to integer")
  end.

(** [int(x)] on a [float]: truncation towards zero. *)
Definition int (x : float) : result Z :=
  match Prim2SF x with
  | S754_zero _ => Ok 0
  | S754_finite s m e =>
      let a := if 0 <=? e then Zpos m * 2 ^ e else Zpos m / 2 ^ (- e) in
      Ok (if s then - a else a)
  | S754_infinity _ => Raise OverflowError
  | S754_nan => Raise (ValueError "cannot convert float NaN to integer")
  end.

(** *** Sorting

    [list.sort(key=..., reverse=True)] is stable: elements with equal keys
    keep their order.  Insertion from the right gives the same list. *)
Section Sort.
Context {A : Type} (key : A -> Z).

Fixpoint insert_desc (x : A) (l : list A) : list A :=
  match l with
  | [] => [x]
  | y :: tl =>
      if key y <=? key x then x :: y :: tl else y :: insert_desc x tl
  end.

Fixpoint sort_desc (l : list A) : list A :=
  match l with
  | [] => []
  | x :: tl => insert_desc x (sort_desc tl)
  end.

(** The order of the sorted list: no key before a greater one. *)
Definition desc (a b : A) : Prop := key b <= key a.
End Sort.

End Py.

Notation "x <- c1 ;; c2" := (Py.bind c1 (fun x => c2))
  (at level 61, c1 at next level, right associativity).

(* ================================================================== *)
(** ** risk_prediction.py *)
(* ================================================================== *)

Module RiskPrediction.
Import Py.

(** The argument [risk_data] of [calculate_risk_score]: each key may be
    absent.  Numbers are given as binary64 values: an [int] of the
    documented ranges denotes the same number, and every operation of the
    function promotes it to [float]. *)
Record risk_data : Type := {
  likelihood : option float;
  impact : option float;
  control_effectiveness : option float;
  threat_level : option string
}.

(** [risk_data.get(key, default)] *)
Definition get {A : Type} (field : option A) (default : A) : A :=
  match field with
  | Some v => v
  | None => default
  end.

Definition threat_multipliers : list (string * float) :=
  [("low", 0.8%float); ("medium", 1.0%float);
   ("high", 1.3%float); ("critical", 1.5%float)].

Fixpoint multiplier_get (table : list (string * float)) (k : string)
    (default : float) : float :=
  match table with
  | [] => default
  | (k', v) :: tl => if String.eqb k' k then v else multiplier_get tl k default
  end.

Record risk_score_result : Type := {
  risk_score : float;
  classification : string;
  priority : Z;
  result_likelihood : float;
  result_impact : float;
  confidence : float
}.

(** The values the function computes before it builds its result. *)
Definition adjusted_likelihood (rd : risk_data) : float :=
  let likelihood := get (likelihood rd) 3%float in
  let control_effectiveness := (get (control_effectiveness rd) 70 / 100)%float in
  (likelihood * (1 - (control_effectiveness * 0.4)))%float.

Definition final_score (rd : risk_data) : float :=
  let impact := get (impact rd) 3%float in
  let threat_level := get (threat_level rd) "medium" in
  let threat_multiplier := multiplier_get threat_multipliers threat_level 1.0%float in
  let base_score := (adjusted_likelihood rd * impact)%float in
  (base_score * threat_multiplier)%float.

Definition calculate_risk_score (rd : risk_data) : risk_score_result :=
  let impact := get (impact rd) 3%float in
  let control_effectiveness := (get (control_effectiveness rd) 70 / 100)%float in
  let adjusted_likelihood := adjusted_likelihood rd in
  let final_score := final_score rd in
  let '(classification, priority) :=
    if (15 <=? final_score)%float then ("Critical", 1)
    else if (10 <=? final_score)%float then ("High", 2)
    else if (5 <=? final_score)%float then ("Medium", 3)
    else ("Low", 4) in
  {| risk_score := round final_score 2;
     classification := classification;
     priority := priority;
     result_likelihood := round adjusted_likelihood 2;
     result_impact := impact;
     confidence := round (control_effectiveness * 100)%float 1 |}.

(** An entry of the emerging-risk catalog, and the same entry with the
    prediction metadata the function adds to it. *)
Record emerging_risk : Type := {
  name : string;
  category : string;
  probability : float;
  description : string
}.

Record predicted_risk : Type := {
  risk : emerging_risk;
  predicted_on : string;
  time_horizon : string;
  predicted_likelihood : Z;
  predicted_impact : Z
}.

Definition emerging_risks_db : list (string * list emerging_risk) :=
  [("technology",
    [ {| name := "AI/ML Security Vulnerabilities";
         category := "Cybersecurity";
         probability := 0.75%float;
         description := "Risks from AI model poisoning and adversarial attacks" |};
      {| name := "Supply Chain Software Risks";
         category := "Third Party";
         probability := 0.68%float;
         description := "Vulnerabilities in dependencies and open-source components" |} ]);
   ("finance",
    [ {| name := "Regulatory Compliance Changes";
         category := "Compliance";
         probability := 0.80%float;
         description := "New financial regulations and reporting requirements" |};
      {| name := "Digital Payment Fraud";
         category := "Operational";
         probability := 0.72%float;
         description := "Sophisticated fraud schemes targeting digital transactions" |} ]);
   ("healthcare",
    [ {| name := "Ransomware Targeting Healthcare";
         category := "Cybersecurity";
         probability := 0.85%float;
         description := "Increased ransomware attacks on healthcare systems" |};
      {| name := "Medical Device Security";
         category := "Cybersecurity";
         probability := 0.70%float;
         description := "Vulnerabilities in connected medical devices" |} ])].

Fixpoint db_get (db : list (string * list emerging_risk)) (k : string)
    : list emerging_risk :=
  match db with
  | [] => []
  | (k', v) :: tl => if String.eqb k' k then v else db_get tl k
  end.

(** [risk['name'].lower()] for one entry of [current_risks]. *)
Definition risk_name_lower (risk : pyval) : result string :=
  v <- subscript risk "name" ;;
  match v with
  | VStr s => Ok (lower s)
  | _ => Raise AttributeError
  end.

Definition mem_string (s : string) (l : list string) : bool :=
  existsb (String.eqb s) l.

(** One turn of the loop that adds the prediction metadata to a risk;
    [now] is the text [datetime.now().isoformat()] returns in that turn. *)
Definition add_metadata (now : string) (risk : emerging_risk) : result predicted_risk :=
  l <- int (probability risk * 5)%float ;;
  Ok {| risk := risk;
        predicted_on := now;
        time_horizon := "6-12 months";
        predicted_likelihood := l;
        predicted_impact := 4 |}.

(** The loop [for risk in new_risks]: every turn reads the clock anew.
    [clock k] is the text of the reading number [k] of the call, and
    [turn] the number of readings made before this turn. *)
Fixpoint add_metadata_loop (clock : nat -> string) (turn : nat)
    (new_risks : list emerging_risk) : result (list predicted_risk) :=
  match new_risks with
  | [] => Ok []
  | risk :: tl =>
      r <- add_metadata (clock turn) risk ;;
      rs <- add_metadata_loop clock (S turn) tl ;;
      Ok (r :: rs)
  end.

Definition predict_emerging_risks (clock : nat -> string) (industry : string)
    (current_risks : list pyval) : result (list predicted_risk) :=
  let base_risks := db_get emerging_risks_db (lower industry) in
  current_risk_names <- mapM risk_name_lower current_risks ;;
  let new_risks :=
    filter (fun risk => negb (mem_string (lower (name risk)) current_risk_names))
           base_risks in
  add_metadata_loop clock 0 new_risks.

End RiskPrediction.

(* ================================================================== *)
(** ** risk_prediction.py: [calculate_risk_score] on a request *)
(* ================================================================== *)

(** [RiskPrediction.calculate_risk_score] takes the numbers of its
    argument as they are.  Here the argument is the dictionary of a
    decoded request, whose values can be of any type: the function is
    followed line by line with the conversions and the exceptions of
    Python's arithmetic. *)
Module RiskRequest.
Import Py.

(** [float(z)] for an [int], as the arithmetic converts an [int] operand:
    the nearest binary64, ties to even, and [OverflowError] beyond the
    range. *)
Definition float_of_int (z : Z) : result float :=
  match binary_normalize prec emax z 0 false with
  | S754_infinity _ => Raise OverflowError
  | f => Ok (SF2Prim f)
  end.

(** [n / d] for two [int]s, [0 < d]: the quotient correctly rounded. *)
Definition int_true_div (n d : Z) : result float :=
  match n with
  | Z0 => Ok 0%float
  | _ =>
      match SFdiv prec emax (S754_finite (n <? 0) (Z.to_pos (Z.abs n)) 0)
                            (S754_finite false (Z.to_pos d) 0) with
      | S754_infinity _ => Raise OverflowError
      | q => Ok (SF2Prim q)
      end
  end.

(** [True] is the [int] 1 and [False] the [int] 0. *)
Definition int_of_bool (b : bool) : Z := if b then 1 else 0.

(** The operand [v] of a product with a [float]. *)
Definition float_operand (v : pyval) : result float :=
  match v with
  | VFloat f => Ok f
  | VInt z => float_of_int z
  | VBool b => float_of_int (int_of_bool b)
  | VNone | VStr _ | VList _ | VDict _ => Raise TypeError
  end.

(** [v / 100] *)
Definition div_100 (v : pyval) : result float :=
  match v with
  | VFloat f => Ok (f / 100)%float
  | VInt z => int_true_div z 100
  | VBool b => int_true_div (int_of_bool b) 100
  | VNone | VStr _ | VList _ | VDict _ => Raise TypeError
  end.

(** [threat_multipliers.get(threat_level, 1.0)]: the key is hashed, and
    only a [str] can be one of the keys. *)
Definition threat_multiplier_of (threat_level : pyval) : result float :=
  v <- hashable threat_level ;;
  match v with
  | VStr s =>
      Ok (RiskPrediction.multiplier_get RiskPrediction.threat_multipliers s 1.0%float)
  | _ => Ok 1.0%float
  end.

(** The result: the value under [impact] is the one read from the
    request, of whatever numeric type it is. *)
Record risk_score_result : Type := {
  risk_score : float;
  classification : string;
  priority : Z;
  likelihood : float;
  impact : pyval;
  confidence : float
}.

Definition calculate_risk_score (risk_data : dict) : result risk_score_result :=
  let likelihood := dict_get_default risk_data "likelihood" (VInt 3) in
  let impact := dict_get_default risk_data "impact" (VInt 3) in
  control_effectiveness <-
    div_100 (dict_get_default risk_data "control_effectiveness" (VInt 70)) ;;
  let threat_level := dict_get_default risk_data "threat_level" (VStr "medium") in
  l <- float_operand likelihood ;;
  let adjusted_likelihood := (l * (1 - (control_effectiveness * 0.4)))%float in
  threat_multiplier <- threat_multiplier_of threat_level ;;
  i <- float_operand impact ;;
  let base_score := (adjusted_likelihood * i)%float in
  let final_score := (base_score * threat_multiplier)%float in
  let '(classification, priority) :=
    if (15 <=? final_score)%float then ("Critical", 1)
    else if (10 <=? final_score)%float then ("High", 2)
    else if (5 <=? final_score)%float then ("Medium", 3)
    else ("Low", 4) in
  Ok {| risk_score := round final_score 2;
        classification := classification;
        priority := priority;
        likelihood := round adjusted_likelihood 2;
        impact := impact;
        confidence := round (control_effectiveness * 100)%float 1 |}.

End RiskRequest.

(* ================================================================== *)
(** ** document_analyzer.py *)
(* ================================================================== *)

Module DocumentAnalyzer.
Import Py.

(** *** [_check_completeness] *)

Definition required_elements : list (string * list string) :=
  [("policy",
    ["purpose"; "scope"; "responsibilities"; "policy statement";
     "compliance"; "review"; "effective date"]);
   ("procedure",
    ["purpose"; "scope"; "procedure steps"; "responsibilities";
     "references"; "records"]);
   ("contract",
    ["parties"; "term"; "obligations"; "confidentiality";
     "liability"; "termination"])].

(** [required_elements.get(doc_type, [])] *)
Fixpoint elements_get (table : list (string * list string)) (k : string)
    : list string :=
  match table with
  | [] => []
  | (k', v) :: tl => if String.eqb k' k then v else elements_get tl k
  end.

Record completeness : Type := {
  score : pynum;
  found : nat;
  total_required : nat;
  missing : list string
}.

(** The loop over [required]: the number of elements found and the list
    of those missing, in checklist order. *)
Fixpoint check_loop (text_lower : string) (required : list string)
    (found : nat) (missing : list string) : nat * list string :=
  match required with
  | [] => (found, missing)
  | element :: tl =>
      if contains (lower element) text_lower
      then check_loop text_lower tl (S found) missing
      else check_loop text_lower tl found (missing ++ [element])
  end.

Definition _check_completeness (text doc_type : string) : completeness :=
  let text_lower := lower text in
  let required := elements_get required_elements doc_type in
  let '(found, missing) := check_loop text_lower required 0%nat [] in
  let score :=
    match required with
    | [] => PInt 100
    | _ :: _ =>
        PFloat ((float_of_nat found / float_of_nat (List.length required)) * 100)%float
    end in
  {| score := round_num score 1;
     found := found;
     total_required := List.length required;
     missing := missing |}.

(** *** [_extract_requirements] *)

Record requirement : Type := {
  text : string;
  type : string;
  position : nat
}.

Definition requirement_keywords : list string :=
  ["must"; "shall"; "required to"; "mandatory"].

(** The pattern literal [kw] matched at the head of [s] under
    [re.IGNORECASE]: the rest of [s] after it. *)
Fixpoint match_literal (kw s : string) : option string :=
  match kw with
  | EmptyString => Some s
  | String k kw' =>
      match s with
      | EmptyString => None
      | String c s' =>
          if Ascii.eqb (lower_char c) (lower_char k) then match_literal kw' s'
          else None
      end
  end.

(** The longest prefix of [s] whose characters satisfy [p], and the rest. *)
Fixpoint span (p : ascii -> bool) (s : string) : string * string :=
  match s with
  | EmptyString => (EmptyString, EmptyString)
  | String c tl =>
      if p c then let '(a, b) := span p tl in (String c a, b)
      else (EmptyString, s)
  end.

Definition not_period (c : ascii) : bool := negb (Ascii.eqb c ".").

Fixpoint last_char (s : string) : string :=
  match s with
  | EmptyString => EmptyString
  | String c EmptyString => s
  | String _ tl => last_char tl
  end.

(** The pattern [kw\s+([^.]+)] matched at the head of [s]: group 1 and the
    length of the whole match.  [\s+] takes the whole run of white space;
    when no character other than a period follows the run, it gives back
    its last character, which group 1 then takes. *)
Definition match_here (kw s : string) : option (string * nat) :=
  match match_literal kw s with
  | None => None
  | Some rest =>
      let '(ws, after) := span isspace rest in
      let '(grp, _) := span not_period after in
      match ws, grp with
      | EmptyString, _ => None
      | String _ EmptyString, EmptyString => None
      | _, EmptyString =>
          Some (last_char ws, (String.length kw + String.length ws)%nat)
      | _, _ =>
          Some (grp, (String.length kw + String.length ws + String.length grp)%nat)
      end
  end.

(** [re.finditer(kw\s+([^.]+), text, re.IGNORECASE)]: the matches from left
    to right, each as [(match.start(), match.group(1))].  [pos] is the
    index of the head of [s] in the text, [skip] the number of characters
    of [s] that the previous match still covers. *)
Fixpoint finditer_from (kw s : string) (pos skip : nat) : list (nat * string) :=
  match s with
  | EmptyString => []
  | String _ tl =>
      match skip with
      | S k => finditer_from kw tl (S pos) k
      | O =>
          match match_here kw s with
          | Some (grp, len) => (pos, grp) :: finditer_from kw tl (S pos) (Nat.pred len)
          | None => finditer_from kw tl (S pos) 0%nat
          end
      end
  end.

Definition finditer (kw text : string) : list (nat * string) :=
  finditer_from kw text 0%nat 0%nat.

(** The inner loop for one pattern: the matches that pass the length
    filter, as requirement records. *)
Fixpoint collect (matches : list (nat * string)) : list requirement :=
  match matches with
  | [] => []
  | (start, grp) :: tl =>
      let req_text := strip grp in
      if (10 <? String.length req_text)%nat
      then {| text := req_text; type := "mandatory"; position := start |} :: collect tl
      else collect tl
  end.

(** The outer loop over the patterns, in their declared order. *)
Definition all_requirements (text : string) : list requirement :=
  flat_map (fun kw => collect (finditer kw text)) requirement_keywords.

(** The duplicate filter: a requirement is kept unless its text is in
    [seen] already. *)
Fixpoint remove_duplicates (seen : list string) (reqs : list requirement)
    : list requirement :=
  match reqs with
  | [] => []
  | req :: tl =>
      if existsb (String.eqb (DocumentAnalyzer.text req)) seen
      then remove_duplicates seen tl
      else req :: remove_duplicates (DocumentAnalyzer.text req :: seen) tl
  end.

Definition _extract_requirements (text : string) : list requirement :=
  firstn 10 (remove_duplicates [] (all_requirements text)).

(** *** [analyze_document]

    The result record, restricted to the keys that come from
    [_check_completeness] and [_extract_requirements]; the remaining keys
    (word and sentence counts, sections, frameworks, quality score) are
    computed independently of these. *)
Record analysis : Type := {
  document_type : string;
  completeness_score : pynum;
  missing_elements : list string;
  requirements_identified : nat;
  requirements : list requirement
}.

Definition analyze_document (document_text document_type : string) : analysis :=
  let completeness := _check_completeness document_text document_type in
  let requirements := _extract_requirements document_text in
  {| document_type := document_type;
     completeness_score := score completeness;
     missing_elements := missing completeness;
     requirements_identified := List.length requirements;
     requirements := requirements |}.

End DocumentAnalyzer.

(* ================================================================== *)
(** ** The tokenizer on the string literals of a line *)
(* ================================================================== *)

(** Before a module is run its text is cut into tokens, line by line.
    This is how the tokenizer reads the string literals of one physical
    line that has no triple-quoted literal, no prefixed literal and no
    backslash at its end.  In the code of the line a quote character
    opens a literal and [#] starts a comment that runs to the end of the
    line; in a literal a backslash takes the next character with it and
    the character that opened the literal closes it.  A literal that is
    open at the end of the line is an error, [SyntaxError: unterminated
    string literal], reported at the column of its opening quote, and the
    module is not imported. *)
Module PySyntax.

Inductive lexer_state : Type :=
| Code
| Literal (quote : ascii) (start : nat) (body : string)
| Escape (quote : ascii) (start : nat) (body : string).

(** The literals of a line, in order, without their quotes; or the
    column, counted from 1, of the quote that opens a literal the line
    leaves open. *)
Inductive line_tokens : Type :=
| Literals (bodies : list string)
| Unterminated (column : nat).

Definition double_quote : ascii := ascii_of_nat 34.

Definition backslash : ascii := ascii_of_nat 92.

Definition is_quote (c : ascii) : bool :=
  Ascii.eqb c "'" || Ascii.eqb c double_quote.

Definition add_char (body : string) (c : ascii) : string :=
  (body ++ String c EmptyString)%string.

Fixpoint scan (state : lexer_state) (bodies : list string) (column : nat)
    (line : string) : line_tokens :=
  match line with
  | EmptyString =>
      match state with
      | Code => Literals bodies
      | Literal _ start _ | Escape _ start _ => Unterminated start
      end
  | String c rest =>
      match state with
      | Code =>
          if is_quote c
          then scan (Literal c column EmptyString) bodies (S column) rest
          else if Ascii.eqb c "#" then Literals bodies
          else scan Code bodies (S column) rest
      | Literal quote start body =>
          if Ascii.eqb c quote
          then scan Code (bodies ++ [body])%list (S column) rest
          else if Ascii.eqb c backslash
          then scan (Escape quote start (add_char body c)) bodies (S column) rest
          else scan (Literal quote start (add_char body c)) bodies (S column) rest
      | Escape quote start body =>
          scan (Literal quote start (add_char body c)) bodies (S column) rest
      end
  end.

Definition tokenize_line (line : string) : line_tokens :=
  scan Code [] 1%nat line.

(** The lines of a file from the line of number [number] on: the
    literals of each line, or the place of the first literal left
    open. *)
Inductive file_tokens : Type :=
| Tokenized (literals : list (list string))
| SyntaxError (line column : nat).

Fixpoint tokenize_lines (number : nat) (lines : list string) : file_tokens :=
  match lines with
  | [] => Tokenized []
  | line :: rest =>
      match tokenize_line line with
      | Unterminated column => SyntaxError number column
      | Literals bodies =>
          match tokenize_lines (S number) rest with
          | Tokenized literals => Tokenized (bodies :: literals)
          | SyntaxError n column => SyntaxError n column
          end
      end
  end.

End PySyntax.

(* ================================================================== *)
(** ** gap_analysis.py *)
(* ================================================================== *)

(** The file as it stands does not pass the tokenizer: line 79, the
    last key of the second entry [_load_gdpr_requirements] returns, has
    lost the opening quote of its key ([source_lines]), so that the
    import of the module fails and none of its functions can be called.

    The rest of this module embeds the file repaired: line 79 is read as
    ['priority': 'High'] ([repaired_lines]), the key the six other
    entries of the catalogs have, and nothing else is changed.  Every
    definition below, and every statement made of it, is about the
    repaired file, not about the file as it stands. *)
Module GapAnalysis.
Import Py.

(** Lines 66 to 81 of the file, the [return] statement of
    [_load_gdpr_requirements], as they stand. *)
Definition source_lines : list string :=
  [ "        return [";
    "            {";
    "                'id': 'Art.32',";
    "                'name': 'Security of Processing',";
    "                'category': 'Security',";
    "                'description': 'Implement appropriate technical and organizational measures',";
    "                'priority': 'Critical'";
    "            },";
    "            {";
    "                'id': 'Art.33',";
    "                'name': 'Breach Notification',";
    "                'category': 'Incident Management',";
    "                'description': 'Notify supervisory authority of data breaches',";
    "priority': 'High'";
    "            },";
    "        ]" ].

(** Line 79 with the quote restored. *)
Definition repaired_line_79 : string := "                'priority': 'High'".

(** The same lines with line 79, the fourteenth of them, repaired. *)
Definition repaired_lines : list string :=
  (firstn 13 source_lines ++ repaired_line_79 :: skipn 14 source_lines)%list.

(** An entry of a framework catalog. *)
Record control : Type := {
  id : string;
  name : string;
  category : string;
  description : string;
  priority : string
}.

Definition _load_iso27001_controls : list control :=
  [ {| id := "A.5.1";
       name := "Information Security Policies";
       category := "Organizational Controls";
       description := "Policies for information security";
       priority := "Critical" |};
    {| id := "A.5.2";
       name := "Roles and Responsibilities";
       category := "Organizational Controls";
       description := "Define and communicate security roles";
       priority := "High" |};
    {| id := "A.8.1";
       name := "User Endpoint Devices";
       category := "Technological Controls";
       description := "Protect information on endpoint devices";
       priority := "High" |} ].

Definition _load_soc2_controls : list control :=
  [ {| id := "CC1.1";
       name := "Control Environment";
       category := "Common Criteria";
       description := "Demonstrates commitment to integrity and ethical values";
       priority := "Critical" |};
    {| id := "CC6.1";
       name := "Logical and Physical Access Controls";
       category := "Common Criteria";
       description := "Restrict access to authorized users";
       priority := "Critical" |} ].

(** The list [repaired_lines] returns; the [priority] of Art.33 is the
    one line 79 gives once repaired. *)
Definition _load_gdpr_requirements : list control :=
  [ {| id := "Art.32";
       name := "Security of Processing";
       category := "Security";
       description := "Implement appropriate technical and organizational measures";
       priority := "Critical" |};
    {| id := "Art.33";
       name := "Breach Notification";
       category := "Incident Management";
       description := "Notify supervisory authority of data breaches";
       priority := "High" |} ].

Definition frameworks : list (string * list control) :=
  [("iso27001", _load_iso27001_controls);
   ("soc2", _load_soc2_controls);
   ("gdpr", _load_gdpr_requirements)].

Fixpoint frameworks_get (table : list (string * list control)) (k : string)
    : option (list control) :=
  match table with
  | [] => None
  | (k', v) :: tl => if String.eqb k' k then Some v else frameworks_get tl k
  end.

Record gap : Type := {
  control_id : string;
  control_name : string;
  gap_category : string;
  gap_description : string;
  gap_priority : string;
  status : string
}.

Record gap_report : Type := {
  framework : string;
  analysis_date : string;
  completion_rate : pynum;
  total_required : nat;
  total_implemented : nat;
  total_gaps : nat;
  critical_gaps : nat;
  high_priority_gaps : nat;
  gaps : list gap;
  recommendations : list string
}.

(** [categories[cat] = categories.get(cat, 0) + 1] on a counter in
    insertion order. *)
Fixpoint count_category (categories : list (string * nat)) (cat : string)
    : list (string * nat) :=
  match categories with
  | [] => [(cat, 1%nat)]
  | (c, n) :: tl =>
      if String.eqb c cat then (c, S n) :: tl else (c, n) :: count_category tl cat
  end.

Definition urgent_line (n : nat) : string :=
  "URGENT: Address " ++ str_of_nat n
    ++ " critical gaps immediately to meet compliance requirements.".

Definition focus_line (item : string * nat) : string :=
  "Focus on " ++ fst item ++ ": " ++ str_of_nat (snd item)
    ++ " gap(s) identified in this area.".

Definition _generate_recommendations (gaps : list gap) : list string :=
  match gaps with
  | [] =>
      ["Great! No gaps identified. Continue monitoring and maintaining controls."]
  | _ :: _ =>
      let critical := filter (fun g => String.eqb (gap_priority g) "Critical") gaps in
      let urgent :=
        match critical with
        | [] => []
        | _ :: _ => [urgent_line (List.length critical)]
        end in
      let categories :=
        fold_left (fun cats g => count_category cats (gap_category g)) gaps [] in
      (urgent ++
       map focus_line (sort_desc (fun x => Z.of_nat (snd x)) categories))%list
  end.

(** [ctrl['id']] for one entry of [current_controls], as an element of
    the set [implemented_ids]. *)
Definition control_id_of (ctrl : pyval) : result pyval :=
  v <- subscript ctrl "id" ;;
  hashable v.

(** [req_id in implemented_ids] *)
Definition implemented (implemented_ids : list pyval) (req_id : string) : bool :=
  existsb (fun v => eq_str v req_id) implemented_ids.

(** [now] is the text [datetime.now().isoformat()] returns at the call. *)
Definition analyze_gaps (now : string) (framework : string)
    (current_controls : list pyval) : result gap_report :=
  match frameworks_get frameworks framework with
  | None => Raise (ValueError ("Unknown framework: " ++ framework))
  | Some required_controls =>
      implemented_ids <- mapM control_id_of current_controls ;;
      let gaps :=
        map (fun req_ctrl =>
               {| control_id := id req_ctrl;
                  control_name := name req_ctrl;
                  gap_category := category req_ctrl;
                  gap_description := description req_ctrl;
                  gap_priority := priority req_ctrl;
                  status := "Missing" |})
            (filter (fun req_ctrl => negb (implemented implemented_ids (id req_ctrl)))
                    required_controls) in
      let total_required := List.length required_controls in
      let total_implemented := (total_required - List.length gaps)%nat in
      let completion_rate :=
        if (0 <? total_required)%nat
        then PFloat ((float_of_nat total_implemented / float_of_nat total_required) * 100)%float
        else PInt 0 in
      let critical_gaps := filter (fun g => String.eqb (gap_priority g) "Critical") gaps in
      let high_gaps := filter (fun g => String.eqb (gap_priority g) "High") gaps in
      Ok {| framework := framework;
            analysis_date := now;
            completion_rate := round_num completion_rate 2;
            total_required := total_required;
            total_implemented := total_implemented;
            total_gaps := List.length gaps;
            critical_gaps := List.length critical_gaps;
            high_priority_gaps := List.length high_gaps;
            gaps := gaps;
            recommendations := _generate_recommendations gaps |}
  end.

End GapAnalysis.

(* ================================================================== *)
(** ** recommendation_engine.py *)
(* ================================================================== *)

Module RecommendationEngine.
Import Py.

(** The score the loop body of [prioritize_remediation] gives one gap. *)
Definition priority_score (gap : dict) : Z :=
  let priority_score := 0 in
  (* Factor 1: severity *)
  let priority_score :=
    match dict_get gap "priority" with
    | Some v =>
        if eq_str v "Critical" then priority_score + 100
        else if eq_str v "High" then priority_score + 75
        else if eq_str v "Medium" then priority_score + 50
        else priority_score + 25
    | None => priority_score + 25
    end in
  (* Factor 2: ease of implementation *)
  let complexity := dict_get_default gap "complexity" (VStr "Medium") in
  let priority_score :=
    if eq_str complexity "Low" then priority_score + 30
    else if eq_str complexity "Medium" then priority_score + 15
    else priority_score in
  (* Factor 3: cost effectiveness *)
  let cost := dict_get_default gap "cost" (VStr "Medium") in
  let priority_score :=
    if eq_str cost "Low" then priority_score + 20
    else if eq_str cost "Medium" then priority_score + 10
    else priority_score in
  priority_score.

Definition action (priority_score : Z) : string :=
  if 150 <=? priority_score then "Immediate - Start within 1 week"
  else if 100 <=? priority_score then "High Priority - Start within 1 month"
  else if 50 <=? priority_score then "Medium Priority - Plan for next quarter"
  else "Low Priority - Address as resources allow".

(** One turn of the scoring loop: the gap with its two new keys. *)
Definition score_gap (gap : dict) : dict :=
  let s := priority_score gap in
  let gap := dict_set gap "priority_score" (VInt s) in
  dict_set gap "action" (VStr (action s)).

(** The sort key [x['priority_score']], an [int] on every scored gap. *)
Definition sort_key (gap : dict) : Z :=
  match dict_get gap "priority_score" with
  | Some (VInt z) => z
  | _ => 0
  end.

Definition prioritize_remediation (gaps : list dict) : list dict :=
  sort_desc sort_key (map score_gap gaps).

End RecommendationEngine.

(* ================================================================== *)
(** ** Further built-ins: integer division, [dict.items], [sorted] *)
(* ================================================================== *)

Module PyMore.
Import Py.

(** [n / d] on two [int]s, [0 <= n]: the binary64 nearest to the
    quotient, ties to even.  [None] stands for the exception raised
    otherwise: [ZeroDivisionError] for [d = 0], [OverflowError] when the
    quotient exceeds the range of binary64. *)
Definition true_div (n d : nat) : option float :=
  match d, n with
  | O, _ => None
  | _, O => Some 0%float
  | _, _ =>
      match SFdiv prec emax (S754_finite false (Pos.of_nat n) 0)
                  (S754_finite false (Pos.of_nat d) 0) with
      | S754_infinity _ => None
      | q => Some (SF2Prim q)
      end
  end.

(** [min(100, x)] on a [float]: [100] unless [x] is smaller. *)
Definition min_100 (x : float) : float :=
  if (x <? 100)%float then x else 100%float.

(** [d.items()]: a key of the association list counts at its first
    occurrence, which is the one [dict_get] reads. *)
Fixpoint items_from (seen : list string) (d : dict) : list (string * pyval) :=
  match d with
  | [] => []
  | (k, v) :: tl =>
      if existsb (String.eqb k) seen then items_from seen tl
      else (k, v) :: items_from (k :: seen) tl
  end.

Definition items (d : dict) : list (string * pyval) := items_from [] d.

(** [sorted(keys)] on [str] keys: ascending by code points. *)
Fixpoint insert_sorted (s : string) (l : list string) : list string :=
  match l with
  | [] => [s]
  | h :: tl => if String.ltb s h then s :: h :: tl else h :: insert_sorted s tl
  end.

Definition sorted (l : list string) : list string := fold_right insert_sorted [] l.

(** [list.sort(key=..., reverse=True)] with a [float] key: stable, the
    greatest key first. *)
Section SortFloat.
Context {A : Type} (key : A -> float).

Fixpoint insert_desc_float (x : A) (l : list A) : list A :=
  match l with
  | [] => [x]
  | y :: tl =>
      if (key y <=? key x)%float then x :: y :: tl else y :: insert_desc_float x tl
  end.

Definition sort_desc_float (l : list A) : list A := fold_right insert_desc_float [] l.

(** The order of the sorted list: no key before a greater one. *)
Definition desc_float (a b : A) : Prop := (key b <=? key a)%float = true.
End SortFloat.

End PyMore.

(* ================================================================== *)
(** ** risk_prediction.py: [analyze_risk_trends] *)
(* ================================================================== *)

Module RiskTrends.
Import Py PyMore.

(** The result: the one-key dictionary of the early return, or the full
    report. *)
Record trend_report : Type := {
  trend : string;
  total_risks : nat;
  monthly_data : list (string * nat);
  analysis_date : string
}.

Inductive trend_result : Type :=
| TrendOnly (trend : string)
| TrendReport (report : trend_report).

(** [risk.get('identified_date', '')[:7]] as a key of the counter: the
    entry has to be a mapping and the date a [str]; [None] stands for the
    exception raised otherwise. *)
Definition month_of (risk : pyval) : option string :=
  match risk with
  | VDict d =>
      match dict_get_default d "identified_date" (VStr "") with
      | VStr s => Some (substring 0 7 s)
      | _ => None
      end
  | _ => None
  end.

(** The loop that groups the risks by month;
    [risk_counts_by_month[month] = risk_counts_by_month.get(month, 0) + 1]
    is the counter step of the gap analysis. *)
Fixpoint count_months (historical_risks : list pyval)
    (risk_counts_by_month : list (string * nat)) : option (list (string * nat)) :=
  match historical_risks with
  | [] => Some risk_counts_by_month
  | risk :: tl =>
      match month_of risk with
      | Some month =>
          count_months tl (GapAnalysis.count_category risk_counts_by_month month)
      | None => None
      end
  end.

(** [risk_counts_by_month[m]] for a key of the counter. *)
Fixpoint count_of (risk_counts_by_month : list (string * nat)) (m : string) : nat :=
  match risk_counts_by_month with
  | [] => 0%nat
  | (k, n) :: tl => if String.eqb k m then n else count_of tl m
  end.

(** [sum(risk_counts_by_month[m] for m in ms) / min(3, len(ms))] *)
Definition average (risk_counts_by_month : list (string * nat)) (ms : list string)
    : option float :=
  true_div (list_sum (map (count_of risk_counts_by_month) ms))
           (Nat.min 3 (List.length ms)).

(** [now] is the text [datetime.now().isoformat()] returns at the call. *)
Definition analyze_risk_trends (now : string) (historical_risks : list pyval)
    : option trend_result :=
  match historical_risks with
  | [] => Some (TrendOnly "insufficient_data")
  | _ :: _ =>
      match count_months historical_risks [] with
      | None => None
      | Some risk_counts_by_month =>
          let months := sorted (map fst risk_counts_by_month) in
          let trend :=
            if (2 <=? List.length months)%nat then
              match average risk_counts_by_month
                            (skipn (List.length months - 3) months),
                    average risk_counts_by_month (firstn 3 months) with
              | Some recent_avg, Some older_avg =>
                  if (older_avg * 1.2 <? recent_avg)%float then Some "increasing"
                  else if (recent_avg <? older_avg * 0.8)%float then Some "decreasing"
                  else Some "stable"
              | _, _ => None
              end
            else Some "insufficient_data" in
          match trend with
          | None => None
          | Some trend =>
              Some (TrendReport
                      {| trend := trend;
                         total_risks := List.length historical_risks;
                         monthly_data := risk_counts_by_month;
                         analysis_date := now |})
          end
      end
  end.

End RiskTrends.

(* ================================================================== *)
(** ** recommendation_engine.py: the control library and the framework
       mappings *)
(* ================================================================== *)

Module ControlLibrary.
Import Py PyMore.

(** An entry of the control library. *)
Record library_control : Type := {
  id : string;
  name : string;
  description : string;
  effectiveness : nat;
  complexity : string;
  cost : string
}.

Definition _load_control_library : list (string * list library_control) :=
  [("access_control",
    [ {| id := "AC-001";
         name := "Multi-Factor Authentication";
         description := "Implement MFA for all user accounts";
         effectiveness := 95;
         complexity := "Medium";
         cost := "Low" |};
      {| id := "AC-002";
         name := "Role-Based Access Control";
         description := "Implement RBAC for least privilege";
         effectiveness := 90;
         complexity := "Medium";
         cost := "Medium" |} ]);
   ("data_protection",
    [ {| id := "DP-001";
         name := "Data Encryption at Rest";
         description := "Encrypt sensitive data in storage";
         effectiveness := 92;
         complexity := "Low";
         cost := "Low" |};
      {| id := "DP-002";
         name := "Data Encryption in Transit";
         description := "Use TLS 1.3 for all data transmission";
         effectiveness := 94;
         complexity := "Low";
         cost := "Low" |} ]);
   ("incident_response",
    [ {| id := "IR-001";
         name := "Incident Response Plan";
         description := "Documented IR procedures";
         effectiveness := 88;
         complexity := "Medium";
         cost := "Medium" |} ])].

Definition _load_framework_mappings : list (string * list (string * string)) :=
  [("iso27001",
    [("A.9", "access_control"); ("A.10", "data_protection");
     ("A.16", "incident_response")]);
   ("soc2",
    [("CC6", "access_control"); ("CC7", "data_protection");
     ("CC8", "incident_response")])].

Definition control_library := _load_control_library.
Definition framework_mappings := _load_framework_mappings.

(** [table.get(k, default)] on a table with [str] keys. *)
Fixpoint table_get {A : Type} (table : list (string * A)) (k : string) (default : A) : A :=
  match table with
  | [] => default
  | (k', v) :: tl => if String.eqb k' k then v else table_get tl k default
  end.

(** [k in table] *)
Definition table_mem {A : Type} (table : list (string * A)) (k : string) : bool :=
  existsb (fun kv => String.eqb (fst kv) k) table.

(** *** [_calculate_recommendation_score] and [recommend_controls] *)

Definition complexity_scores : list (string * nat) :=
  [("Low", 100%nat); ("Medium", 75%nat); ("High", 50%nat)].

Definition cost_scores : list (string * nat) :=
  [("Low", 100%nat); ("Medium", 75%nat); ("High", 50%nat)].

(** The risk profile is not read by the function. *)
Definition _calculate_recommendation_score (control : library_control)
    (risk_profile : dict) : float :=
  let effectiveness := effectiveness control in
  let complexity_score := table_get complexity_scores (complexity control) 50%nat in
  let cost_score := table_get cost_scores (cost control) 50%nat in
  let score :=
    (float_of_nat effectiveness * 0.5
     + float_of_nat complexity_score * 0.3
     + float_of_nat cost_score * 0.2)%float in
  round score 2.

(** A recommendation: the library control with three more keys. *)
Record recommendation : Type := {
  control : library_control;
  category : string;
  recommendation_score : float;
  rationale : string
}.

(** [level in ['High', 'Critical']] *)
Definition is_high_risk (level : pyval) : bool :=
  eq_str level "High" || eq_str level "Critical".

(** The body of the inner loop. *)
Definition recommend (risk_profile : dict) (category : string)
    (control : library_control) : recommendation :=
  {| control := control;
     category := category;
     recommendation_score := _calculate_recommendation_score control risk_profile;
     rationale := "Addresses " ++ category ++ " risks" |}.

Definition recommend_controls (risk_profile : dict) : result (list recommendation) :=
  risk_levels <-
    match dict_get_default risk_profile "risk_levels" (VDict []) with
    | VDict d => Ok (items d)
    | _ => Raise AttributeError
    end ;;
  let high_risk_categories :=
    map fst (filter (fun item => is_high_risk (snd item)) risk_levels) in
  let recommendations :=
    flat_map (fun category =>
                map (recommend risk_profile category)
                    (table_get control_library category []))
             high_risk_categories in
  Ok (firstn 10 (sort_desc_float recommendation_score recommendations)).

(** *** [suggest_framework_alignment] *)

Inductive suggestion : Type :=
| Gap (requirement category : string) (recommended_controls : list library_control)
| Covered (requirement category : string) (existing_controls : nat).

Record alignment : Type := {
  framework : string;
  coverage_percentage : pynum;
  total_requirements : nat;
  covered_requirements : nat;
  gap_count : nat;
  suggestions : list suggestion
}.

(** The dictionary with the single key [error], or the alignment. *)
Inductive alignment_result : Type :=
| UnknownFramework
| Alignment (a : alignment).

(** [ctrl.get('category') == category] for one entry of
    [current_controls]. *)
Definition has_category (category : string) (ctrl : pyval) : result bool :=
  match ctrl with
  | VDict d =>
      match dict_get d "category" with
      | Some v => Ok (eq_str v category)
      | None => Ok false
      end
  | _ => Raise AttributeError
  end.

(** The list comprehension [category_controls]. *)
Fixpoint category_controls (category : string) (current_controls : list pyval)
    : result (list pyval) :=
  match current_controls with
  | [] => Ok []
  | ctrl :: tl =>
      b <- has_category category ctrl ;;
      rest <- category_controls category tl ;;
      Ok (if b then ctrl :: rest else rest)
  end.

(** The loop over the requirements of the framework. *)
Fixpoint suggest (current_controls : list pyval) (framework_map : list (string * string))
    (suggestions : list suggestion) : result (list suggestion) :=
  match framework_map with
  | [] => Ok suggestions
  | (req_id, category) :: tl =>
      cs <- category_controls category current_controls ;;
      match cs with
      | [] =>
          match table_get control_library category [] with
          | [] => suggest current_controls tl suggestions
          | recommended =>
              suggest current_controls tl
                      (suggestions ++ [Gap req_id category (firstn 2 recommended)])%list
          end
      | _ :: _ =>
          suggest current_controls tl
                  (suggestions ++ [Covered req_id category (List.length cs)])%list
      end
  end.

Definition is_covered (s : suggestion) : bool :=
  match s with
  | Covered _ _ _ => true
  | Gap _ _ _ => false
  end.

Definition suggest_framework_alignment (current_controls : list pyval)
    (target_framework : string) : result alignment_result :=
  if negb (table_mem framework_mappings target_framework) then Ok UnknownFramework
  else
    let framework_map := table_get framework_mappings target_framework [] in
    suggestions <- suggest current_controls framework_map [] ;;
    let coverage := List.length (filter is_covered suggestions) in
    let total := List.length suggestions in
    let coverage_percentage :=
      if (0 <? total)%nat
      then PFloat ((float_of_nat coverage / float_of_nat total) * 100)%float
      else PInt 0 in
    Ok (Alignment
          {| framework := target_framework;
             coverage_percentage := round_num coverage_percentage 1;
             total_requirements := total;
             covered_requirements := coverage;
             gap_count := (total - coverage)%nat;
             suggestions := suggestions |}).

(** *** [smart_control_mapping] *)

Record control_mapping : Type := {
  source_requirement : string;
  target_requirement : string;
  mapping_category : string;
  mapping_confidence : string
}.

Definition smart_control_mapping (source_framework target_framework : string)
    : list control_mapping :=
  let source_map := table_get framework_mappings source_framework [] in
  let target_map := table_get framework_mappings target_framework [] in
  flat_map
    (fun source =>
       flat_map
         (fun target =>
            if String.eqb (snd source) (snd target)
            then [{| source_requirement := fst source;
                     target_requirement := fst target;
                     mapping_category := snd source;
                     mapping_confidence := "High" |}]
            else [])
         target_map)
    source_map.

End ControlLibrary.

(* ================================================================== *)
(** ** document_analyzer.py: frameworks mentioned and quality score *)
(* ================================================================== *)

Module DocumentQuality.
Import Py PyMore.

Definition framework_identifiers : list (string * list string) :=
  [("iso27001", ["iso 27001"; "iso27001"; "iso/iec 27001"]);
   ("soc2", ["soc 2"; "soc2"; "soc ii"]);
   ("gdpr", ["gdpr"; "general data protection regulation"]);
   ("hipaa", ["hipaa"; "health insurance portability"]);
   ("pci_dss", ["pci dss"; "pci-dss"; "payment card industry"])].

Definition _identify_frameworks (text : string) : list string :=
  let text_lower := lower text in
  map fst
      (filter (fun item => existsb (fun identifier => contains identifier text_lower)
                                   (snd item))
              framework_identifiers).

(** [sections] is read through its length only; [None] stands for the
    [OverflowError] of a division. *)
Definition _calculate_quality_score (word_count : nat) (sections : list string)
    (completeness : float) : option float :=
  match true_div word_count 1000, true_div (List.length sections) 5 with
  | Some words, Some parts =>
      let length_score := min_100 (words * 100)%float in
      let structure_score := min_100 (parts * 100)%float in
      let quality :=
        (completeness * 0.5 + length_score * 0.25 + structure_score * 0.25)%float in
      Some (round quality 1)
  | _, _ => None
  end.

End DocumentQuality.

(* ================================================================== *)
(** ** Part II.  The risk score and the remediation ranking as the specification words them *)
(* ================================================================== *)

Module RiskSpec.

(** The multiplier table of the specification; a level outside the table
    counts as [medium]. *)
Definition threat_multiplier (level : string) : float :=
  if String.eqb level "low" then 0.8%float
  else if String.eqb level "high" then 1.3%float
  else if String.eqb level "critical" then 1.5%float
  else 1.0%float.

(** [likelihood * (1 - controlEffectiveness/100 * 0.4) * impact * threatMultiplier] *)
Definition score (likelihood impact control_effectiveness : float)
    (level : string) : float :=
  (likelihood * (1 - control_effectiveness / 100 * 0.4) * impact
     * threat_multiplier level)%float.

Inductive tier : Type := Critical | High | Medium | Low.

(** Inclusive lower bounds, the highest first. *)
Definition tier_of (score : float) : tier :=
  if (15 <=? score)%float then Critical
  else if (10 <=? score)%float then High
  else if (5 <=? score)%float then Medium
  else Low.

Definition tier_name (t : tier) : string :=
  match t with
  | Critical => "Critical"
  | High => "High"
  | Medium => "Medium"
  | Low => "Low"
  end.

Definition tier_priority (t : tier) : Z :=
  match t with
  | Critical => 1
  | High => 2
  | Medium => 3
  | Low => 4
  end.

(** [lo <= x <= hi] on binary64 numbers. *)
Definition in_range (lo hi x : float) : Prop :=
  (lo <=? x)%float = true /\ (x <=? hi)%float = true.

(** The rank of a threat level in the order low < medium < high <
    critical; a level outside the table counts as medium, as in the code. *)
Definition threat_severity (level : string) : nat :=
  if String.eqb level "low" then 0%nat
  else if String.eqb level "high" then 2%nat
  else if String.eqb level "critical" then 3%nat
  else 1%nat.

End RiskSpec.

Module RemediationSpec.
Import Py.

(** The three contributions as the specification tabulates them. *)
Definition severity (priority : option pyval) : Z :=
  match priority with
  | Some (VStr "Critical") => 100
  | Some (VStr "High") => 75
  | Some (VStr "Medium") => 50
  | _ => 25
  end.

Definition complexity (c : pyval) : Z :=
  match c with
  | VStr "Low" => 30
  | VStr "Medium" => 15
  | _ => 0
  end.

Definition cost (c : pyval) : Z :=
  match c with
  | VStr "Low" => 20
  | VStr "Medium" => 10
  | _ => 0
  end.

Inductive band : Type := Immediate | HighPriority | MediumPriority | LowPriority.

Definition band_of (score : Z) : band :=
  if 150 <=? score then Immediate
  else if 100 <=? score then HighPriority
  else if 50 <=? score then MediumPriority
  else LowPriority.

Definition band_label (b : band) : string :=
  match b with
  | Immediate => "Immediate"
  | HighPriority => "High Priority"
  | MediumPriority => "Medium Priority"
  | LowPriority => "Low Priority"
  end.

End RemediationSpec.

(* ================================================================== *)
(** ** Well-formed inputs and orders on sequences *)
(* ================================================================== *)

Module InputShape.
Import Py.

(** Every entry of every industry of the emerging-risk catalog. *)
Definition catalog_entries : list RiskPrediction.emerging_risk :=
  flat_map snd RiskPrediction.emerging_risks_db.

(** A current risk the function can read: a mapping whose [name] is a
    [str]. *)
Definition has_name (risk : pyval) : bool :=
  match risk with
  | VDict d =>
      match dict_get d "name" with
      | Some (VStr _) => true
      | _ => false
      end
  | _ => false
  end.

Definition supported_frameworks : list string := ["iso27001"; "soc2"; "gdpr"].

Definition supported (framework : string) : bool :=
  existsb (String.eqb framework) supported_frameworks.

(** An implemented control the function can read: a mapping whose [id]
    can be put in a set. *)
Definition has_id (ctrl : pyval) : bool :=
  match ctrl with
  | VDict d =>
      match dict_get d "id" with
      | Some (VList _) | Some (VDict _) | None => false
      | Some _ => true
      end
  | _ => false
  end.

Definition known_document_types : list string := ["policy"; "procedure"; "contract"].


(** A clock for the examples: its readings differ from turn to turn. *)
Definition example_clock (k : nat) : string :=
  ("2024-05-01T09:30:0" ++ str_of_nat k)%string.






End InputShape.

Module Sequences.
Import DocumentAnalyzer.

(** [sublist l1 l2]: [l1] is [l2] with some elements left out, the others
    in the same order. *)
Inductive sublist {A : Type} : list A -> list A -> Prop :=
| sublist_nil : sublist [] []
| sublist_skip (x : A) (l1 l2 : list A) : sublist l1 l2 -> sublist l1 (x :: l2)
| sublist_take (x : A) (l1 l2 : list A) : sublist l1 l2 -> sublist (x :: l1) (x :: l2).

(** Two matches, two requirements: the first lies before the second in the
    text. *)
Definition starts_before (a b : nat * string) : Prop := (fst a < fst b)%nat.

Definition earlier (a b : requirement) : Prop := (position a < position b)%nat.

End Sequences.

(* ================================================================== *)
(** ** Binary64 numbers as real numbers *)
(* ================================================================== *)

Module Binary64.
Local Open Scope R_scope.

Definition pow2 (e : Z) : R := powerRZ 2 e.

(** ** Position of a real number in a cell of the grid of step [2^e] *)

Definition inbetween (m e : Z) (l : location) (x : R) : Prop :=
  match l with
  | loc_Exact => x = IZR m * pow2 e
  | loc_Inexact Lt => IZR m * pow2 e < x < (IZR m + / 2) * pow2 e
  | loc_Inexact Eq => x = (IZR m + / 2) * pow2 e
  | loc_Inexact Gt => (IZR m + / 2) * pow2 e < x < (IZR m + 1) * pow2 e
  end.

(** ** The rounding exponent of binary64 *)

Definition fexp64 (k : Z) : Z := fexp prec emax k.

(** The rounding exponent [E] fits the magnitude of [x]. *)
Definition fits (E : Z) (x : R) : Prop :=
  (-1074 <= E)%Z
  /\ x < pow2 (E + 53)
  /\ ((-1074 < E)%Z -> pow2 (E + 52) <= x).

(** The end of [binary_round_aux]: a rounded mantissa [m] at exponent [E]
    as a float, after the carry into bit 53 and the overflow test. *)
Definition finish (m E : Z) : spec_float :=
  match m with
  | Z0 => S754_zero false
  | Zpos p =>
      if (m <? 2 ^ 53)%Z then
        if (E <=? 971)%Z then S754_finite false p E else S754_infinity false
      else
        if (E + 1 <=? 971)%Z then S754_finite false (2 ^ 52)%positive (E + 1)
        else S754_infinity false
  | Zneg _ => S754_nan
  end.

(** ** Positive finite floats and their values *)

Definition val (m : positive) (e : Z) : R := IZR (Zpos m) * pow2 e.

Definition canonical (m : positive) (e : Z) : Prop :=
  fexp64 (Zpos (digits2_pos m) + e) = e.

(** Floats that are zero or positive and finite. *)
Definition nonneg_sf (f : spec_float) : Prop :=
  valid_binary f = true
  /\ match f with
     | S754_zero _ | S754_finite false _ _ => True
     | _ => False
     end.

(** The same on primitive floats. *)
Definition nonneg_finite (x : float) : Prop :=
  match Prim2SF x with
  | S754_zero _ | S754_finite false _ _ => True
  | _ => False
  end.

Definition positive_finite (x : float) : Prop :=
  match Prim2SF x with
  | S754_finite false _ _ => True
  | _ => False
  end.

End Binary64.

(* ================================================================== *)
(** ** The gap report read against the catalog *)
(* ================================================================== *)

Module GapSpec.
Import Py GapAnalysis.

(** The gap the analysis records for one catalog requirement. *)
Definition gap_of (req_ctrl : control) : gap :=
  {| control_id := id req_ctrl;
     control_name := name req_ctrl;
     gap_category := category req_ctrl;
     gap_description := description req_ctrl;
     gap_priority := priority req_ctrl;
     status := "Missing" |}.

(** Some entry of the implemented controls carries the identifier
    [req_id]. *)
Definition declares (current_controls : list pyval) (req_id : string) : Prop :=
  exists ctrl, In ctrl current_controls /\ subscript ctrl "id" = Ok (VStr req_id).

(** The number of gaps of one category. *)
Definition category_count (gaps : list gap) (cat : string) : nat :=
  List.length (filter (fun g => String.eqb (gap_category g) cat) gaps).

Definition is_critical (g : gap) : bool := String.eqb (gap_priority g) "Critical".

Definition is_high (g : gap) : bool := String.eqb (gap_priority g) "High".

(** The counter value of a category, 0 when it has no entry. *)
Fixpoint counted (categories : list (string * nat)) (cat : string) : nat :=
  match categories with
  | [] => 0%nat
  | (c, n) :: tl => if String.eqb c cat then n else counted tl cat
  end.

(** A counter: every category once, with a positive count. *)
Definition well_counted (categories : list (string * nat)) : Prop :=
  NoDup (map fst categories) /\ Forall (fun x => (0 < snd x)%nat) categories.

(** The string literals of the five lines that write one catalog entry,
    a key and its value on each. *)
Definition entry_literals (c : control) : list (list string) :=
  [ ["id"; id c]; ["name"; name c]; ["category"; category c];
    ["description"; description c]; ["priority"; priority c] ].

(** The string literals of the lines of a [return] statement that
    writes a catalog: the lines of the brackets and braces have none. *)
Definition catalog_literals (catalog : list control) : list (list string) :=
  ([[]] ++ flat_map (fun c => [[]] ++ entry_literals c ++ [[]]) catalog ++ [[]])%list.

End GapSpec.

(* ================================================================== *)
(** ** The prediction read against the catalog *)
(* ================================================================== *)

Module PredictionSpec.
Import Py RiskPrediction.

(** Some current risk has, letter case apart, the name of the catalog
    entry [r]. *)
Definition named (current_risks : list pyval) (r : emerging_risk) : Prop :=
  exists c s,
    In c current_risks /\ subscript c "name" = Ok (VStr s)
    /\ lower s = lower (name r).

Definition known_industries : list string := ["technology"; "finance"; "healthcare"].

End PredictionSpec.
(* ================================================================== *)
(** ** Texts character by character *)
(* ================================================================== *)

Module TextSpec.
Import Py DocumentAnalyzer.

(** Every character of [s] satisfies [p]. *)
Fixpoint all_chars (p : ascii -> bool) (s : string) : bool :=
  match s with
  | EmptyString => true
  | String c tl => p c && all_chars p tl
  end.

(** The checklist element [element] occurs in the text, letter case
    apart. *)
Definition present (text element : string) : bool :=
  contains (lower element) (lower text).

(** The frameworks the analyzer can mention, in the order it lists
    them. *)
Definition known_frameworks : list string :=
  ["iso27001"; "soc2"; "gdpr"; "hipaa"; "pci_dss"].

(** A number of words or of sections that fits a machine word. *)
Definition fits_word (n : nat) : Prop := Z.of_nat n < 2 ^ 63.

(** A Python [str] is a sequence of code points.  The texts the embedding
    holds are those whose code points are all below 256: on them
    [str.lower], [str.isspace] and the matching of a letter under
    [re.IGNORECASE] are as [Py] has them.  Beyond, [re.IGNORECASE] also
    matches U+017F with the letter s and U+0130, U+0131 with the letter i,
    which [str.lower] does not turn into these letters. *)
Definition latin1 (code_points : list N) : Prop :=
  Forall (fun c => (c < 256)%N) code_points.

(** The text of the given code points, for a [latin1] sequence. *)
Definition str_of (code_points : list N) : string :=
  string_of_list_ascii (map ascii_of_N code_points).

(** The code points of a text. *)
Definition code_points_of (s : string) : list N :=
  map N_of_ascii (list_ascii_of_string s).

End TextSpec.
(* ================================================================== *)
(** ** From the gap analysis to the remediation ranking *)
(* ================================================================== *)

Module Pipeline.
Import Py GapAnalysis.

(** A gap of the report as the [dict] [analyze_gaps] appends to [gaps],
    its keys in the order of the literal. *)
Definition dict_of_gap (g : gap) : dict :=
  [("control_id", VStr (control_id g));
   ("control_name", VStr (control_name g));
   ("category", VStr (gap_category g));
   ("description", VStr (gap_description g));
   ("priority", VStr (gap_priority g));
   ("status", VStr (status g))].

End Pipeline.
(* ================================================================== *)
(** ** The control library read against a risk profile and a framework *)
(* ================================================================== *)

Module ControlSpec.
Import Py PyMore ControlLibrary.

(** The five recommendations the library can give, the best score
    first. *)
Definition ranking : list recommendation :=
  [ recommend [] "data_protection"
      {| id := "DP-002"; name := "Data Encryption in Transit";
         description := "Use TLS 1.3 for all data transmission";
         effectiveness := 94; complexity := "Low"; cost := "Low" |};
    recommend [] "data_protection"
      {| id := "DP-001"; name := "Data Encryption at Rest";
         description := "Encrypt sensitive data in storage";
         effectiveness := 92; complexity := "Low"; cost := "Low" |};
    recommend [] "access_control"
      {| id := "AC-001"; name := "Multi-Factor Authentication";
         description := "Implement MFA for all user accounts";
         effectiveness := 95; complexity := "Medium"; cost := "Low" |};
    recommend [] "access_control"
      {| id := "AC-002"; name := "Role-Based Access Control";
         description := "Implement RBAC for least privilege";
         effectiveness := 90; complexity := "Medium"; cost := "Medium" |};
    recommend [] "incident_response"
      {| id := "IR-001"; name := "Incident Response Plan";
         description := "Documented IR procedures";
         effectiveness := 88; complexity := "Medium"; cost := "Medium" |} ].

(** The recommendations the inner loop appends for one category. *)
Definition recs_of (risk_profile : dict) (category : string) : list recommendation :=
  map (recommend risk_profile category) (table_get control_library category []).

(** The risk levels give the category the level High or Critical. *)
Definition flagged (risk_levels : dict) (category : string) : bool :=
  match dict_get risk_levels category with
  | Some level => is_high_risk level
  | None => false
  end.

(** No score before a greater one. *)
Definition by_score (a b : recommendation) : Prop :=
  (recommendation_score b <=? recommendation_score a)%float = true.

Definition is_mapping (ctrl : pyval) : bool :=
  match ctrl with
  | VDict _ => true
  | _ => false
  end.

(** The entry is a mapping whose [category] is the given one. *)
Definition in_category (category : string) (ctrl : pyval) : bool :=
  match ctrl with
  | VDict d =>
      match dict_get d "category" with
      | Some v => eq_str v category
      | None => false
      end
  | _ => false
  end.

(** The suggestion for one requirement of the framework. *)
Definition suggestion_for (current_controls : list pyval) (item : string * string)
    : suggestion :=
  match filter (in_category (snd item)) current_controls with
  | [] => Gap (fst item) (snd item) (firstn 2 (table_get control_library (snd item) []))
  | cs => Covered (fst item) (snd item) (List.length cs)
  end.

(** The mapping read from the target to the source. *)
Definition mirror (m : control_mapping) : control_mapping :=
  {| source_requirement := target_requirement m;
     target_requirement := source_requirement m;
     mapping_category := mapping_category m;
     mapping_confidence := mapping_confidence m |}.

End ControlSpec.
(* ================================================================== *)
(** ** The risk history read month by month *)
(* ================================================================== *)

Module TrendSpec.
Import Py RiskTrends.

(** A historical risk the function can read: a mapping whose
    [identified_date], when present, is a [str]. *)
Definition has_date (risk : pyval) : bool :=
  match month_of risk with
  | Some _ => true
  | None => false
  end.

(** The number of risks of the history identified in the month [m]. *)
Definition risks_in_month (historical_risks : list pyval) (m : string) : nat :=
  List.length
    (filter (fun risk => match month_of risk with
                         | Some m' => String.eqb m' m
                         | None => false
                         end)
            historical_risks).

Definition trends : list string :=
  ["increasing"; "decreasing"; "stable"; "insufficient_data"].

End TrendSpec.

(* ================================================================== *)
(** ** Part III.  Rounding of binary64 arithmetic is monotone *)
(* ================================================================== *)

(** The primitive operations are specified by [SpecFloat]: an operation
    computes an integer mantissa, an exponent and the position of the exact
    result in its cell ([location]), and [binary_round_aux] shifts the
    mantissa to the exponent of the format and rounds to nearest, ties to
    even.  The lemmas below follow the exact real result through these
    steps and show that the smaller real number never rounds to the greater
    float. *)
Module Binary64Facts.
Import Binary64.
Local Open Scope R_scope.

Lemma pow2_pos (e : Z) : 0 < pow2 e.
Proof. apply powerRZ_lt. lra. Qed.

Lemma pow2_add (a b : Z) : pow2 (a + b) = pow2 a * pow2 b.
Proof. apply powerRZ_add. lra. Qed.

Lemma pow2_0 : pow2 0 = 1.
Proof. reflexivity. Qed.

Lemma pow2_succ (e : Z) : pow2 (e + 1) = 2 * pow2 e.
Proof. rewrite pow2_add. unfold pow2 at 2. simpl. lra. Qed.

Lemma pow2_IZR (k : Z) : (0 <= k)%Z -> pow2 k = IZR (2 ^ k).
Proof.
  intro H. unfold pow2. rewrite <- (Z2Nat.id k H) at 2.
  rewrite <- pow_IZR. rewrite <- (Z2Nat.id k H) at 1.
  symmetry. apply pow_powerRZ.
Qed.

Lemma pow2_le (a b : Z) : (a <= b)%Z -> pow2 a <= pow2 b.
Proof.
  intro H. replace b with (a + (b - a))%Z by lia.
  rewrite pow2_add. rewrite (pow2_IZR (b - a)) by lia.
  assert (1 <= IZR (2 ^ (b - a))).
  { apply IZR_le. assert (0 < 2 ^ (b - a))%Z by (apply Z.pow_pos_nonneg; lia). lia. }
  pose proof (pow2_pos a).
  rewrite <- (Rmult_1_r (pow2 a)) at 1. apply Rmult_le_compat_l; lra.
Qed.

Lemma pow2_lt (a b : Z) : (a < b)%Z -> pow2 a < pow2 b.
Proof.
  intro H. apply Rlt_le_trans with (pow2 (a + 1)).
  - rewrite pow2_succ. pose proof (pow2_pos a). lra.
  - apply pow2_le. lia.
Qed.

Lemma pow2_lt_inv (a b : Z) : pow2 a < pow2 b -> (a < b)%Z.
Proof.
  intro H. destruct (Z_lt_le_dec a b) as [Hl|Hl]; [exact Hl|].
  apply pow2_le in Hl. lra.
Qed.

(** Digits *)
Lemma digits2_pos_bounds (m : positive) :
  (2 ^ (Zpos (digits2_pos m) - 1) <= Zpos m < 2 ^ Zpos (digits2_pos m))%Z.
Proof.
  induction m as [m IH|m IH|]; simpl digits2_pos.
  - rewrite Pos2Z.inj_succ.
    replace (Z.succ (Zpos (digits2_pos m)) - 1)%Z with (Z.succ (Zpos (digits2_pos m) - 1)) by lia.
    rewrite !Z.pow_succ_r by lia. lia.
  - rewrite Pos2Z.inj_succ.
    replace (Z.succ (Zpos (digits2_pos m)) - 1)%Z with (Z.succ (Zpos (digits2_pos m) - 1)) by lia.
    rewrite !Z.pow_succ_r by lia. lia.
  - simpl. lia.
Qed.


Lemma digits2_pos_le (m : positive) (k : Z) :
  (Zpos m < 2 ^ k)%Z -> (0 <= k)%Z -> (Zpos (digits2_pos m) <= k)%Z.
Proof.
  intros H Hk. pose proof (digits2_pos_bounds m) as [Hl _].
  destruct (Z_le_gt_dec (Zpos (digits2_pos m)) k) as [|Hgt]; [assumption|].
  assert (2 ^ k <= 2 ^ (Zpos (digits2_pos m) - 1))%Z by (apply Z.pow_le_mono_r; lia).
  lia.
Qed.

Lemma digits2_pos_ge (m : positive) (k : Z) :
  (2 ^ (k - 1) <= Zpos m)%Z -> (1 <= k)%Z -> (k <= Zpos (digits2_pos m))%Z.
Proof.
  intros H Hk. pose proof (digits2_pos_bounds m) as [_ Hu].
  destruct (Z_le_gt_dec k (Zpos (digits2_pos m))) as [|Hgt]; [assumption|].
  assert (2 ^ (Zpos (digits2_pos m)) <= 2 ^ (k - 1))%Z by (apply Z.pow_le_mono_r; lia).
  lia.
Qed.

Lemma inbetween_bounds (m e : Z) (l : location) (x : R) :
  inbetween m e l x -> IZR m * pow2 e <= x < (IZR m + 1) * pow2 e.
Proof.
  pose proof (pow2_pos e) as Hp.
  destruct l as [|[| |]]; simpl; intro H; nra.
Qed.

Lemma loc_of_shr_record_of_loc (m : Z) (l : location) :
  loc_of_shr_record (shr_record_of_loc m l) = l
  /\ shr_m (shr_record_of_loc m l) = m.
Proof. destruct l as [|[| |]]; split; reflexivity. Qed.

Ltac shr_cases :=
  cbn [inbetween shr_m shr_1 loc_of_shr_record orb] in *;
  rewrite ?pow2_succ; split; [lia|nra].

Lemma shr_1_inbetween (mrs : shr_record) (e : Z) (x : R) :
  (0 <= shr_m mrs)%Z ->
  inbetween (shr_m mrs) e (loc_of_shr_record mrs) x ->
  (0 <= shr_m (shr_1 mrs))%Z
  /\ inbetween (shr_m (shr_1 mrs)) (e + 1) (loc_of_shr_record (shr_1 mrs)) x.
Proof.
  destruct mrs as [m r s]. cbn [shr_m]. intros Hm H.
  pose proof (pow2_pos e) as Hp.
  destruct m as [|[p|p|]|p]; try lia.
  - destruct r, s; shr_cases.
  - assert (Hz : IZR (Z.pos p~1) = 2 * IZR (Z.pos p) + 1)
      by (rewrite Pos2Z.inj_xI, plus_IZR, mult_IZR; reflexivity).
    destruct r, s; cbn [inbetween loc_of_shr_record] in H; rewrite Hz in H; shr_cases.
  - assert (Hz : IZR (Z.pos p~0) = 2 * IZR (Z.pos p))
      by (rewrite Pos2Z.inj_xO, mult_IZR; reflexivity).
    destruct r, s; cbn [inbetween loc_of_shr_record] in H; rewrite Hz in H; shr_cases.
  - destruct r, s; shr_cases.
Qed.

Lemma iter_shr_1_inbetween (p : positive) (mrs : shr_record) (e : Z) (x : R) :
  (0 <= shr_m mrs)%Z ->
  inbetween (shr_m mrs) e (loc_of_shr_record mrs) x ->
  (0 <= shr_m (SpecFloat.iter_pos shr_1 p mrs))%Z
  /\ inbetween (shr_m (SpecFloat.iter_pos shr_1 p mrs)) (e + Zpos p)
               (loc_of_shr_record (SpecFloat.iter_pos shr_1 p mrs)) x.
Proof.
  revert mrs e. induction p as [p IH|p IH|]; intros mrs e Hm H; cbn [SpecFloat.iter_pos].
  - destruct (shr_1_inbetween mrs e x Hm H) as [H0 H1].
    destruct (IH _ _ H0 H1) as [H2 H3].
    destruct (IH _ _ H2 H3) as [H4 H5].
    split; [exact H4|].
    replace (e + Z.pos p~1)%Z with (e + 1 + Z.pos p + Z.pos p)%Z by lia. exact H5.
  - destruct (IH _ _ Hm H) as [H2 H3].
    destruct (IH _ _ H2 H3) as [H4 H5].
    split; [exact H4|].
    replace (e + Z.pos p~0)%Z with (e + Z.pos p + Z.pos p)%Z by lia. exact H5.
  - apply shr_1_inbetween; assumption.
Qed.

Lemma fexp64_eq (k : Z) : fexp64 k = Z.max (k - 53) (-1074).
Proof. reflexivity. Qed.

Lemma shr_fexp_inbetween (m e : Z) (l : location) (x : R) :
  (0 <= m)%Z ->
  inbetween m e l x ->
  (e <= fexp64 (Zdigits2 m + e))%Z ->
  exists mrs,
    shr_fexp prec emax m e l = (mrs, fexp64 (Zdigits2 m + e))
    /\ (0 <= shr_m mrs)%Z
    /\ inbetween (shr_m mrs) (fexp64 (Zdigits2 m + e)) (loc_of_shr_record mrs) x.
Proof.
  intros Hm H He. unfold shr_fexp, shr. fold (fexp64 (Zdigits2 m + e)).
  destruct (loc_of_shr_record_of_loc m l) as [Hl Hr].
  destruct (fexp64 (Zdigits2 m + e) - e)%Z as [|p|p] eqn:En; try lia.
  - exists (shr_record_of_loc m l).
    replace (fexp64 (Zdigits2 m + e)) with e by lia.
    rewrite Hl, Hr. auto.
  - exists (SpecFloat.iter_pos shr_1 p (shr_record_of_loc m l)).
    replace (fexp64 (Zdigits2 m + e)) with (e + Z.pos p)%Z by lia.
    split; [reflexivity|].
    apply iter_shr_1_inbetween; rewrite ?Hl, ?Hr; assumption.
Qed.

Lemma fits_le (E1 E2 : Z) (x y : R) :
  fits E1 x -> fits E2 y -> x <= y -> (E1 <= E2)%Z.
Proof.
  intros [H1 [H2 H3]] [H4 [H5 H6]] Hxy.
  destruct (Z_le_gt_dec E1 E2) as [|Hgt]; [assumption|].
  assert (pow2 (E2 + 53) <= pow2 (E1 + 52)) by (apply pow2_le; lia).
  assert (pow2 (E1 + 52) <= x) by (apply H3; lia).
  lra.
Qed.

Lemma Zdigits2_nonneg (m : Z) : (0 <= Zdigits2 m)%Z.
Proof. destruct m; simpl; lia. Qed.

Lemma inbetween_fits (m e : Z) (l : location) (x : R) :
  (0 <= m)%Z ->
  inbetween m e l x ->
  (e <= fexp64 (Zdigits2 m + e))%Z ->
  fits (fexp64 (Zdigits2 m + e)) x.
Proof.
  intros Hm H He. apply inbetween_bounds in H. destruct H as [Hlo Hhi].
  pose proof (pow2_pos e) as Hp.
  rewrite fexp64_eq in *.
  split; [lia|]. split.
  - apply Rlt_le_trans with (pow2 (Zdigits2 m + e)); [|apply pow2_le; lia].
    eapply Rlt_le_trans; [exact Hhi|].
    rewrite pow2_add. apply Rmult_le_compat_r; [lra|].
    rewrite pow2_IZR by apply Zdigits2_nonneg.
    rewrite <- plus_IZR. apply IZR_le.
    destruct m as [|p|p]; [simpl; lia| |lia].
    pose proof (digits2_pos_bounds p). simpl Zdigits2. lia.
  - intro HE.
    destruct m as [|p|p]; [simpl Zdigits2 in *; lia| |lia].
    pose proof (digits2_pos_bounds p) as [Hb _]. simpl Zdigits2 in *.
    replace (Z.max (Z.pos (digits2_pos p) + e - 53) (-1074) + 52)%Z
      with ((Z.pos (digits2_pos p) - 1) + e)%Z by lia.
    rewrite pow2_add. eapply Rle_trans; [|exact Hlo].
    apply Rmult_le_compat_r; [lra|].
    rewrite pow2_IZR by lia. apply IZR_le. exact Hb.
Qed.

Lemma inbetween_fits_mantissa (m E : Z) (l : location) (x : R) :
  inbetween m E l x -> fits E x ->
  (m < 2 ^ 53)%Z /\ ((-1074 < E)%Z -> (2 ^ 52 <= m)%Z).
Proof.
  intros H [_ [Hu Hl]]. apply inbetween_bounds in H. destruct H as [Hlo Hhi].
  pose proof (pow2_pos E) as Hp.
  split.
  - apply lt_IZR. rewrite <- pow2_IZR by lia.
    apply Rmult_lt_reg_r with (pow2 E); [exact Hp|].
    rewrite <- pow2_add. replace (53 + E)%Z with (E + 53)%Z by lia. lra.
  - intro HE. specialize (Hl HE).
    assert (IZR (2 ^ 52) < IZR (m + 1)); [|apply lt_IZR in H; lia].
    rewrite <- pow2_IZR by lia. rewrite plus_IZR.
    apply Rmult_lt_reg_r with (pow2 E); [exact Hp|].
    rewrite <- pow2_add. replace (52 + E)%Z with (E + 52)%Z by lia. lra.
Qed.

(** ** Rounding to nearest, ties to even *)

Lemma round_nearest_even_bounds (m : Z) (l : location) :
  (m <= round_nearest_even m l <= m + 1)%Z.
Proof.
  destruct l as [|[| |]]; simpl; try lia.
  destruct (Z.even m); lia.
Qed.

Lemma round_nearest_even_mono (m1 m2 E : Z) (l1 l2 : location) (x y : R) :
  inbetween m1 E l1 x -> inbetween m2 E l2 y -> x <= y ->
  (round_nearest_even m1 l1 <= round_nearest_even m2 l2)%Z.
Proof.
  intros H1 H2 Hxy.
  pose proof (round_nearest_even_bounds m1 l1) as B1.
  pose proof (round_nearest_even_bounds m2 l2) as B2.
  pose proof (pow2_pos E) as Hp.
  destruct (Z.compare_spec m1 m2) as [Heq|Hlt|Hgt].
  - subst m2.
    destruct l1 as [|[| |]], l2 as [|[| |]]; cbn [inbetween round_nearest_even] in *;
      try lia; try (destruct (Z.even m1); lia); exfalso; nra.
  - lia.
  - exfalso. apply inbetween_bounds in H1, H2.
    assert (IZR m2 + 1 <= IZR m1) by (rewrite <- plus_IZR; apply IZR_le; lia).
    nra.
Qed.

Lemma shr_fexp_finish (m E : Z) :
  (0 <= m <= 2 ^ 53)%Z -> (-1074 <= E)%Z ->
  (let '(mrs, e) := shr_fexp prec emax m E loc_Exact in
   match shr_m mrs with
   | Z0 => S754_zero false
   | Zpos p => if (e <=? emax - prec)%Z then S754_finite false p e
               else S754_infinity false
   | Zneg _ => S754_nan
   end) = finish m E.
Proof.
  intros Hm HE. unfold shr_fexp, shr. fold (fexp64 (Zdigits2 m + E)).
  destruct m as [|p|p]; [| |lia].
  - cbn [Zdigits2]. rewrite fexp64_eq.
    destruct (Z.max (0 + E - 53) (-1074) - E)%Z eqn:En; try lia; reflexivity.
  - destruct (Z.ltb_spec (Z.pos p) (2 ^ 53)) as [Hlt|Hge].
    + cbn [Zdigits2]. rewrite fexp64_eq.
      pose proof (digits2_pos_le p 53 Hlt ltac:(lia)) as Hd.
      unfold finish. destruct (Z.ltb_spec (Z.pos p) (2 ^ 53)); [|lia].
      destruct (Z.max (Z.pos (digits2_pos p) + E - 53) (-1074) - E)%Z eqn:En;
        try lia; reflexivity.
    + assert (Hp : p = (2 ^ 53)%positive) by lia. subst p.
      unfold finish. cbn [Zdigits2]. rewrite fexp64_eq.
      change (Z.pos (digits2_pos (2 ^ 53))) with 54%Z.
      destruct (Z.max (54 + E - 53) (-1074) - E)%Z as [|q|q] eqn:En; try lia.
      assert (Hq : q = 1%positive) by lia. subst q.
      replace (E + 1)%Z with (E + 1)%Z by reflexivity.
      reflexivity.
Qed.

Lemma binary_round_aux_finish (m e : Z) (l : location) (x : R) :
  (0 <= m)%Z ->
  inbetween m e l x ->
  (e <= fexp64 (Zdigits2 m + e))%Z ->
  exists m' l',
    inbetween m' (fexp64 (Zdigits2 m + e)) l' x
    /\ (0 <= m' < 2 ^ 53)%Z
    /\ ((-1074 < fexp64 (Zdigits2 m + e))%Z -> (2 ^ 52 <= m')%Z)
    /\ binary_round_aux prec emax false m e l
       = finish (round_nearest_even m' l') (fexp64 (Zdigits2 m + e)).
Proof.
  intros Hm H He.
  destruct (shr_fexp_inbetween m e l x Hm H He) as [mrs [Hs [Hm' Hin]]].
  pose proof (inbetween_fits m e l x Hm H He) as Hf.
  destruct (inbetween_fits_mantissa _ _ _ _ Hin Hf) as [Hlt Hge].
  exists (shr_m mrs), (loc_of_shr_record mrs).
  split; [exact Hin|]. split; [lia|]. split; [exact Hge|].
  unfold binary_round_aux. rewrite Hs.
  apply shr_fexp_finish.
  - pose proof (round_nearest_even_bounds (shr_m mrs) (loc_of_shr_record mrs)). lia.
  - rewrite fexp64_eq. lia.
Qed.

(** ** Comparison of the results *)

Lemma SFleb_finite (p q : positive) (e1 e2 : Z) :
  (e1 < e2)%Z \/ (e1 = e2 /\ (p <= q)%positive) ->
  SFleb (S754_finite false p e1) (S754_finite false q e2) = true.
Proof.
  unfold SFleb, SFcompare. intros [H|[-> H]].
  - apply Z.compare_lt_iff in H. rewrite H. reflexivity.
  - rewrite Z.compare_refl. fold (Pos.compare p q).
    destruct (Pos.compare_spec p q); try reflexivity. lia.
Qed.

Lemma finish_mono (a b E1 E2 : Z) :
  (0 <= a <= 2 ^ 53)%Z -> (0 <= b <= 2 ^ 53)%Z ->
  (E1 = E2 /\ a <= b)%Z \/ (E1 < E2 /\ 2 ^ 52 <= b)%Z ->
  SFleb (finish a E1) (finish b E2) = true.
Proof.
  intros Ha Hb H. unfold finish.
  destruct a as [|p|p], b as [|q|q]; try lia;
    repeat match goal with
           | |- context [(?u <? ?v)%Z] => destruct (Z.ltb_spec u v)
           | |- context [(?u <=? ?v)%Z] => destruct (Z.leb_spec u v)
           end;
    try reflexivity; try lia;
    apply SFleb_finite; lia.
Qed.

(** [binary_round_aux] is monotone: rounding the smaller number gives the
    smaller float. *)
Theorem binary_round_aux_mono (m1 e1 : Z) (l1 : location) (x : R)
    (m2 e2 : Z) (l2 : location) (y : R) :
  (0 <= m1)%Z -> inbetween m1 e1 l1 x -> (e1 <= fexp64 (Zdigits2 m1 + e1))%Z ->
  (0 <= m2)%Z -> inbetween m2 e2 l2 y -> (e2 <= fexp64 (Zdigits2 m2 + e2))%Z ->
  x <= y ->
  SFleb (binary_round_aux prec emax false m1 e1 l1)
        (binary_round_aux prec emax false m2 e2 l2) = true.
Proof.
  intros Hm1 H1 He1 Hm2 H2 He2 Hxy.
  pose proof (inbetween_fits _ _ _ _ Hm1 H1 He1) as Hf1.
  pose proof (inbetween_fits _ _ _ _ Hm2 H2 He2) as Hf2.
  pose proof (fits_le _ _ _ _ Hf1 Hf2 Hxy) as HE.
  destruct (binary_round_aux_finish _ _ _ _ Hm1 H1 He1) as [a [la [Ia [Ba [_ ->]]]]].
  destruct (binary_round_aux_finish _ _ _ _ Hm2 H2 He2) as [b [lb [Ib [Bb [Gb ->]]]]].
  pose proof (round_nearest_even_bounds a la).
  pose proof (round_nearest_even_bounds b lb).
  apply finish_mono; try lia.
  destruct (Z.eq_dec (fexp64 (Zdigits2 m1 + e1)) (fexp64 (Zdigits2 m2 + e2))) as [Heq|Hne].
  - left. split; [exact Heq|].
    rewrite Heq in Ia. eapply round_nearest_even_mono; eassumption.
  - right. split; [lia|].
    assert (-1074 <= fexp64 (Zdigits2 m1 + e1))%Z by (rewrite fexp64_eq; lia).
    specialize (Gb ltac:(lia)). lia.
Qed.

Lemma val_pos (m : positive) (e : Z) : 0 < val m e.
Proof.
  unfold val. apply Rmult_lt_0_compat; [|apply pow2_pos].
  apply IZR_lt. lia.
Qed.

Lemma valid_canonical (s : bool) (m : positive) (e : Z) :
  valid_binary (S754_finite s m e) = true -> canonical m e /\ (e <= 971)%Z.
Proof.
  unfold valid_binary, SpecFloat.valid_binary, bounded, canonical_mantissa, canonical.
  intro H. apply andb_true_iff in H. destruct H as [H1 H2].
  apply Z.eqb_eq in H1. apply Z.leb_le in H2.
  split; [exact H1|exact H2].
Qed.

Lemma canonical_bounds (m : positive) (e : Z) :
  canonical m e ->
  (-1074 <= e)%Z /\ (Zpos m < 2 ^ 53)%Z /\ ((-1074 < e)%Z -> (2 ^ 52 <= Zpos m)%Z).
Proof.
  unfold canonical. rewrite fexp64_eq. intro H.
  pose proof (digits2_pos_bounds m) as [Hl Hu].
  split; [lia|]. split.
  - eapply Z.lt_le_trans; [exact Hu|]. apply Z.pow_le_mono_r; lia.
  - intro He. replace (Z.pos (digits2_pos m)) with 53%Z in Hl by lia. exact Hl.
Qed.

Lemma SFleb_val (m1 m2 : positive) (e1 e2 : Z) :
  canonical m1 e1 -> canonical m2 e2 ->
  SFleb (S754_finite false m1 e1) (S754_finite false m2 e2) = true ->
  val m1 e1 <= val m2 e2.
Proof.
  intros C1 C2. unfold SFleb, SFcompare.
  destruct (canonical_bounds _ _ C1) as [A1 [A2 A3]].
  destruct (canonical_bounds _ _ C2) as [B1 [B2 B3]].
  unfold val. destruct (Z.compare_spec e1 e2) as [Heq|Hlt|Hgt].
  - subst e2. fold (Pos.compare m1 m2).
    destruct (Pos.compare_spec m1 m2) as [H|H|H]; intro Hc; try discriminate.
    + subst. lra.
    + apply Rmult_le_compat_r; [pose proof (pow2_pos e1); lra|].
      apply IZR_le. lia.
  - intros _. specialize (B3 ltac:(lia)).
    apply Rle_trans with (pow2 (53 + e1)).
    + rewrite pow2_add. apply Rmult_le_compat_r; [pose proof (pow2_pos e1); lra|].
      rewrite pow2_IZR by lia. apply IZR_le. lia.
    + apply Rle_trans with (pow2 (52 + e2)); [apply pow2_le; lia|].
      rewrite pow2_add. apply Rmult_le_compat_r; [pose proof (pow2_pos e2); lra|].
      rewrite pow2_IZR by lia. apply IZR_le. lia.
  - intro Hc. discriminate.
Qed.

(** A canonical float rounds to itself. *)
Lemma binary_round_aux_canonical (m : positive) (e : Z) :
  canonical m e -> (e <= 971)%Z ->
  binary_round_aux prec emax false (Zpos m) e loc_Exact = S754_finite false m e.
Proof.
  intros C He. destruct (canonical_bounds _ _ C) as [A1 [A2 A3]].
  unfold binary_round_aux.
  assert (Hs : shr_fexp prec emax (Zpos m) e loc_Exact
               = (Build_shr_record (Zpos m) false false, e)).
  { unfold shr_fexp, shr. fold (fexp64 (Zdigits2 (Zpos m) + e)).
    cbn [Zdigits2]. rewrite C. rewrite Z.sub_diag. reflexivity. }
  rewrite Hs. cbn [shr_m loc_of_shr_record round_nearest_even].
  pose proof (shr_fexp_finish (Zpos m) e ltac:(lia) A1) as Hf.
  rewrite Hs in Hf. cbn [shr_m] in Hf.
  rewrite Hs. cbn [shr_m].
  destruct (Z.leb_spec e (emax - prec)) as [_|Hn]; [reflexivity|].
  change (emax - prec)%Z with 971%Z in Hn. lia.
Qed.

Lemma SFleb_zero_finish (s : bool) (m E : Z) :
  (0 <= m)%Z -> SFleb (S754_zero s) (finish m E) = true.
Proof.
  intro Hm. unfold finish. destruct m as [|p|p]; [reflexivity| |lia].
  destruct (Z.pos p <? 2 ^ 53)%Z.
  - destruct (E <=? 971)%Z; reflexivity.
  - destruct (E + 1 <=? 971)%Z; reflexivity.
Qed.

Lemma finish_valid (m E : Z) :
  (0 <= m <= 2 ^ 53)%Z -> (-1074 <= E)%Z -> ((-1074 < E)%Z -> (2 ^ 52 <= m)%Z) ->
  valid_binary (finish m E) = true.
Proof.
  intros Hm HE Hn. unfold finish.
  destruct m as [|p|p]; [reflexivity| |lia].
  destruct (Z.ltb_spec (Z.pos p) (2 ^ 53)) as [Hlt|Hge].
  - destruct (Z.leb_spec E 971) as [Hle|Hgt]; [|reflexivity].
    unfold valid_binary, SpecFloat.valid_binary, bounded, canonical_mantissa.
    apply andb_true_iff. split; [|apply Z.leb_le; exact Hle].
    apply Z.eqb_eq. fold (fexp64 (Z.pos (digits2_pos p) + E)). rewrite fexp64_eq.
    pose proof (digits2_pos_le p 53 Hlt ltac:(lia)) as Hd.
    destruct (Z.eq_dec E (-1074)) as [->|Hne]; [lia|].
    pose proof (digits2_pos_ge p 53 (Hn ltac:(lia)) ltac:(lia)). lia.
  - destruct (Z.leb_spec (E + 1) 971) as [Hle|Hgt]; [|reflexivity].
    unfold valid_binary, SpecFloat.valid_binary, bounded, canonical_mantissa.
    apply andb_true_iff. split; [|apply Z.leb_le; exact Hle].
    apply Z.eqb_eq. fold (fexp64 (Z.pos (digits2_pos (2 ^ 52)) + (E + 1))).
    rewrite fexp64_eq. change (Z.pos (digits2_pos (2 ^ 52))) with 53%Z. lia.
Qed.

Lemma binary_round_aux_valid (m e : Z) (l : location) (x : R) :
  (0 <= m)%Z -> inbetween m e l x -> (e <= fexp64 (Zdigits2 m + e))%Z ->
  valid_binary (binary_round_aux prec emax false m e l) = true
  /\ forall s, SFleb (S754_zero s) (binary_round_aux prec emax false m e l) = true.
Proof.
  intros Hm H He.
  destruct (binary_round_aux_finish _ _ _ _ Hm H He) as [a [la [Ia [Ba [Ga ->]]]]].
  pose proof (round_nearest_even_bounds a la).
  split.
  - apply finish_valid; [lia|rewrite fexp64_eq; lia|].
    intro HE. specialize (Ga HE). lia.
  - intro s. apply SFleb_zero_finish. lia.
Qed.

(** ** Multiplication *)

Lemma digits2_pos_mul (m1 m2 : positive) :
  (Zpos (digits2_pos m1) + Zpos (digits2_pos m2) - 1 <= Zpos (digits2_pos (m1 * m2)))%Z.
Proof.
  pose proof (digits2_pos_bounds m1) as [H1 _].
  pose proof (digits2_pos_bounds m2) as [H2 _].
  apply digits2_pos_ge; [|lia].
  replace (Z.pos (digits2_pos m1) + Z.pos (digits2_pos m2) - 1 - 1)%Z
    with ((Z.pos (digits2_pos m1) - 1) + (Z.pos (digits2_pos m2) - 1))%Z by lia.
  rewrite Z.pow_add_r by lia.
  rewrite Pos2Z.inj_mul.
  apply Z.mul_le_mono_nonneg; try assumption; apply Z.pow_nonneg; lia.
Qed.

Lemma mul_exponent_ok (m1 m2 : positive) (e1 e2 : Z) :
  canonical m1 e1 -> canonical m2 e2 ->
  (e1 + e2 <= fexp64 (Zdigits2 (Zpos (m1 * m2)) + (e1 + e2)))%Z.
Proof.
  unfold canonical. rewrite !fexp64_eq. cbn [Zdigits2].
  pose proof (digits2_pos_mul m1 m2).
  assert (1 <= Z.pos (digits2_pos m1))%Z by lia.
  assert (1 <= Z.pos (digits2_pos m2))%Z by lia.
  lia.
Qed.

Lemma SFmul_finite (m1 m2 : positive) (e1 e2 : Z) :
  SFmul prec emax (S754_finite false m1 e1) (S754_finite false m2 e2)
  = binary_round_aux prec emax false (Zpos (m1 * m2)) (e1 + e2) loc_Exact.
Proof. reflexivity. Qed.

Lemma mul_inbetween (m1 m2 : positive) (e1 e2 : Z) :
  inbetween (Zpos (m1 * m2)) (e1 + e2) loc_Exact (val m1 e1 * val m2 e2).
Proof.
  unfold inbetween, val. rewrite Pos2Z.inj_mul, mult_IZR, pow2_add. ring.
Qed.

Theorem SFmul_mono (a1 b1 a2 b2 : positive) (ea1 eb1 ea2 eb2 : Z) :
  canonical a1 ea1 -> canonical b1 eb1 -> canonical a2 ea2 -> canonical b2 eb2 ->
  val a1 ea1 <= val a2 ea2 -> val b1 eb1 <= val b2 eb2 ->
  SFleb (SFmul prec emax (S754_finite false a1 ea1) (S754_finite false b1 eb1))
        (SFmul prec emax (S754_finite false a2 ea2) (S754_finite false b2 eb2)) = true.
Proof.
  intros Ca1 Cb1 Ca2 Cb2 Ha Hb. rewrite !SFmul_finite.
  eapply binary_round_aux_mono.
  - lia.
  - apply mul_inbetween.
  - apply mul_exponent_ok; assumption.
  - lia.
  - apply mul_inbetween.
  - apply mul_exponent_ok; assumption.
  - pose proof (val_pos a1 ea1). pose proof (val_pos b1 eb1).
    apply Rmult_le_compat; lra.
Qed.

Lemma SFmul_finite_zero_le (s : bool) (m1 m2 : positive) (e1 e2 : Z) :
  canonical m1 e1 -> canonical m2 e2 ->
  SFleb (S754_zero s)
        (SFmul prec emax (S754_finite false m1 e1) (S754_finite false m2 e2)) = true.
Proof.
  intros C1 C2. rewrite SFmul_finite.
  eapply binary_round_aux_valid.
  - lia.
  - apply mul_inbetween.
  - apply mul_exponent_ok; assumption.
Qed.

Ltac sf_cases :=
  repeat match goal with
         | H : nonneg_sf ?f |- _ =>
             let V := fresh "V" in
             destruct H as [V H];
             destruct f as [?| | |[|] ? ?]; try contradiction;
             try (apply valid_canonical in V; destruct V as [V ?]);
             clear H
         end.

Theorem SFmul_le (x1 y1 x2 y2 : spec_float) :
  nonneg_sf x1 -> nonneg_sf y1 -> nonneg_sf x2 -> nonneg_sf y2 ->
  SFleb x1 x2 = true -> SFleb y1 y2 = true ->
  SFleb (SFmul prec emax x1 y1) (SFmul prec emax x2 y2) = true.
Proof.
  intros Hx1 Hy1 Hx2 Hy2 Hx Hy. sf_cases;
    try discriminate; try reflexivity;
    try (apply SFmul_finite_zero_le; assumption).
  apply SFmul_mono; try assumption; apply SFleb_val; assumption.
Qed.

(** ** Division *)

Lemma val_digits (m : positive) (e : Z) :
  pow2 (Zpos (digits2_pos m) - 1 + e) <= val m e < pow2 (Zpos (digits2_pos m) + e).
Proof.
  pose proof (digits2_pos_bounds m) as [Hl Hu].
  pose proof (pow2_pos e) as Hp.
  unfold val. rewrite !pow2_add.
  rewrite (pow2_IZR (Z.pos (digits2_pos m) - 1)) by lia.
  rewrite (pow2_IZR (Z.pos (digits2_pos m))) by lia. split.
  - apply Rmult_le_compat_r; [lra|]. apply IZR_le. exact Hl.
  - apply Rmult_lt_compat_r; [lra|]. apply IZR_lt. exact Hu.
Qed.

Lemma Zdigits2_succ_le (q : Z) : (0 <= q)%Z -> (q + 1 <= 2 ^ Zdigits2 q)%Z.
Proof.
  intro Hq. destruct q as [|p|p]; [simpl; lia| |lia].
  pose proof (digits2_pos_bounds p). simpl Zdigits2. lia.
Qed.

Lemma new_location_inbetween (q r m2 e : Z) (x : R) :
  (0 <= r < m2)%Z ->
  x = (IZR q + IZR r / IZR m2) * pow2 e ->
  inbetween q e (new_location m2 r) x.
Proof.
  intros Hr Hx.
  pose proof (pow2_pos e) as Hp.
  assert (HM : 0 < IZR m2) by (apply IZR_lt; lia).
  remember (IZR r / IZR m2) as rho eqn:Erho.
  assert (Hrho : rho * IZR m2 = IZR r) by (rewrite Erho; field; lra).
  assert (H2r : IZR (2 * r) = 2 * IZR r) by (rewrite mult_IZR; reflexivity).
  assert (Hlt : (2 * r < m2)%Z -> rho < / 2).
  { intro H. apply IZR_lt in H. rewrite H2r in H.
    apply Rmult_lt_reg_r with (IZR m2); [exact HM|]. lra. }
  assert (Hgt : (m2 < 2 * r)%Z -> / 2 < rho).
  { intro H. apply IZR_lt in H. rewrite H2r in H.
    apply Rmult_lt_reg_r with (IZR m2); [exact HM|]. lra. }
  assert (Heq : (2 * r = m2)%Z -> rho = / 2).
  { intro H. rewrite <- H, H2r in Hrho, HM.
    apply Rmult_eq_reg_r with (2 * IZR r); lra. }
  assert (H0 : r = 0%Z -> rho = 0).
  { intro H. rewrite H in Hrho. simpl in Hrho. nra. }
  assert (Hpos : r <> 0%Z -> 0 < rho < 1).
  { intro H. split.
    - apply Rmult_lt_reg_r with (IZR m2); [exact HM|].
      rewrite Hrho, Rmult_0_l. apply IZR_lt. lia.
    - apply Rmult_lt_reg_r with (IZR m2); [exact HM|].
      rewrite Hrho, Rmult_1_l. apply IZR_lt. lia. }
  clear Erho Hrho. subst x.
  unfold new_location.
  destruct (Z.even m2) eqn:Ev.
  - unfold new_location_even.
    destruct (Z.eqb_spec r 0) as [Hr0|Hr0].
    + cbn [inbetween]. rewrite (H0 Hr0). ring.
    + specialize (Hpos Hr0).
      destruct (Z.compare_spec (2 * r) m2) as [Hc|Hc|Hc]; cbn [inbetween].
      * rewrite (Heq Hc). ring.
      * specialize (Hlt Hc). nra.
      * specialize (Hgt Hc). nra.
  - unfold new_location_odd.
    assert (Hodd : (2 * r <> m2)%Z).
    { intro E. rewrite <- E in Ev. rewrite Z.even_mul in Ev. discriminate. }
    destruct (Z.eqb_spec r 0) as [Hr0|Hr0].
    + cbn [inbetween]. rewrite (H0 Hr0). ring.
    + specialize (Hpos Hr0).
      destruct (Z.compare_spec (2 * r + 1) m2) as [Hc|Hc|Hc]; cbn [inbetween].
      * specialize (Hlt ltac:(lia)). nra.
      * specialize (Hlt ltac:(lia)). nra.
      * specialize (Hgt ltac:(lia)). nra.
Qed.

Lemma SFdiv_core_inbetween (m1 m2 : positive) (e1 e2 : Z) :
  exists q e l,
    SFdiv_core_binary prec emax (Zpos m1) e1 (Zpos m2) e2 = (q, e, l)
    /\ (0 <= q)%Z
    /\ inbetween q e l (val m1 e1 / val m2 e2)
    /\ (e <= fexp64 (Zdigits2 q + e))%Z.
Proof.
  unfold SFdiv_core_binary.
  cbn [Zdigits2].
  fold (fexp64 (Z.pos (digits2_pos m1) + e1 - (Z.pos (digits2_pos m2) + e2))).
  set (k0 := (Z.pos (digits2_pos m1) + e1 - (Z.pos (digits2_pos m2) + e2))%Z).
  set (e := Z.min (fexp64 k0) (e1 - e2)).
  set (s := (e1 - e2 - e)%Z).
  assert (Hs : (0 <= s)%Z) by (unfold s, e; lia).
  set (m' := match s with
             | 0%Z => Z.pos m1
             | Z.pos _ => Z.shiftl (Z.pos m1) s
             | Z.neg _ => 0%Z
             end).
  assert (Hm' : m' = (Z.pos m1 * 2 ^ s)%Z).
  { unfold m'. destruct s as [|p|p] eqn:Es; [simpl; lia| |lia].
    apply Z.shiftl_mul_pow2. lia. }
  pose proof (Z_div_mod m' (Z.pos m2) ltac:(lia)) as Hdm.
  destruct (Z.div_eucl m' (Z.pos m2)) as [q r].
  destruct Hdm as [Hq Hr].
  assert (Hm'pos : (0 < m')%Z).
  { rewrite Hm'. apply Z.mul_pos_pos; [lia|]. apply Z.pow_pos_nonneg; lia. }
  assert (Hq0 : (0 <= q)%Z) by nia.
  pose proof (pow2_pos e) as Hpe. pose proof (pow2_pos e2) as Hpe2.
  pose proof (pow2_pos s) as Hps.
  assert (HM2 : 0 < IZR (Z.pos m2)) by (apply IZR_lt; lia).
  assert (Hx : val m1 e1 / val m2 e2
               = (IZR q + IZR r / IZR (Z.pos m2)) * pow2 e).
  { unfold val. replace e1 with (s + e + e2)%Z by (unfold s; lia).
    rewrite !pow2_add.
    assert (Hi : IZR m' = IZR (Z.pos m2) * IZR q + IZR r)
      by (rewrite Hq, plus_IZR, mult_IZR; reflexivity).
    rewrite Hm', mult_IZR, <- pow2_IZR in Hi by exact Hs.
    replace (IZR (Z.pos m1) * (pow2 s * pow2 e * pow2 e2) / (IZR (Z.pos m2) * pow2 e2))
      with ((IZR (Z.pos m1) * pow2 s) * pow2 e / IZR (Z.pos m2)) by (field; lra).
    rewrite Hi. field. lra. }
  exists q, e, (new_location (Z.pos m2) r).
  split; [reflexivity|]. split; [exact Hq0|].
  assert (Hin : inbetween q e (new_location (Z.pos m2) r) (val m1 e1 / val m2 e2))
    by (apply new_location_inbetween; assumption).
  split; [exact Hin|].
  (* the magnitude of the quotient *)
  apply inbetween_bounds in Hin. destruct Hin as [_ Hhi].
  pose proof (val_digits m1 e1) as [Hl1 _].
  pose proof (val_digits m2 e2) as [_ Hu2].
  pose proof (val_pos m2 e2) as Hv2.
  assert (Hlow : pow2 (k0 - 1) < val m1 e1 / val m2 e2).
  { apply Rmult_lt_reg_r with (val m2 e2); [exact Hv2|].
    replace (val m1 e1 / val m2 e2 * val m2 e2) with (val m1 e1) by (field; lra).
    eapply Rlt_le_trans; [|exact Hl1].
    replace (Z.pos (digits2_pos m1) - 1 + e1)%Z
      with ((k0 - 1) + (Z.pos (digits2_pos m2) + e2))%Z by (unfold k0; lia).
    rewrite pow2_add. apply Rmult_lt_compat_l; [apply pow2_pos|exact Hu2]. }
  assert (Hup : val m1 e1 / val m2 e2 < pow2 (Zdigits2 q + e)).
  { eapply Rlt_le_trans; [exact Hhi|].
    rewrite pow2_add. apply Rmult_le_compat_r; [lra|].
    rewrite pow2_IZR by apply Zdigits2_nonneg.
    rewrite <- plus_IZR. apply IZR_le. apply Zdigits2_succ_le. exact Hq0. }
  assert (Hk : (k0 - 1 < Zdigits2 q + e)%Z) by (apply pow2_lt_inv; lra).
  assert (He : (e <= fexp64 k0)%Z) by (unfold e; lia).
  rewrite fexp64_eq in *. lia.
Qed.

Lemma SFdiv_finite (m1 m2 : positive) (e1 e2 : Z) :
  SFdiv prec emax (S754_finite false m1 e1) (S754_finite false m2 e2)
  = let '(q, e, l) := SFdiv_core_binary prec emax (Zpos m1) e1 (Zpos m2) e2 in
    binary_round_aux prec emax false q e l.
Proof. reflexivity. Qed.

Theorem SFdiv_mono (m1 m1' m2 : positive) (e1 e1' e2 : Z) :
  val m1 e1 <= val m1' e1' ->
  SFleb (SFdiv prec emax (S754_finite false m1 e1) (S754_finite false m2 e2))
        (SFdiv prec emax (S754_finite false m1' e1') (S754_finite false m2 e2)) = true.
Proof.
  intro H. rewrite !SFdiv_finite.
  destruct (SFdiv_core_inbetween m1 m2 e1 e2) as [q [e [l [-> [Hq [Hin He]]]]]].
  destruct (SFdiv_core_inbetween m1' m2 e1' e2) as [q' [e' [l' [-> [Hq' [Hin' He']]]]]].
  eapply binary_round_aux_mono; try eassumption.
  pose proof (val_pos m2 e2).
  apply Rmult_le_compat_r; [|exact H].
  apply Rlt_le, Rinv_0_lt_compat. assumption.
Qed.

Lemma SFdiv_valid (m1 m2 : positive) (e1 e2 : Z) :
  valid_binary (SFdiv prec emax (S754_finite false m1 e1) (S754_finite false m2 e2)) = true
  /\ forall s, SFleb (S754_zero s)
        (SFdiv prec emax (S754_finite false m1 e1) (S754_finite false m2 e2)) = true.
Proof.
  rewrite SFdiv_finite.
  destruct (SFdiv_core_inbetween m1 m2 e1 e2) as [q [e [l [-> [Hq [Hin He]]]]]].
  eapply binary_round_aux_valid; eassumption.
Qed.

Theorem SFdiv_le (x1 x2 : spec_float) (m : positive) (e : Z) :
  nonneg_sf x1 -> nonneg_sf x2 -> SFleb x1 x2 = true ->
  SFleb (SFdiv prec emax x1 (S754_finite false m e))
        (SFdiv prec emax x2 (S754_finite false m e)) = true.
Proof.
  intros H1 H2 H. sf_cases; try discriminate; try reflexivity.
  - apply SFdiv_valid.
  - apply SFdiv_mono. apply SFleb_val; assumption.
Qed.

(** ** Subtraction *)

Lemma iter_xO_spec (d m : positive) :
  Zpos (Pos.iter xO m d) = (Zpos m * 2 ^ Zpos d)%Z
  /\ Zpos (digits2_pos (Pos.iter xO m d)) = (Zpos (digits2_pos m) + Zpos d)%Z.
Proof.
  induction d as [|d [IH1 IH2]] using Pos.peano_ind.
  - simpl. split; lia.
  - rewrite Pos.iter_succ. cbn [digits2_pos].
    rewrite Pos2Z.inj_xO, IH1. rewrite !Pos2Z.inj_succ, IH2.
    rewrite Z.pow_succ_r by lia. split; lia.
Qed.

Lemma shl_align_spec (m : positive) (e e' : Z) :
  exists m',
    shl_align m e e' = (m', Z.min e e')
    /\ Zpos m' = (Zpos m * 2 ^ (e - Z.min e e'))%Z
    /\ Zpos (digits2_pos m') = (Zpos (digits2_pos m) + (e - Z.min e e'))%Z.
Proof.
  unfold shl_align. destruct (e' - e)%Z as [|d|d] eqn:E.
  - exists m. replace (Z.min e e') with e by lia.
    rewrite Z.sub_diag. simpl. split; [reflexivity|]. split; lia.
  - exists m. replace (Z.min e e') with e by lia.
    rewrite Z.sub_diag. simpl. split; [reflexivity|]. split; lia.
  - exists (Pos.iter xO m d). replace (Z.min e e') with e' by lia.
    replace (e - e')%Z with (Z.pos d) by lia.
    split; [reflexivity|]. apply iter_xO_spec.
Qed.

Lemma shl_align_val (m m' : positive) (e e' : Z) :
  Zpos m' = (Zpos m * 2 ^ (e - e'))%Z -> (e' <= e)%Z -> val m' e' = val m e.
Proof.
  intros H He. unfold val. rewrite H, mult_IZR.
  rewrite <- pow2_IZR by lia. rewrite Rmult_assoc, <- pow2_add.
  replace (e - e' + e')%Z with e by lia. reflexivity.
Qed.

Lemma binary_round_spec (m : positive) (e : Z) :
  exists mz ez,
    binary_round prec emax false m e
      = binary_round_aux prec emax false (Zpos mz) ez loc_Exact
    /\ inbetween (Zpos mz) ez loc_Exact (val m e)
    /\ (ez <= fexp64 (Zdigits2 (Zpos mz) + ez))%Z.
Proof.
  unfold binary_round. fold (fexp64 (Z.pos (digits2_pos m) + e)).
  destruct (shl_align_spec m e (fexp64 (Z.pos (digits2_pos m) + e)))
    as [mz [-> [Hz Hd]]].
  exists mz, (Z.min e (fexp64 (Z.pos (digits2_pos m) + e))).
  split; [reflexivity|]. split.
  - cbn [inbetween]. symmetry. apply (shl_align_val m mz); [exact Hz|lia].
  - cbn [Zdigits2]. rewrite Hd. rewrite !fexp64_eq. lia.
Qed.

(** [c - d] for [0 <= d <= c]: a float between zero and [c]. *)
Theorem SFsub_bounds (mc md : positive) (ec ed : Z) :
  canonical mc ec -> (ec <= 971)%Z -> val md ed <= val mc ec ->
  let r := SFsub prec emax (S754_finite false mc ec) (S754_finite false md ed) in
  valid_binary r = true
  /\ SFleb (S754_zero false) r = true
  /\ SFleb r (S754_finite false mc ec) = true.
Proof.
  intros Cc Hec Hle r. subst r. unfold SFsub. cbn [cond_Zopp].
  destruct (shl_align_spec mc ec (Z.min ec ed)) as [a [Ha [Hza _]]].
  destruct (shl_align_spec md ed (Z.min ec ed)) as [b [Hb [Hzb _]]].
  rewrite Ha, Hb. cbn [fst].
  replace (Z.min ec (Z.min ec ed)) with (Z.min ec ed) in Hza by lia.
  replace (Z.min ed (Z.min ec ed)) with (Z.min ec ed) in Hzb by lia.
  set (ez := Z.min ec ed) in *.
  pose proof (shl_align_val mc a ec ez Hza ltac:(lia)) as Va.
  pose proof (shl_align_val md b ed ez Hzb ltac:(lia)) as Vb.
  assert (Hab : (Zpos b <= Zpos a)%Z).
  { apply le_IZR. apply Rmult_le_reg_r with (pow2 ez); [apply pow2_pos|].
    fold (val b ez). fold (val a ez). lra. }
  unfold binary_normalize.
  destruct (Z.pos a - Z.pos b)%Z as [|p|p] eqn:Ed; [| |lia].
  - split; [reflexivity|]. split; reflexivity.
  - destruct (binary_round_spec p ez) as [mz [ez' [-> [Hin He]]]].
    destruct (binary_round_aux_valid (Zpos mz) ez' loc_Exact (val p ez)
                ltac:(lia) Hin He) as [Hv Hz].
    split; [exact Hv|]. split; [apply Hz|].
    rewrite <- (binary_round_aux_canonical mc ec Cc Hec).
    eapply binary_round_aux_mono.
    + lia.
    + exact Hin.
    + exact He.
    + lia.
    + cbn [inbetween]. reflexivity.
    + cbn [Zdigits2]. rewrite Cc. lia.
    + fold (val mc ec). unfold val at 1. rewrite <- Ed, minus_IZR.
      rewrite Rmult_minus_distr_r. fold (val a ez). fold (val b ez).
      pose proof (val_pos md ed). lra.
Qed.

(** ** Order facts *)

Lemma SFleb_refl (x : spec_float) : nonneg_sf x -> SFleb x x = true.
Proof.
  intros [_ H]. destruct x as [?| | |[|] m e]; try contradiction; [reflexivity|].
  apply SFleb_finite. right. split; [reflexivity|lia].
Qed.

Lemma SFleb_zero_nonneg (s : bool) (x : spec_float) :
  nonneg_sf x -> SFleb (S754_zero s) x = true.
Proof.
  intros [_ H]. destruct x as [?| | |[|] m e]; try contradiction; reflexivity.
Qed.

Lemma nonneg_sf_between (lo x hi : spec_float) :
  nonneg_sf lo -> nonneg_sf hi -> valid_binary x = true ->
  SFleb lo x = true -> SFleb x hi = true -> nonneg_sf x.
Proof.
  intros [_ Hlo] [_ Hhi] Hv H1 H2. split; [exact Hv|].
  destruct lo as [?| | |[|] ? ?]; try contradiction;
    destruct hi as [?| | |[|] ? ?]; try contradiction;
    destruct x as [?|[|]| |[|] ? ?]; try exact I; discriminate.
Qed.

(** ** Rounding to decimals *)

Lemma scaled_round_inbetween (m : positive) (e p : Z) :
  (0 < p)%Z ->
  exists q l,
    (0 <= q)%Z
    /\ inbetween q 0 l (val m e * IZR p)
    /\ Py.scaled_round m e p = round_nearest_even q l.
Proof.
  intro Hp. unfold Py.scaled_round.
  destruct (Z.leb_spec 0 e) as [He|He].
  - exists (Z.pos m * p * 2 ^ e)%Z, loc_Exact.
    split; [|split; [|reflexivity]].
    + apply Z.mul_nonneg_nonneg; [lia|]. apply Z.pow_nonneg. lia.
    + cbn [inbetween]. unfold val. rewrite !mult_IZR, <- pow2_IZR by lia.
      rewrite pow2_0. ring.
  - set (d := (2 ^ (- e))%Z).
    assert (Hd : (0 < d)%Z) by (apply Z.pow_pos_nonneg; lia).
    assert (Hev : Z.even d = true).
    { unfold d. replace (- e)%Z with (Z.succ (- e - 1)) by lia.
      rewrite Z.pow_succ_r by lia. rewrite Z.even_mul. reflexivity. }
    pose proof (Z.div_mod (Z.pos m * p) d ltac:(lia)) as Hdm.
    pose proof (Z.mod_pos_bound (Z.pos m * p) d Hd) as Hr.
    set (q := (Z.pos m * p / d)%Z) in *.
    set (r := ((Z.pos m * p) mod d)%Z) in *.
    exists q, (new_location d r).
    assert (Hq : (0 <= q)%Z) by (apply Z.div_pos; lia).
    split; [exact Hq|]. split.
    + apply new_location_inbetween; [exact Hr|].
      assert (HD : 0 < IZR d) by (apply IZR_lt; exact Hd).
      assert (Hpe : pow2 e = / IZR d).
      { unfold d. rewrite <- pow2_IZR by lia.
        apply Rmult_eq_reg_r with (pow2 (- e)); [|pose proof (pow2_pos (- e)); lra].
        rewrite <- pow2_add. replace (e + - e)%Z with 0%Z by lia.
        pose proof (pow2_pos (- e)). rewrite pow2_0. field. lra. }
      unfold val. rewrite Hpe, pow2_0.
      apply (f_equal IZR) in Hdm. rewrite plus_IZR, !mult_IZR in Hdm.
      apply Rmult_eq_reg_r with (IZR d); [|lra].
      field_simplify; [|lra|lra]. lra.
    + unfold Py.round_half_even. fold q. fold r.
      unfold new_location. rewrite Hev. unfold new_location_even.
      destruct (Z.eqb_spec r 0) as [Hr0|Hr0].
      * rewrite Hr0. simpl Z.mul.
        destruct (Z.compare_spec 0 d); try lia. reflexivity.
      * destruct (2 * r ?= d)%Z; reflexivity.
Qed.

Lemma scaled_round_mono (m1 m2 : positive) (e1 e2 p : Z) :
  (0 < p)%Z -> val m1 e1 <= val m2 e2 ->
  (0 <= Py.scaled_round m1 e1 p <= Py.scaled_round m2 e2 p)%Z.
Proof.
  intros Hp H.
  destruct (scaled_round_inbetween m1 e1 p Hp) as [q1 [l1 [Hq1 [I1 ->]]]].
  destruct (scaled_round_inbetween m2 e2 p Hp) as [q2 [l2 [Hq2 [I2 ->]]]].
  pose proof (round_nearest_even_bounds q1 l1). split; [lia|].
  eapply round_nearest_even_mono; try eassumption.
  apply Rmult_le_compat_r; [|exact H]. apply IZR_le. lia.
Qed.

(** ** The same facts on primitive floats *)

Local Open Scope float_scope.

Lemma nonneg_finite_sf (x : float) : nonneg_finite x -> nonneg_sf (Prim2SF x).
Proof. intro H. split; [apply Prim2SF_valid|exact H]. Qed.

Lemma positive_nonneg (x : float) : positive_finite x -> nonneg_finite x.
Proof.
  unfold positive_finite, nonneg_finite.
  destruct (Prim2SF x) as [?| | |[|] ? ?]; auto.
Qed.

Lemma leb_refl (x : float) : nonneg_finite x -> (x <=? x) = true.
Proof. intro H. rewrite FloatAxioms.leb_spec. apply SFleb_refl, nonneg_finite_sf, H. Qed.

Lemma zero_le (x : float) : nonneg_finite x -> (0 <=? x) = true.
Proof.
  intro H. rewrite FloatAxioms.leb_spec. change (Prim2SF 0) with (S754_zero false).
  apply SFleb_zero_nonneg, nonneg_finite_sf, H.
Qed.

Lemma between_nonneg_finite (lo hi x : float) :
  nonneg_finite lo -> nonneg_finite hi ->
  (lo <=? x) = true -> (x <=? hi) = true -> nonneg_finite x.
Proof.
  intros Hlo Hhi H1 H2. rewrite FloatAxioms.leb_spec in H1, H2.
  apply (nonneg_sf_between (Prim2SF lo) (Prim2SF x) (Prim2SF hi));
    auto using nonneg_finite_sf, Prim2SF_valid.
Qed.

Theorem mul_le (x1 y1 x2 y2 : float) :
  nonneg_finite x1 -> nonneg_finite y1 -> nonneg_finite x2 -> nonneg_finite y2 ->
  (x1 <=? x2) = true -> (y1 <=? y2) = true ->
  (x1 * y1 <=? x2 * y2) = true.
Proof.
  intros. rewrite FloatAxioms.leb_spec in *. rewrite !FloatAxioms.mul_spec.
  apply SFmul_le; auto using nonneg_finite_sf.
Qed.

Theorem div_le (x1 x2 y : float) :
  nonneg_finite x1 -> nonneg_finite x2 -> positive_finite y ->
  (x1 <=? x2) = true -> (x1 / y <=? x2 / y) = true.
Proof.
  intros H1 H2 Hy H. rewrite FloatAxioms.leb_spec in *. rewrite !FloatAxioms.div_spec.
  unfold positive_finite in Hy.
  destruct (Prim2SF y) as [?| | |[|] m e]; try contradiction.
  apply SFdiv_le; auto using nonneg_finite_sf.
Qed.

(** [c - d] lies between zero and [c] when [0 <= d <= c]. *)
Theorem sub_bounds (c d : float) :
  positive_finite c -> nonneg_finite d -> (d <=? c) = true ->
  (0 <=? c - d) = true /\ (c - d <=? c) = true.
Proof.
  intros Hc Hd H. rewrite !FloatAxioms.leb_spec in *. rewrite FloatAxioms.sub_spec.
  pose proof (Prim2SF_valid c) as Vc. pose proof (Prim2SF_valid d) as Vd.
  unfold positive_finite in Hc. unfold nonneg_finite in Hd.
  change (Prim2SF 0) with (S754_zero false).
  destruct (Prim2SF c) as [?| | |[|] mc ec]; try contradiction.
  apply valid_canonical in Vc. destruct Vc as [Cc Hec].
  destruct (Prim2SF d) as [?| | |[|] md ed]; try contradiction.
  - split; [reflexivity|]. apply SFleb_finite. right. split; [reflexivity|lia].
  - apply valid_canonical in Vd. destruct Vd as [Cd _].
    pose proof (SFleb_val _ _ _ _ Cd Cc H) as Hv.
    destruct (SFsub_bounds mc md ec ed Cc Hec Hv) as [_ [H0 H1]].
    split; assumption.
Qed.

Theorem round_le (x y : float) (ndigits : nat) :
  nonneg_finite x -> nonneg_finite y -> (x <=? y) = true ->
  (Py.round x ndigits <=? Py.round y ndigits) = true.
Proof.
  intros Hx Hy H. pose proof H as H'. rewrite FloatAxioms.leb_spec in H'.
  pose proof (Prim2SF_valid x) as Vx. pose proof (Prim2SF_valid y) as Vy.
  unfold Py.round. unfold nonneg_finite in Hx, Hy.
  set (p := (10 ^ Z.of_nat ndigits)%Z).
  assert (Hp : (0 < p)%Z) by (apply Z.pow_pos_nonneg; lia).
  assert (Hzero : forall s, Prim2SF (SF2Prim (S754_zero s)) = S754_zero s)
    by (intro s; apply Prim2SF_SF2Prim; reflexivity).
  assert (Hdiv : forall k,
             Prim2SF (SF2Prim (SFdiv prec emax (S754_finite false k 0)
                                 (S754_finite false (Z.to_pos p) 0)))
             = SFdiv prec emax (S754_finite false k 0)
                     (S754_finite false (Z.to_pos p) 0))
    by (intro k; apply Prim2SF_SF2Prim; apply SFdiv_valid).
  destruct (Prim2SF x) as [sx| | |[|] mx ex] eqn:Ex; try contradiction;
    destruct (Prim2SF y) as [sy| | |[|] my ey] eqn:Ey; try contradiction;
    try discriminate.
  - exact H.
  - rewrite FloatAxioms.leb_spec, Ex.
    destruct (Py.scaled_round my ey p) as [|k|k].
    + rewrite Hzero. reflexivity.
    + rewrite Hdiv. apply SFdiv_valid.
    + rewrite Hzero. reflexivity.
  - apply valid_canonical in Vx, Vy. destruct Vx as [Cx _]. destruct Vy as [Cy _].
    pose proof (SFleb_val _ _ _ _ Cx Cy H') as Hv.
    pose proof (scaled_round_mono mx my ex ey p Hp Hv) as Hs.
    rewrite FloatAxioms.leb_spec.
    destruct (Py.scaled_round mx ex p) as [|k1|k1];
      destruct (Py.scaled_round my ey p) as [|k2|k2]; try lia;
      rewrite ?Hzero, ?Hdiv; try reflexivity.
    + apply SFdiv_valid.
    + apply SFdiv_mono. unfold val. rewrite pow2_0.
      apply Rmult_le_compat_r; [lra|]. apply IZR_le. lia.
Qed.

End Binary64Facts.

(* ================================================================== *)
(** ** Properties of the Python layer *)
(* ================================================================== *)

Module PyFacts.
Import Py.

Lemma mapM_is_ok {A B : Type} (f : A -> result B) (xs : list A) :
  is_ok (mapM f xs) = forallb (fun x => is_ok (f x)) xs.
Proof.
  induction xs as [|x tl IH]; simpl.
  - reflexivity.
  - destruct (f x) as [y|e]; simpl.
    + rewrite <- IH. destruct (mapM f tl); reflexivity.
    + reflexivity.
Qed.

Lemma forallb_pointwise {A : Type} (f g : A -> bool) :
  (forall x, f x = g x) -> forall l, forallb f l = forallb g l.
Proof.
  intros H l. induction l as [|x tl IH]; simpl.
  - reflexivity.
  - rewrite H, IH. reflexivity.
Qed.

Lemma mapM_ok_in {A B : Type} (f : A -> result B) (xs : list A) (ys : list B) :
  mapM f xs = Ok ys ->
  forall y, In y ys -> exists x, In x xs /\ f x = Ok y.
Proof.
  revert ys. induction xs as [|x tl IH]; simpl; intros ys H y Hy.
  - injection H as <-. contradiction.
  - destruct (f x) as [y0|e] eqn:Hx; simpl in H; [|discriminate].
    destruct (mapM f tl) as [ys0|e] eqn:Htl; simpl in H; [|discriminate].
    injection H as <-. destruct Hy as [<-|Hy].
    + exists x. auto.
    + destruct (IH ys0 eq_refl y Hy) as [x' [Hin Hf]]. exists x'. auto.
Qed.

(** The first exception of the loop is the exception of the whole. *)
Lemma mapM_raise {A B : Type} (f : A -> result B) (xs : list A) (e : pyerr) :
  mapM f xs = Raise e -> exists x, In x xs /\ f x = Raise e.
Proof.
  induction xs as [|x tl IH]; simpl; intro H.
  - discriminate.
  - destruct (f x) as [y0|e0] eqn:Hx; simpl in H.
    + destruct (mapM f tl) as [ys0|e1] eqn:Htl; simpl in H; [discriminate|].
      injection H as <-. destruct (IH eq_refl) as [x' [Hin Hf]].
      exists x'. auto.
    + injection H as <-. exists x. auto.
Qed.

Lemma dict_get_set_same (d : dict) (k : string) (v : pyval) :
  dict_get (dict_set d k v) k = Some v.
Proof.
  induction d as [|[k' v'] tl IH]; simpl.
  - rewrite String.eqb_refl. reflexivity.
  - destruct (String.eqb k' k) eqn:E; simpl.
    + rewrite String.eqb_refl. reflexivity.
    + rewrite E. exact IH.
Qed.

Lemma dict_get_set_other (d : dict) (k k' : string) (v : pyval) :
  k <> k' -> dict_get (dict_set d k v) k' = dict_get d k'.
Proof.
  intro Hne. induction d as [|[k0 v0] tl IH]; simpl.
  - destruct (String.eqb_spec k k'); [contradiction|reflexivity].
  - destruct (String.eqb_spec k0 k) as [->|Hk]; simpl.
    + destruct (String.eqb_spec k k'); [contradiction|reflexivity].
    + destruct (String.eqb k0 k'); [reflexivity|exact IH].
Qed.

Section SortFacts.
Context {A : Type} (key : A -> Z).

Lemma insert_desc_perm (x : A) (l : list A) :
  Permutation (insert_desc key x l) (x :: l).
Proof.
  induction l as [|y tl IH]; simpl.
  - apply Permutation_refl.
  - destruct (key y <=? key x).
    + apply Permutation_refl.
    + eapply Permutation_trans; [apply perm_skip, IH|apply perm_swap].
Qed.

Lemma sort_desc_perm (l : list A) : Permutation (sort_desc key l) l.
Proof.
  induction l as [|x tl IH]; simpl.
  - apply perm_nil.
  - eapply Permutation_trans; [apply insert_desc_perm|].
    apply perm_skip, IH.
Qed.

Lemma insert_desc_sorted (x : A) (l : list A) :
  StronglySorted (desc key) l -> StronglySorted (desc key) (insert_desc key x l).
Proof.
  induction l as [|y tl IH]; simpl; intro Hs.
  - constructor; constructor.
  - apply StronglySorted_inv in Hs. destruct Hs as [Htl Hy].
    destruct (key y <=? key x) eqn:E.
    + apply Z.leb_le in E. constructor.
      * constructor; assumption.
      * constructor; [exact E|].
        eapply Forall_impl; [|exact Hy].
        intros a Ha. unfold desc in *. lia.
    + apply Z.leb_gt in E. constructor.
      * apply IH, Htl.
      * eapply Permutation_Forall.
        { apply Permutation_sym, insert_desc_perm. }
        constructor; [unfold desc; lia|exact Hy].
Qed.

Lemma sort_desc_sorted (l : list A) : StronglySorted (desc key) (sort_desc key l).
Proof.
  induction l as [|x tl IH]; simpl.
  - constructor.
  - apply insert_desc_sorted, IH.
Qed.
End SortFacts.

End PyFacts.

(* ================================================================== *)
(** ** Properties of the risk scorer *)
(* ================================================================== *)

Module RiskScoreFacts.
Import Py RiskPrediction.

Lemma multiplier_get_spec (level : string) :
  multiplier_get threat_multipliers level 1.0%float = RiskSpec.threat_multiplier level.
Proof.
  unfold threat_multipliers, RiskSpec.threat_multiplier.
  cbn -[String.eqb].
  rewrite !(String.eqb_sym _ level).
  destruct (String.eqb level "low") eqn:El.
  - reflexivity.
  - destruct (String.eqb level "medium") eqn:Em.
    + apply String.eqb_eq in Em; subst level; reflexivity.
    + reflexivity.
Qed.

Lemma final_score_spec (rd : risk_data) :
  final_score rd =
  RiskSpec.score (get (likelihood rd) 3%float) (get (impact rd) 3%float)
                 (get (control_effectiveness rd) 70%float)
                 (get (threat_level rd) "medium").
Proof.
  unfold final_score, adjusted_likelihood, RiskSpec.score.
  rewrite multiplier_get_spec. reflexivity.
Qed.

Lemma classification_spec (rd : risk_data) :
  classification (calculate_risk_score rd)
    = RiskSpec.tier_name (RiskSpec.tier_of (final_score rd))
  /\ priority (calculate_risk_score rd)
    = RiskSpec.tier_priority (RiskSpec.tier_of (final_score rd)).
Proof.
  unfold calculate_risk_score, RiskSpec.tier_of.
  destruct (15 <=? final_score rd)%float; [split; reflexivity|].
  destruct (10 <=? final_score rd)%float; [split; reflexivity|].
  destruct (5 <=? final_score rd)%float; split; reflexivity.
Qed.

Lemma risk_score_rounded (rd : risk_data) :
  risk_score (calculate_risk_score rd) = round (final_score rd) 2.
Proof.
  unfold calculate_risk_score.
  destruct (15 <=? final_score rd)%float; [reflexivity|].
  destruct (10 <=? final_score rd)%float; [reflexivity|].
  destruct (5 <=? final_score rd)%float; reflexivity.
Qed.

(** C1.  For every input record (absent keys taking the defaults 3, 3, 70
    and medium), [calculate_risk_score] computes the score
    [likelihood * (1 - controlEffectiveness/100 * 0.4) * impact * multiplier]
    with the multipliers low 0.8, medium 1.0, high 1.3, critical 1.5 and
    1.0 for any other level, reports it rounded to two decimals, and
    classifies it by the inclusive lower bounds 15, 10 and 5 tried from
    the highest: Critical (1), High (2), Medium (3), else Low (4).  A score
    of exactly 15.0 is Critical and 14.999 is High; likewise 10.0 is High
    and 9.999 Medium, 5.0 is Medium and 4.999 Low.  The input 5, 3, 0,
    medium has the score 15.0 exactly. *)
Theorem calculate_risk_score_formula_and_tiers :
  (forall rd : risk_data,
      let s := RiskSpec.score (get (likelihood rd) 3%float)
                              (get (impact rd) 3%float)
                              (get (control_effectiveness rd) 70%float)
                              (get (threat_level rd) "medium") in
      final_score rd = s
      /\ risk_score (calculate_risk_score rd) = round s 2
      /\ classification (calculate_risk_score rd)
           = RiskSpec.tier_name (RiskSpec.tier_of s)
      /\ priority (calculate_risk_score rd)
           = RiskSpec.tier_priority (RiskSpec.tier_of s))
  /\ (forall level : string,
         multiplier_get threat_multipliers level 1.0%float
           = if String.eqb level "low" then 0.8%float
             else if String.eqb level "medium" then 1.0%float
             else if String.eqb level "high" then 1.3%float
             else if String.eqb level "critical" then 1.5%float
             else 1.0%float)
  /\ (forall s : float,
         RiskSpec.tier_of s =
         if (15 <=? s)%float then RiskSpec.Critical
         else if (10 <=? s)%float then RiskSpec.High
         else if (5 <=? s)%float then RiskSpec.Medium
         else RiskSpec.Low)
  /\ RiskSpec.tier_of 15.0%float = RiskSpec.Critical
  /\ RiskSpec.tier_of 14.999%float = RiskSpec.High
  /\ RiskSpec.tier_of 10.0%float = RiskSpec.High
  /\ RiskSpec.tier_of 9.999%float = RiskSpec.Medium
  /\ RiskSpec.tier_of 5.0%float = RiskSpec.Medium
  /\ RiskSpec.tier_of 4.999%float = RiskSpec.Low
  /\ (let rd := {| likelihood := Some 5%float; impact := Some 3%float;
                   control_effectiveness := Some 0%float;
                   threat_level := Some "medium" |} in
      final_score rd = 15.0%float
      /\ classification (calculate_risk_score rd) = "Critical"
      /\ priority (calculate_risk_score rd) = 1).
Proof.
  split.
  { intros rd s. subst s. rewrite <- final_score_spec.
    destruct (classification_spec rd) as [Hc Hp].
    repeat split; try assumption; try reflexivity.
    apply risk_score_rounded. }
  split.
  { intro level. rewrite multiplier_get_spec.
    unfold RiskSpec.threat_multiplier.
    destruct (String.eqb level "low"); [reflexivity|].
    destruct (String.eqb level "medium") eqn:Em; [|reflexivity].
    apply String.eqb_eq in Em; subst level; reflexivity. }
  split; [intro s; reflexivity|].
  repeat split; vm_compute; reflexivity.
Qed.

End RiskScoreFacts.

Module RoundingFacts.
Import Py RiskPrediction.

(** C10.  The classification is taken from the unrounded score while the
    reported [risk_score] is that score rounded to two decimals.  For
    likelihood 5, impact 3, control effectiveness 0.05 and threat level
    medium the unrounded score is below 15, the record reports a
    [risk_score] of exactly 15.0, and its classification is High with
    priority 2, although 15.0 itself lies in the Critical tier. *)
Theorem rounded_score_reaches_threshold_of_higher_tier :
  (forall rd : risk_data,
      risk_score (calculate_risk_score rd) = round (final_score rd) 2
      /\ classification (calculate_risk_score rd)
           = RiskSpec.tier_name (RiskSpec.tier_of (final_score rd)))
  /\ (let rd := {| likelihood := Some 5%float; impact := Some 3%float;
                   control_effectiveness := Some 0.05%float;
                   threat_level := Some "medium" |} in
      (final_score rd <? 15)%float = true
      /\ risk_score (calculate_risk_score rd) = 15.0%float
      /\ classification (calculate_risk_score rd) = "High"
      /\ priority (calculate_risk_score rd) = 2
      /\ RiskSpec.tier_of (risk_score (calculate_risk_score rd)) = RiskSpec.Critical).
Proof.
  split.
  - intro rd. split.
    + apply RiskScoreFacts.risk_score_rounded.
    + apply RiskScoreFacts.classification_spec.
  - repeat split; vm_compute; reflexivity.
Qed.

End RoundingFacts.

Module MonotonicityFacts.
Import Py RiskPrediction RiskSpec Binary64 Binary64Facts.
Local Open Scope float_scope.

Ltac constant := vm_compute; exact I.

Lemma in_range_nonneg_finite (lo hi x : float) :
  nonneg_finite lo -> nonneg_finite hi -> in_range lo hi x -> nonneg_finite x.
Proof.
  intros Hlo Hhi [H1 H2]. apply (between_nonneg_finite lo hi x); assumption.
Qed.

(** The multiplier grows with the severity of the threat level. *)
Lemma severity_multiplier (t1 t2 : string) :
  (threat_severity t1 <= threat_severity t2)%nat ->
  nonneg_finite (multiplier_get threat_multipliers t1 1.0)
  /\ nonneg_finite (multiplier_get threat_multipliers t2 1.0)
  /\ (multiplier_get threat_multipliers t1 1.0
        <=? multiplier_get threat_multipliers t2 1.0) = true
  /\ (multiplier_get threat_multipliers t1 1.0 <=? 1.5) = true
  /\ (multiplier_get threat_multipliers t2 1.0 <=? 1.5) = true.
Proof.
  rewrite !RiskScoreFacts.multiplier_get_spec.
  unfold threat_severity, threat_multiplier.
  destruct (String.eqb t1 "low"), (String.eqb t1 "high"), (String.eqb t1 "critical"),
           (String.eqb t2 "low"), (String.eqb t2 "high"), (String.eqb t2 "critical");
    intro H; try lia; repeat split; vm_compute; auto.
Qed.

(** A product of two bounded factors is bounded, hence finite. *)
Lemma mul_range (x y hx hy : float) :
  nonneg_finite x -> nonneg_finite y -> nonneg_finite hx -> nonneg_finite hy ->
  nonneg_finite (hx * hy) ->
  (x <=? hx) = true -> (y <=? hy) = true ->
  nonneg_finite (x * y) /\ (x * y <=? hx * hy) = true.
Proof.
  intros Nx Ny Nhx Nhy Nh Hx Hy.
  assert (H1 : (x * y <=? hx * hy) = true) by (apply mul_le; assumption).
  split; [|exact H1].
  apply (between_nonneg_finite (0 * 0) (hx * hy)); [constant|exact Nh| |exact H1].
  apply mul_le; [constant|constant|exact Nx|exact Ny| |];
    apply zero_le; assumption.
Qed.

(** For a likelihood in 1-5 and a control effectiveness in 0-100 the
    adjusted likelihood is a finite number between 0 and 5. *)
Lemma adjusted_likelihood_range (l ce : float) (i : option float) (t : option string) :
  in_range 1 5 l -> in_range 0 100 ce ->
  let a := adjusted_likelihood {| likelihood := Some l; impact := i;
                                  control_effectiveness := Some ce;
                                  threat_level := t |} in
  nonneg_finite a /\ (a <=? 5 * 1) = true.
Proof.
  intros Hl Hce a. subst a. unfold adjusted_likelihood.
  cbn [likelihood control_effectiveness get].
  assert (Nl : nonneg_finite l) by (eapply in_range_nonneg_finite; [| |exact Hl]; constant).
  assert (Nce : nonneg_finite ce) by (eapply in_range_nonneg_finite; [| |exact Hce]; constant).
  destruct Hl as [Hl1 Hl5]. destruct Hce as [Hc0 Hc100].
  (* ce / 100 lies between 0 and 1 *)
  assert (Hq0 : (0 / 100 <=? ce / 100) = true)
    by (apply div_le; [constant|exact Nce|constant|exact Hc0]).
  assert (Hq1 : (ce / 100 <=? 100 / 100) = true)
    by (apply div_le; [exact Nce|constant|constant|exact Hc100]).
  assert (Nq : nonneg_finite (ce / 100))
    by (eapply between_nonneg_finite; [| |exact Hq0|exact Hq1]; constant).
  (* so does its product with 0.4 *)
  assert (Hd0 : (0 * 0 <=? ce / 100 * 0.4) = true)
    by (apply mul_le; [constant|constant|exact Nq|constant| |reflexivity];
        apply zero_le; exact Nq).
  assert (Hd1 : (ce / 100 * 0.4 <=? 100 / 100 * 1) = true)
    by (apply mul_le; [exact Nq|constant|constant|constant|exact Hq1|reflexivity]).
  assert (Nd : nonneg_finite (ce / 100 * 0.4))
    by (eapply between_nonneg_finite; [| |exact Hd0|exact Hd1]; constant).
  (* the factor 1 - ... lies between 0 and 1 *)
  destruct (sub_bounds 1 (ce / 100 * 0.4) ltac:(constant) Nd Hd1) as [Hs0 Hs1].
  assert (Ns : nonneg_finite (1 - ce / 100 * 0.4))
    by (eapply between_nonneg_finite; [| |exact Hs0|exact Hs1]; constant).
  (* and the adjusted likelihood between 0 and 5 *)
  assert (Ha0 : (1 * 0 <=? l * (1 - ce / 100 * 0.4)) = true)
    by (apply mul_le; [constant|constant|exact Nl|exact Ns|exact Hl1|exact Hs0]).
  assert (Ha1 : (l * (1 - ce / 100 * 0.4) <=? 5 * 1) = true)
    by (apply mul_le; [exact Nl|exact Ns|constant|constant|exact Hl5|exact Hs1]).
  split; [|exact Ha1].
  eapply between_nonneg_finite; [| |exact Ha0|exact Ha1]; constant.
Qed.

(** C6.  With the likelihood in 1-5 and the control effectiveness in 0-100
    held fixed, raising the impact within 1-5 and raising the threat level
    along low < medium < high < critical never lowers the risk score:
    neither the score the classification is taken from nor the
    [risk_score] the record reports.  Taking the same threat level twice
    gives the monotonicity in the impact alone, taking the same impact
    twice the monotonicity in the threat level alone. *)
Theorem risk_score_monotone (l ce i1 i2 : float) (t1 t2 : string) :
  in_range 1 5 l -> in_range 0 100 ce ->
  in_range 1 5 i1 -> in_range 1 5 i2 -> (i1 <=? i2) = true ->
  (threat_severity t1 <= threat_severity t2)%nat ->
  let rd1 := {| likelihood := Some l; impact := Some i1;
                control_effectiveness := Some ce; threat_level := Some t1 |} in
  let rd2 := {| likelihood := Some l; impact := Some i2;
                control_effectiveness := Some ce; threat_level := Some t2 |} in
  (final_score rd1 <=? final_score rd2) = true
  /\ (risk_score (calculate_risk_score rd1)
        <=? risk_score (calculate_risk_score rd2)) = true.
Proof.
  intros Hl Hce Hi1 Hi2 Hi Ht rd1 rd2.
  destruct (adjusted_likelihood_range l ce (Some i1) (Some t1) Hl Hce) as [Na1 Ha1].
  destruct (adjusted_likelihood_range l ce (Some i2) (Some t2) Hl Hce) as [Na2 Ha2].
  fold rd1 in Na1, Ha1. fold rd2 in Na2, Ha2.
  assert (Ea : adjusted_likelihood rd1 = adjusted_likelihood rd2) by reflexivity.
  assert (Ni1 : nonneg_finite i1) by (eapply in_range_nonneg_finite; [| |exact Hi1]; constant).
  assert (Ni2 : nonneg_finite i2) by (eapply in_range_nonneg_finite; [| |exact Hi2]; constant).
  destruct Hi1 as [_ Hi1]. destruct Hi2 as [_ Hi2].
  destruct (severity_multiplier t1 t2 Ht) as [Nm1 [Nm2 [Hm [Hm1 Hm2]]]].
  (* the base scores *)
  destruct (mul_range (adjusted_likelihood rd1) i1 (5 * 1) 5) as [Nb1 Hb1];
    [exact Na1|exact Ni1|constant|constant|constant|exact Ha1|exact Hi1|].
  destruct (mul_range (adjusted_likelihood rd2) i2 (5 * 1) 5) as [Nb2 Hb2];
    [exact Na2|exact Ni2|constant|constant|constant|exact Ha2|exact Hi2|].
  assert (Hb : (adjusted_likelihood rd1 * i1 <=? adjusted_likelihood rd2 * i2) = true).
  { apply mul_le; [exact Na1|exact Ni1|exact Na2|exact Ni2| |exact Hi].
    rewrite Ea. apply leb_refl. exact Na2. }
  (* the final scores *)
  destruct (mul_range (adjusted_likelihood rd1 * i1)
                      (multiplier_get threat_multipliers t1 1.0) (5 * 1 * 5) 1.5)
    as [Nf1 _];
    [exact Nb1|exact Nm1|constant|constant|constant|exact Hb1|exact Hm1|].
  destruct (mul_range (adjusted_likelihood rd2 * i2)
                      (multiplier_get threat_multipliers t2 1.0) (5 * 1 * 5) 1.5)
    as [Nf2 _];
    [exact Nb2|exact Nm2|constant|constant|constant|exact Hb2|exact Hm2|].
  assert (Hf : (final_score rd1 <=? final_score rd2) = true)
    by (apply mul_le; [exact Nb1|exact Nm1|exact Nb2|exact Nm2|exact Hb|exact Hm]).
  split; [exact Hf|].
  rewrite !RiskScoreFacts.risk_score_rounded.
  apply round_le; [exact Nf1|exact Nf2|exact Hf].
Qed.

Lemma risk_score_monotone_witness :
  let rd1 := {| likelihood := Some 4; impact := Some 3;
                control_effectiveness := Some 75; threat_level := Some "low" |} in
  let rd2 := {| likelihood := Some 4; impact := Some 5;
                control_effectiveness := Some 75; threat_level := Some "high" |} in
  (final_score rd1 <=? final_score rd2) = true
  /\ (risk_score (calculate_risk_score rd1)
        <=? risk_score (calculate_risk_score rd2)) = true.
Proof.
  apply (risk_score_monotone 4 75 3 5 "low" "high");
    try (split; reflexivity); try reflexivity.
  vm_compute. lia.
Defined.

End MonotonicityFacts.
(* ================================================================== *)
(** ** Properties of the emerging-risk prediction and of the gap analysis,
       and what the functions do with missing and malformed fields *)
(* ================================================================== *)

Module EmergingRiskFacts.
Import Py RiskPrediction InputShape.

Lemma db_get_in (db : list (string * list emerging_risk)) (k : string) (r : emerging_risk) :
  In r (db_get db k) -> In r (flat_map snd db).
Proof.
  induction db as [|[k' v] tl IH]; simpl; intro H.
  - contradiction.
  - apply in_or_app. destruct (String.eqb k' k); auto.
Qed.

Lemma catalog_likelihood (r : emerging_risk) :
  In r catalog_entries ->
  exists l, int (probability r * 5)%float = Ok l /\ 1 <= l <= 5.
Proof.
  unfold catalog_entries; simpl.
  intros [<-|[<-|[<-|[<-|[<-|[<-|[]]]]]]];
    vm_compute; eexists; (split; [reflexivity|split; discriminate]).
Qed.

Lemma risk_name_lower_ok (risk : pyval) :
  is_ok (risk_name_lower risk) = has_name risk.
Proof.
  unfold risk_name_lower, has_name, subscript.
  destruct risk as [| | | | |l|d]; try reflexivity.
  destruct (dict_get d "name") as [[| | | | | |]|]; reflexivity.
Qed.


Lemma add_metadata_loop_ok (clock : nat -> string) (rs : list emerging_risk) :
  forall turn : nat,
    (forall r, In r rs -> In r catalog_entries) ->
    is_ok (add_metadata_loop clock turn rs) = true.
Proof.
  induction rs as [|x tl IH]; intros turn H; [reflexivity|].
  cbn [add_metadata_loop].
  destruct (catalog_likelihood x (H x (or_introl eq_refl))) as [l [Hl _]].
  unfold add_metadata. rewrite Hl. cbn [bind].
  assert (Htl : is_ok (add_metadata_loop clock (S turn) tl) = true).
  { apply IH. intros r Hr. apply H. right. exact Hr. }
  destruct (add_metadata_loop clock (S turn) tl); [reflexivity|discriminate].
Qed.

(** The record of the turn [k] of the loop carries the reading number
    [k] that follows the readings made before the loop. *)
Lemma add_metadata_loop_nth (clock : nat -> string) (xs : list emerging_risk) :
  forall (turn : nat) (rs : list predicted_risk) (k : nat) (r : predicted_risk),
    add_metadata_loop clock turn xs = Ok rs ->
    nth_error rs k = Some r ->
    exists x, nth_error xs k = Some x
              /\ add_metadata (clock (turn + k)%nat) x = Ok r.
Proof.
  induction xs as [|x tl IH]; intros turn rs k r H Hk; cbn [add_metadata_loop] in H.
  - injection H as <-. destruct k; discriminate.
  - destruct (add_metadata (clock turn) x) as [r0|e] eqn:Hx; cbn [bind] in H;
      [|discriminate].
    destruct (add_metadata_loop clock (S turn) tl) as [rs0|e] eqn:Htl;
      cbn [bind] in H; [|discriminate].
    injection H as <-. destruct k as [|k]; cbn [nth_error] in Hk.
    + injection Hk as <-. exists x. split; [reflexivity|].
      rewrite Nat.add_0_r. exact Hx.
    + destruct (IH (S turn) rs0 k r Htl Hk) as [x' [Hx' Ha]].
      exists x'. split; [exact Hx'|].
      rewrite Nat.add_succ_r. exact Ha.
Qed.

Lemma add_metadata_loop_risk (clock : nat -> string) (xs : list emerging_risk) :
  forall (turn : nat) (rs : list predicted_risk),
    add_metadata_loop clock turn xs = Ok rs -> map risk rs = xs.
Proof.
  induction xs as [|x tl IH]; intros turn rs H; cbn [add_metadata_loop] in H.
  - injection H as <-. reflexivity.
  - destruct (add_metadata (clock turn) x) as [r0|e] eqn:Hx; cbn [bind] in H;
      [|discriminate].
    destruct (add_metadata_loop clock (S turn) tl) as [rs0|e] eqn:Htl;
      cbn [bind] in H; [|discriminate].
    injection H as <-. cbn [map]. rewrite (IH _ _ Htl). f_equal.
    unfold add_metadata in Hx.
    destruct (int (probability x * 5)%float); cbn [bind] in Hx; [|discriminate].
    injection Hx as <-. reflexivity.
Qed.

Lemma predict_is_ok (clock : nat -> string) (industry : string)
    (current_risks : list pyval) :
  is_ok (predict_emerging_risks clock industry current_risks)
    = forallb has_name current_risks.
Proof.
  unfold predict_emerging_risks.
  rewrite <- (PyFacts.forallb_pointwise _ _ risk_name_lower_ok).
  rewrite <- PyFacts.mapM_is_ok.
  destruct (mapM risk_name_lower current_risks) as [names|e]; cbn [bind];
    [|reflexivity].
  apply add_metadata_loop_ok. intros r Hr.
  apply filter_In in Hr. destruct Hr as [Hr _].
  eapply db_get_in; exact Hr.
Qed.

(** C2 (as amended).  Each record [predict_emerging_risks] returns carries
    a generation timestamp, the horizon label ['6-12 months'], the
    constant [predicted_impact] 4, and a [predicted_likelihood] equal to
    [probability * 5] truncated towards zero (Python's [int]), which for
    the catalog lies between 1 and 5.  The timestamp is a reading of the
    clock of the record's own: the record at index [k] of the result
    carries the reading number [k] of the call. *)
Theorem predicted_risk_metadata
    (clock : nat -> string) (industry : string) (current_risks : list pyval)
    (rs : list predicted_risk) (k : nat) (r : predicted_risk) :
  predict_emerging_risks clock industry current_risks = Ok rs ->
  nth_error rs k = Some r ->
  int (probability (risk r) * 5)%float = Ok (predicted_likelihood r)
  /\ 1 <= predicted_likelihood r <= 5
  /\ predicted_impact r = 4
  /\ time_horizon r = "6-12 months"
  /\ predicted_on r = clock k.
Proof.
  unfold predict_emerging_risks. intros H Hk.
  destruct (mapM risk_name_lower current_risks) as [names|e]; cbn [bind] in H;
    [|discriminate].
  destruct (add_metadata_loop_nth _ _ _ _ _ _ H Hk) as [c [Hc Hf]].
  apply nth_error_In in Hc. apply filter_In in Hc. destruct Hc as [Hc _].
  apply db_get_in in Hc.
  destruct (catalog_likelihood c Hc) as [l [Hl Hb]].
  unfold add_metadata in Hf. rewrite Hl in Hf. cbn [bind] in Hf.
  injection Hf as <-. cbn [risk predicted_likelihood predicted_impact
                            time_horizon predicted_on Nat.add].
  repeat split; try assumption; try reflexivity; apply Hb.
Qed.

Lemma predicted_risk_metadata_witness :
  exists rs r,
    predict_emerging_risks example_clock "technology" [] = Ok rs
    /\ nth_error rs 1 = Some r
    /\ int (probability (risk r) * 5)%float = Ok (predicted_likelihood r)
    /\ 1 <= predicted_likelihood r <= 5
    /\ predicted_impact r = 4
    /\ time_horizon r = "6-12 months"
    /\ predicted_on r = example_clock 1.
Proof.
  eexists. eexists.
  split; [vm_compute; reflexivity|].
  split; [reflexivity|].
  eapply (predicted_risk_metadata example_clock "technology" [] _ 1%nat).
  - vm_compute; reflexivity.
  - reflexivity.
Defined.

(** C2 fails as stated: for the technology catalog and no current risk,
    the first record has probability 0.75, so [round(probability * 5)] is
    4, and the record carries [predicted_likelihood] 3. *)
Lemma predicted_likelihood_is_not_rounded :
  exists rs r,
    predict_emerging_risks example_clock "technology" [] = Ok rs
    /\ In r rs
    /\ probability (risk r) = 0.75%float
    /\ round_int (probability (risk r) * 5)%float = Ok 4
    /\ predicted_likelihood r = 3.
Proof.
  eexists. eexists.
  split; [vm_compute; reflexivity|].
  split; [left; reflexivity|].
  repeat split; vm_compute; reflexivity.
Qed.

End EmergingRiskFacts.

(** The statements of this module are statements of [gap_analysis.py]
    repaired, as [GapAnalysis] embeds it. *)
Module GapFacts.
Import Py GapAnalysis InputShape.

Lemma supported_in (framework : string) :
  supported framework = true <-> In framework supported_frameworks.
Proof.
  unfold supported. rewrite existsb_exists. split.
  - intros [k [Hin Heq]]. apply String.eqb_eq in Heq. subst k. exact Hin.
  - intro Hin. exists framework. split; [exact Hin|apply String.eqb_refl].
Qed.

Lemma frameworks_get_supported (framework : string) :
  supported framework = true ->
  exists required, frameworks_get frameworks framework = Some required.
Proof.
  intro H. apply supported_in in H.
  destruct H as [<-|[<-|[<-|[]]]]; eexists; reflexivity.
Qed.

Lemma frameworks_get_unsupported (framework : string) :
  supported framework = false -> frameworks_get frameworks framework = None.
Proof.
  unfold supported, supported_frameworks, frameworks. cbn -[String.eqb].
  rewrite !(String.eqb_sym framework).
  destruct (String.eqb "iso27001" framework); [discriminate|].
  destruct (String.eqb "soc2" framework); [discriminate|].
  destruct (String.eqb "gdpr" framework); [discriminate|reflexivity].
Qed.

Lemma control_id_of_ok (ctrl : pyval) : is_ok (control_id_of ctrl) = has_id ctrl.
Proof.
  unfold control_id_of, has_id, subscript.
  destruct ctrl as [| | | | |l|d]; try reflexivity.
  destruct (dict_get d "id") as [[| | | | | |]|]; reflexivity.
Qed.

Lemma control_id_of_raise (ctrl : pyval) (e : pyerr) :
  control_id_of ctrl = Raise e -> e = KeyError "id" \/ e = TypeError.
Proof.
  unfold control_id_of, subscript.
  destruct ctrl as [| | | | |l|d]; unfold bind;
    try (intro H; injection H as <-; right; reflexivity).
  destruct (dict_get d "id") as [[| | | | | |]|]; unfold hashable; intro H;
    try discriminate; injection H as <-; auto.
Qed.

Lemma analyze_gaps_is_ok (now framework : string) (current_controls : list pyval) :
  is_ok (analyze_gaps now framework current_controls)
    = supported framework && forallb has_id current_controls.
Proof.
  unfold analyze_gaps.
  destruct (supported framework) eqn:Hs.
  - destruct (frameworks_get_supported framework Hs) as [required ->].
    rewrite <- (PyFacts.forallb_pointwise _ _ control_id_of_ok).
    rewrite <- PyFacts.mapM_is_ok.
    destruct (mapM control_id_of current_controls); reflexivity.
  - rewrite (frameworks_get_unsupported framework Hs). reflexivity.
Qed.

Lemma analyze_gaps_raise (now framework : string) (current_controls : list pyval)
    (e : pyerr) :
  analyze_gaps now framework current_controls = Raise e ->
  (supported framework = false /\ e = ValueError ("Unknown framework: " ++ framework))
  \/ (supported framework = true /\ (e = KeyError "id" \/ e = TypeError)).
Proof.
  unfold analyze_gaps.
  destruct (supported framework) eqn:Hs.
  - destruct (frameworks_get_supported framework Hs) as [required ->].
    destruct (mapM control_id_of current_controls) as [ids|e0] eqn:Hm;
      unfold bind; intro H; [discriminate|].
    injection H as <-. right. split; [reflexivity|].
    destruct (PyFacts.mapM_raise _ _ _ Hm) as [c [_ Hc]].
    eapply control_id_of_raise; exact Hc.
  - rewrite (frameworks_get_unsupported framework Hs).
    intro H. injection H as <-. left. split; reflexivity.
Qed.

(** X29.  Of [gap_analysis.py] with line 79 repaired.  For every list of
    implemented controls, [analyze_gaps] fails with the unknown-framework
    error if and only if the framework key is not one of iso27001, soc2,
    gdpr.  For a supported framework it returns a result whenever every
    entry of the list is a mapping with a hashable [id]; any failure it
    has on a supported framework is a lookup or type error on an
    entry. *)
Theorem analyze_gaps_unknown_framework
    (now framework : string) (current_controls : list pyval) :
  (analyze_gaps now framework current_controls
     = Raise (ValueError ("Unknown framework: " ++ framework))
   <-> ~ In framework supported_frameworks)
  /\ (In framework supported_frameworks ->
      forallb has_id current_controls = true ->
      exists report,
        analyze_gaps now framework current_controls = Ok report
        /\ GapAnalysis.framework report = framework)
  /\ (In framework supported_frameworks ->
      forall e, analyze_gaps now framework current_controls = Raise e ->
                forallb has_id current_controls = false
                /\ (e = KeyError "id" \/ e = TypeError)).
Proof.
  split; [|split].
  - split.
    + intros H Hin. apply supported_in in Hin.
      apply analyze_gaps_raise in H. destruct H as [[Hs _]|[_ [H|H]]];
        congruence.
    + intro Hn. unfold analyze_gaps.
      rewrite frameworks_get_unsupported; [reflexivity|].
      destruct (supported framework) eqn:Hs; [|reflexivity].
      apply supported_in in Hs. contradiction.
  - intros Hin Hall. apply supported_in in Hin.
    pose proof (analyze_gaps_is_ok now framework current_controls) as Hok.
    rewrite Hin, Hall in Hok.
    unfold analyze_gaps in *.
    destruct (frameworks_get_supported framework Hin) as [required Hreq].
    rewrite Hreq in *.
    destruct (mapM control_id_of current_controls) as [ids|e]; unfold bind in *;
      [|discriminate].
    eexists. split; reflexivity.
  - intros Hin e H. apply supported_in in Hin. split.
    + pose proof (analyze_gaps_is_ok now framework current_controls) as Hok.
      rewrite H, Hin in Hok. symmetry. exact Hok.
    + apply analyze_gaps_raise in H. destruct H as [[Hs _]|[_ H]];
        [congruence|exact H].
Qed.

End GapFacts.

(* ================================================================== *)
(** ** The text of gap_analysis.py *)
(* ================================================================== *)

Module GapSourceFacts.
Import PySyntax GapAnalysis GapSpec.

(** C4 (a defect of the code).  The tokenizer rejects [gap_analysis.py]:
    line 79 of the file is [priority': 'High'], and the quote at its
    column 17 opens a string literal that the line leaves open.  The
    module is therefore not imported and [analyze_gaps] is never entered,
    whatever its arguments: it neither fails with the unknown-framework
    error nor returns a result.  Line 79 is the only line in the way: with
    its quote restored the lines are cut into tokens, and their string
    literals are those of the catalog [_load_gdpr_requirements] of the
    embedding. *)
Theorem gap_analysis_source_is_rejected :
  nth_error source_lines 13 = Some "priority': 'High'"
  /\ tokenize_line "priority': 'High'" = Unterminated 17
  /\ tokenize_lines 66 source_lines = SyntaxError 79 17
  /\ tokenize_line repaired_line_79 = Literals ["priority"; "High"]
  /\ tokenize_lines 66 repaired_lines
     = Tokenized (catalog_literals _load_gdpr_requirements).
Proof.
  repeat split; vm_compute; reflexivity.
Qed.

End GapSourceFacts.

(* ================================================================== *)
(** ** Missing and malformed fields *)
(* ================================================================== *)

Module DefaultFacts.
Import Py InputShape.





(** *** The risk scorer *)
















(** *** The remediation ranking *)


(** *** The current risks *)





End DefaultFacts.

(* ================================================================== *)
(** ** Properties of the remediation ranking *)
(* ================================================================== *)

Module RemediationFacts.
Import Py RecommendationEngine.

Lemma eq_str_spec (v : pyval) (s : string) :
  eq_str v s = true <-> v = VStr s.
Proof.
  destruct v; simpl; try (split; [discriminate|intro H; discriminate]).
  rewrite String.eqb_eq. split; [intros ->; reflexivity|intro H; injection H; auto].
Qed.

Lemma severity_spec (p : option pyval) :
  match p with
  | Some v =>
      if eq_str v "Critical" then 100
      else if eq_str v "High" then 75
      else if eq_str v "Medium" then 50
      else 25
  | None => 25
  end = RemediationSpec.severity p.
Proof.
  destruct p as [v|]; [|reflexivity].
  destruct (eq_str v "Critical") eqn:E1;
    [apply eq_str_spec in E1; subst v; reflexivity|].
  destruct (eq_str v "High") eqn:E2;
    [apply eq_str_spec in E2; subst v; reflexivity|].
  destruct (eq_str v "Medium") eqn:E3;
    [apply eq_str_spec in E3; subst v; reflexivity|].
  destruct v as [| | | |s| |]; try reflexivity.
  unfold eq_str in E1, E2, E3. unfold RemediationSpec.severity.
  destruct (String.eqb_spec s "Critical") as [_|N1]; [discriminate|].
  destruct (String.eqb_spec s "High") as [_|N2]; [discriminate|].
  destruct (String.eqb_spec s "Medium") as [_|N3]; [discriminate|].
  clear E1 E2 E3.
  repeat (first [reflexivity | congruence
                | match goal with
                  | |- context [match ?x with _ => _ end] => destruct x
                  end]).
Qed.

Lemma two_level_spec (v : pyval) (a b : Z) :
  (if eq_str v "Low" then a else if eq_str v "Medium" then b else 0)
  = match v with
    | VStr "Low" => a
    | VStr "Medium" => b
    | _ => 0
    end.
Proof.
  destruct (eq_str v "Low") eqn:E1;
    [apply eq_str_spec in E1; subst v; reflexivity|].
  destruct (eq_str v "Medium") eqn:E2;
    [apply eq_str_spec in E2; subst v; reflexivity|].
  destruct v as [| | | |s| |]; try reflexivity.
  unfold eq_str in E1, E2.
  destruct (String.eqb_spec s "Low") as [_|N1]; [discriminate|].
  destruct (String.eqb_spec s "Medium") as [_|N2]; [discriminate|].
  clear E1 E2.
  repeat (first [reflexivity | congruence
                | match goal with
                  | |- context [match ?x with _ => _ end] => destruct x
                  end]).
Qed.

Lemma priority_score_spec (gap : dict) :
  priority_score gap
  = RemediationSpec.severity (dict_get gap "priority")
    + RemediationSpec.complexity (dict_get_default gap "complexity" (VStr "Medium"))
    + RemediationSpec.cost (dict_get_default gap "cost" (VStr "Medium")).
Proof.
  unfold priority_score.
  rewrite <- severity_spec.
  unfold RemediationSpec.complexity, RemediationSpec.cost.
  rewrite <- !two_level_spec.
  destruct (dict_get gap "priority") as [v|];
    repeat match goal with
           | |- context [if ?b then _ else _] => destruct b
           end; lia.
Qed.

Lemma action_spec (s : Z) :
  String.prefix (RemediationSpec.band_label (RemediationSpec.band_of s)) (action s) = true.
Proof.
  unfold action, RemediationSpec.band_of.
  destruct (150 <=? s); [reflexivity|].
  destruct (100 <=? s); [reflexivity|].
  destruct (50 <=? s); reflexivity.
Qed.

Lemma score_gap_keys (gap : dict) :
  dict_get (score_gap gap) "priority_score" = Some (VInt (priority_score gap))
  /\ dict_get (score_gap gap) "action" = Some (VStr (action (priority_score gap)))
  /\ forall k, k <> "priority_score" -> k <> "action" ->
               dict_get (score_gap gap) k = dict_get gap k.
Proof.
  unfold score_gap. split; [|split].
  - rewrite PyFacts.dict_get_set_other by discriminate.
    apply PyFacts.dict_get_set_same.
  - apply PyFacts.dict_get_set_same.
  - intros k H1 H2.
    rewrite PyFacts.dict_get_set_other by congruence.
    apply PyFacts.dict_get_set_other. congruence.
Qed.

Lemma sort_key_score_gap (gap : dict) : sort_key (score_gap gap) = priority_score gap.
Proof.
  unfold sort_key. destruct (score_gap_keys gap) as [-> _]. reflexivity.
Qed.

(** C7.  For every list of gaps, [prioritize_remediation] returns the
    gaps, each with the two keys [priority_score] and [action] set and its
    other keys unchanged, where [priority_score] is the sum of the
    severity contribution (Critical 100, High 75, Medium 50, otherwise
    25), the complexity contribution (Low 30, Medium 15, High 0) and the
    cost contribution (Low 20, Medium 10, High 0), absent complexity and
    cost counting as Medium, and [action] starts with the urgency band of
    that total (at least 150 Immediate, at least 100 High Priority, at
    least 50 Medium Priority, else Low Priority).  The returned list is
    sorted by [priority_score], the highest first.  A gap with priority
    Critical, complexity Low and cost Low gets 150 and the Immediate
    action. *)
Theorem prioritize_remediation_scores_and_order :
  (forall gaps : list dict,
      Permutation (prioritize_remediation gaps) (map score_gap gaps)
      /\ StronglySorted (fun a b => sort_key b <= sort_key a)
                        (prioritize_remediation gaps))
  /\ (forall gap : dict,
         let total :=
           RemediationSpec.severity (dict_get gap "priority")
           + RemediationSpec.complexity (dict_get_default gap "complexity" (VStr "Medium"))
           + RemediationSpec.cost (dict_get_default gap "cost" (VStr "Medium")) in
         dict_get (score_gap gap) "priority_score" = Some (VInt total)
         /\ sort_key (score_gap gap) = total
         /\ (exists label,
                dict_get (score_gap gap) "action" = Some (VStr label)
                /\ String.prefix
                     (RemediationSpec.band_label (RemediationSpec.band_of total))
                     label = true)
         /\ (forall k, k <> "priority_score" -> k <> "action" ->
                       dict_get (score_gap gap) k = dict_get gap k))
  /\ RemediationSpec.complexity (VStr "High") = 0
  /\ RemediationSpec.cost (VStr "High") = 0
  /\ prioritize_remediation
       [[("priority", VStr "Critical"); ("complexity", VStr "Low"); ("cost", VStr "Low")]]
     = [[("priority", VStr "Critical"); ("complexity", VStr "Low"); ("cost", VStr "Low");
         ("priority_score", VInt 150);
         ("action", VStr "Immediate - Start within 1 week")]].
Proof.
  split; [|split; [|repeat split]].
  - intro gaps. unfold prioritize_remediation. split.
    + apply PyFacts.sort_desc_perm.
    + apply (PyFacts.sort_desc_sorted sort_key).
  - intros gap total. subst total. rewrite <- priority_score_spec.
    destruct (score_gap_keys gap) as [Hs [Ha Hk]].
    split; [exact Hs|]. split; [apply sort_key_score_gap|].
    split; [|exact Hk].
    eexists. split; [exact Ha|apply action_spec].
Qed.

End RemediationFacts.

(* ================================================================== *)
(** ** Properties of the document analyzer *)
(* ================================================================== *)

Module CompletenessFacts.
Import Py DocumentAnalyzer InputShape.

Lemma elements_get_unknown (doc_type : string) :
  ~ In doc_type known_document_types ->
  elements_get required_elements doc_type = [].
Proof.
  unfold known_document_types, required_elements. cbn -[String.eqb].
  intro H.
  destruct (String.eqb_spec "policy" doc_type) as [E|_]; [tauto|].
  destruct (String.eqb_spec "procedure" doc_type) as [E|_]; [tauto|].
  destruct (String.eqb_spec "contract" doc_type) as [E|_]; [tauto|].
  reflexivity.
Qed.

(** C8.  For every document text, [analyze_document] called with a document
    type other than policy, procedure and contract checks an empty list
    of required elements and returns a [completeness_score] of exactly
    100 with an empty [missing_elements] list. *)
Theorem unknown_document_type_is_complete (document_text document_type : string) :
  ~ In document_type known_document_types ->
  elements_get required_elements document_type = []
  /\ completeness_score (analyze_document document_text document_type) = PInt 100
  /\ missing_elements (analyze_document document_text document_type) = [].
Proof.
  intro H. pose proof (elements_get_unknown document_type H) as He.
  split; [exact He|].
  unfold analyze_document, _check_completeness.
  cbn [completeness_score missing_elements].
  rewrite He. split; reflexivity.
Qed.

Lemma unknown_document_type_is_complete_witness :
  elements_get required_elements "memo" = []
  /\ completeness_score
       (analyze_document "Purpose: all staff must follow the retention schedule." "memo")
     = PInt 100
  /\ missing_elements
       (analyze_document "Purpose: all staff must follow the retention schedule." "memo")
     = [].
Proof.
  apply (unknown_document_type_is_complete
           "Purpose: all staff must follow the retention schedule." "memo").
  unfold known_document_types. simpl.
  intros [H|[H|[H|[]]]]; discriminate.
Defined.

End CompletenessFacts.

Module RequirementFacts.
Import Py DocumentAnalyzer Sequences.
Local Open Scope list_scope.

Lemma sublist_refl {A : Type} (l : list A) : sublist l l.
Proof. induction l; constructor; assumption. Qed.

Lemma sublist_nil_l {A : Type} (l : list A) : sublist [] l.
Proof. induction l; constructor; assumption. Qed.

Lemma sublist_firstn {A : Type} (n : nat) (l : list A) : sublist (firstn n l) l.
Proof.
  revert n. induction l as [|x tl IH]; intros [|n]; simpl.
  - constructor.
  - constructor.
  - apply sublist_nil_l.
  - apply sublist_take, IH.
Qed.

Lemma sublist_in {A : Type} (l1 l2 : list A) (x : A) :
  sublist l1 l2 -> In x l1 -> In x l2.
Proof.
  induction 1; simpl; intros; auto. destruct H0; auto.
Qed.

Lemma sublist_NoDup {A : Type} (l1 l2 : list A) :
  sublist l1 l2 -> NoDup l2 -> NoDup l1.
Proof.
  induction 1 as [|x l1 l2 H IH|x l1 l2 H IH]; intro Hn.
  - constructor.
  - inversion Hn; auto.
  - inversion Hn; subst. constructor; auto.
    intro Hin. eapply sublist_in in Hin; eauto.
Qed.

Lemma sublist_map {A B : Type} (f : A -> B) (l1 l2 : list A) :
  sublist l1 l2 -> sublist (map f l1) (map f l2).
Proof. induction 1; simpl; constructor; assumption. Qed.

(** *** The matches of one pattern are in document order *)

Lemma finditer_from_ge (kw s : string) (pos skip : nat) (m : nat * string) :
  In m (finditer_from kw s pos skip) -> (pos <= fst m)%nat.
Proof.
  revert pos skip. induction s as [|c tl IH]; simpl; intros pos skip H.
  - contradiction.
  - destruct skip as [|k].
    + destruct (match_here kw (String c tl)) as [[grp len]|].
      * destruct H as [<-|H]; [simpl; lia|].
        apply IH in H. lia.
      * apply IH in H. lia.
    + apply IH in H. lia.
Qed.

Lemma finditer_from_sorted (kw s : string) (pos skip : nat) :
  StronglySorted starts_before (finditer_from kw s pos skip).
Proof.
  revert pos skip. induction s as [|c tl IH]; simpl; intros pos skip.
  - constructor.
  - destruct skip as [|k]; [|apply IH].
    destruct (match_here kw (String c tl)) as [[grp len]|]; [|apply IH].
    constructor; [apply IH|].
    apply Forall_forall. intros m Hm.
    apply finditer_from_ge in Hm. unfold starts_before. simpl. lia.
Qed.

(** *** The length filter *)

Lemma collect_in (ms : list (nat * string)) (r : requirement) :
  In r (collect ms) <->
  exists start grp,
    In (start, grp) ms
    /\ r = {| text := strip grp; type := "mandatory"; position := start |}
    /\ (10 < String.length (strip grp))%nat.
Proof.
  induction ms as [|[start grp] tl IH]; simpl.
  - split; [contradiction|intros [? [? [[] _]]]].
  - destruct (10 <? String.length (strip grp))%nat eqn:E.
    + simpl. rewrite IH. apply Nat.ltb_lt in E. split.
      * intros [<-|[s [g [Hin H]]]].
        -- exists start, grp. auto.
        -- exists s, g. tauto.
      * intros [s [g [[Heq|Hin] [Hr Hl]]]].
        -- injection Heq as <- <-. left. auto.
        -- right. exists s, g. auto.
    + rewrite IH. apply Nat.ltb_ge in E. split.
      * intros [s [g [Hin H]]]. exists s, g. tauto.
      * intros [s [g [[Heq|Hin] [Hr Hl]]]].
        -- injection Heq as <- <-. lia.
        -- exists s, g. auto.
Qed.

Lemma collect_sorted (ms : list (nat * string)) :
  StronglySorted starts_before ms -> StronglySorted earlier (collect ms).
Proof.
  induction ms as [|[start grp] tl IH]; simpl; intro Hs.
  - constructor.
  - apply StronglySorted_inv in Hs. destruct Hs as [Htl Hhd].
    destruct (10 <? String.length (strip grp))%nat; [|auto].
    constructor; [auto|].
    apply Forall_forall. intros r Hr.
    apply collect_in in Hr. destruct Hr as [s [g [Hin [-> _]]]].
    rewrite Forall_forall in Hhd. apply (Hhd _ Hin).
Qed.

(** *** The duplicate filter *)

Lemma existsb_eqb_in (t : string) (seen : list string) :
  existsb (String.eqb t) seen = true <-> In t seen.
Proof.
  rewrite existsb_exists. split.
  - intros [x [Hin Heq]]. apply String.eqb_eq in Heq. subst x. exact Hin.
  - intro Hin. exists t. split; [exact Hin|apply String.eqb_refl].
Qed.

Lemma remove_duplicates_sublist (seen : list string) (reqs : list requirement) :
  sublist (remove_duplicates seen reqs) reqs.
Proof.
  revert seen. induction reqs as [|r tl IH]; simpl; intro seen.
  - constructor.
  - destruct (existsb (String.eqb (text r)) seen); constructor; apply IH.
Qed.

Lemma remove_duplicates_fresh (seen : list string) (reqs : list requirement)
    (r : requirement) :
  In r (remove_duplicates seen reqs) -> ~ In (text r) seen.
Proof.
  revert seen. induction reqs as [|x tl IH]; simpl; intros seen H.
  - contradiction.
  - destruct (existsb (String.eqb (text x)) seen) eqn:E.
    + apply IH, H.
    + destruct H as [<-|H].
      * intro Hin. apply existsb_eqb_in in Hin. congruence.
      * apply IH in H. intro Hin. apply H. right. exact Hin.
Qed.

Lemma remove_duplicates_NoDup (seen : list string) (reqs : list requirement) :
  NoDup (map text (remove_duplicates seen reqs)).
Proof.
  revert seen. induction reqs as [|x tl IH]; simpl; intro seen.
  - constructor.
  - destruct (existsb (String.eqb (text x)) seen); [apply IH|].
    simpl. constructor; [|apply IH].
    intro Hin. apply in_map_iff in Hin. destruct Hin as [r [Heq Hr]].
    apply remove_duplicates_fresh in Hr. apply Hr. left. auto.
Qed.

(** A kept requirement is the first of the list with its text. *)
Lemma remove_duplicates_first (seen : list string) (reqs : list requirement)
    (r : requirement) :
  In r (remove_duplicates seen reqs) ->
  exists before after,
    reqs = before ++ r :: after /\ ~ In (text r) (map text before).
Proof.
  revert seen. induction reqs as [|x tl IH]; simpl; intros seen H.
  - contradiction.
  - destruct (existsb (String.eqb (text x)) seen) eqn:E.
    + pose proof (remove_duplicates_fresh _ _ _ H) as Hf.
      destruct (IH _ H) as [b [a [-> Hn]]].
      exists (x :: b), a. split; [reflexivity|].
      simpl. intros [Heq|Hin]; [|auto].
      apply existsb_eqb_in in E. congruence.
    + destruct H as [<-|H].
      * exists [], tl. split; [reflexivity|simpl; tauto].
      * pose proof (remove_duplicates_fresh _ _ _ H) as Hf.
        destruct (IH _ H) as [b [a [-> Hn]]].
        exists (x :: b), a. split; [reflexivity|].
        simpl. intros [Heq|Hin]; [|auto].
        apply Hf. left. exact Heq.
Qed.

(** Every text of the list survives the duplicate filter. *)
Lemma remove_duplicates_complete (seen : list string) (reqs : list requirement)
    (r : requirement) :
  In r reqs -> ~ In (text r) seen ->
  In (text r) (map text (remove_duplicates seen reqs)).
Proof.
  revert seen. induction reqs as [|x tl IH]; simpl; intros seen H Hn.
  - contradiction.
  - destruct (existsb (String.eqb (text x)) seen) eqn:E.
    + destruct H as [->|H]; [|auto].
      apply existsb_eqb_in in E. contradiction.
    + simpl. destruct H as [->|H]; [auto|].
      destruct (String.eqb_spec (text x) (text r)) as [Heq|Hne]; [auto|].
      right. apply IH; [exact H|].
      intros [Heq|Hin]; auto.
Qed.

Lemma all_requirements_patterns (document : string) :
  all_requirements document
  = collect (finditer "must" document) ++ collect (finditer "shall" document)
    ++ collect (finditer "required to" document)
    ++ collect (finditer "mandatory" document).
Proof.
  unfold all_requirements, requirement_keywords. simpl.
  rewrite app_nil_r. reflexivity.
Qed.

(** C5 (as amended).  For every input text, [_extract_requirements]
    returns at most 10 requirements with pairwise different texts; they
    are the first 10 of the list obtained from the matches of the four
    patterns, taken pattern after pattern in the order must, shall,
    required to, mandatory and inside one pattern by position in the
    text, by keeping of each text its first occurrence in that list. *)
Theorem extract_requirements_cap_dedup_order (document : string) :
  let scanned :=
    collect (finditer "must" document) ++ collect (finditer "shall" document)
    ++ collect (finditer "required to" document)
    ++ collect (finditer "mandatory" document) in
  (List.length (_extract_requirements document) <= 10)%nat
  /\ NoDup (map text (_extract_requirements document))
  /\ _extract_requirements document = firstn 10 (remove_duplicates [] scanned)
  /\ sublist (remove_duplicates [] scanned) scanned
  /\ (forall r, In r (remove_duplicates [] scanned) ->
        exists before after,
          scanned = before ++ r :: after /\ ~ In (text r) (map text before))
  /\ (forall r, In r scanned -> In (text r) (map text (remove_duplicates [] scanned)))
  /\ (forall kw, StronglySorted earlier (collect (finditer kw document))).
Proof.
  intro scanned. subst scanned. rewrite <- all_requirements_patterns.
  unfold _extract_requirements.
  split; [apply firstn_le_length|].
  split.
  { eapply sublist_NoDup; [|apply (remove_duplicates_NoDup [])].
    apply sublist_map, sublist_firstn. }
  split; [reflexivity|].
  split; [apply remove_duplicates_sublist|].
  split; [intros r Hr; eapply remove_duplicates_first; exact Hr|].
  split; [intros r Hr; apply remove_duplicates_complete; auto|].
  intro kw. apply collect_sorted, finditer_from_sorted.
Qed.

(** C5 fails as stated: the result is not in document order.  In the text
    below the obligation with [shall] comes first, at position 6, and the
    one with [must] second, at position 42; the result lists the [must]
    obligation first. *)
Lemma extract_requirements_not_in_document_order :
  exists a b,
    _extract_requirements
      "Staff shall encrypt all laptops. Visitors must sign the register."
    = [a; b]
    /\ text a = "sign the register" /\ position a = 42%nat
    /\ text b = "encrypt all laptops" /\ position b = 6%nat
    /\ (position b < position a)%nat.
Proof.
  eexists. eexists. split; [vm_compute; reflexivity|].
  repeat split. vm_compute. lia.
Qed.

(** C9 (as amended).  A span captured by one of the patterns is discarded
    exactly when its length after trimming is at most 10 characters: its
    requirement is collected if and only if the trimmed length exceeds
    10.  A span whose trimmed length is exactly 10 is discarded, one of
    length 11 is kept. *)
Theorem span_kept_iff_longer_than_ten
    (kw document : string) (start : nat) (grp : string) :
  In (start, grp) (finditer kw document) ->
  (In {| text := strip grp; type := "mandatory"; position := start |}
      (collect (finditer kw document))
   <-> (10 < String.length (strip grp))%nat)
  /\ collect [(start, "abcdefghij")] = []
  /\ collect [(start, "abcdefghijk")]
     = [{| text := "abcdefghijk"; type := "mandatory"; position := start |}].
Proof.
  intro Hin. split; [|split; reflexivity].
  rewrite collect_in. split.
  - intros [s [g [_ [Heq Hl]]]]. injection Heq as Ht _. rewrite Ht. exact Hl.
  - intro Hl. exists start, grp. auto.
Qed.

Lemma span_kept_iff_longer_than_ten_witness :
  (In {| text := strip "rotate keys "; type := "mandatory"; position := 7%nat |}
      (collect (finditer "must" "Admins must rotate keys ."))
   <-> (10 < String.length (strip "rotate keys "))%nat)
  /\ collect [(7%nat, "abcdefghij")] = []
  /\ collect [(7%nat, "abcdefghijk")]
     = [{| text := "abcdefghijk"; type := "mandatory"; position := 7%nat |}].
Proof.
  apply (span_kept_iff_longer_than_ten "must" "Admins must rotate keys ." 7 "rotate keys ").
  vm_compute. left. reflexivity.
Defined.

(** C9 fails as stated: the span captured below has exactly 10 characters
    after trimming and is discarded. *)
Lemma span_of_length_ten_is_discarded :
  finditer "must" "Users must lock doors." = [(6%nat, "lock doors")]
  /\ String.length (strip "lock doors") = 10%nat
  /\ _extract_requirements "Users must lock doors." = [].
Proof.
  repeat split.
Qed.

End RequirementFacts.

(* ================================================================== *)
(** ** Further facts on lists and on the error monad *)
(* ================================================================== *)

Module SequenceFacts.
Import Py Sequences.
Local Open Scope list_scope.

Lemma mapM_ok_Forall2 {A B : Type} (f : A -> result B) (xs : list A) (ys : list B) :
  mapM f xs = Ok ys -> Forall2 (fun x y => f x = Ok y) xs ys.
Proof.
  revert ys. induction xs as [|x tl IH]; simpl; intros ys H.
  - injection H as <-. constructor.
  - destruct (f x) as [y|e] eqn:Hx; simpl in H; [|discriminate].
    destruct (mapM f tl) as [ys0|e] eqn:Htl; simpl in H; [|discriminate].
    injection H as <-. constructor; auto.
Qed.

Lemma sublist_filter {A : Type} (p : A -> bool) (l : list A) : sublist (filter p l) l.
Proof.
  induction l as [|x tl IH]; simpl; [constructor|].
  destruct (p x); constructor; exact IH.
Qed.

Lemma Forall_filter {A : Type} (P : A -> Prop) (p : A -> bool) (l : list A) :
  Forall P l -> Forall P (filter p l).
Proof.
  intro H. apply Forall_forall. intros x Hx. apply filter_In in Hx.
  rewrite Forall_forall in H. apply H, Hx.
Qed.

Lemma list_sum_perm (l1 l2 : list nat) :
  Permutation l1 l2 -> list_sum l1 = list_sum l2.
Proof.
  induction 1; simpl; lia.
Qed.

Lemma StronglySorted_weaken {A : Type} (R1 R2 : A -> A -> Prop) (l : list A) :
  (forall a b, R1 a b -> R2 a b) -> StronglySorted R1 l -> StronglySorted R2 l.
Proof.
  intros HR Hs. induction Hs as [|a l Hs IH Ha]; constructor; [exact IH|].
  eapply Forall_impl; [|exact Ha]. intros b Hb. apply HR, Hb.
Qed.

Lemma filter_nil_existsb {A : Type} (p : A -> bool) (l : list A) :
  match filter p l with
  | [] => existsb p l = false
  | _ :: _ => existsb p l = true
  end.
Proof.
  induction l as [|x tl IH]; simpl; [reflexivity|].
  destruct (p x); simpl; [reflexivity|exact IH].
Qed.

End SequenceFacts.

(* ================================================================== *)
(** ** Further order facts of binary64 arithmetic *)
(* ================================================================== *)

Module Binary64Order.
Import Binary64 Binary64Facts.
Local Open Scope R_scope.

(** The order of two floats is the order of their values. *)
Lemma SFleb_of_val (m1 m2 : positive) (e1 e2 : Z) :
  canonical m1 e1 -> (e1 <= 971)%Z -> canonical m2 e2 -> (e2 <= 971)%Z ->
  val m1 e1 <= val m2 e2 ->
  SFleb (S754_finite false m1 e1) (S754_finite false m2 e2) = true.
Proof.
  intros C1 H1 C2 H2 Hv.
  rewrite <- (binary_round_aux_canonical m1 e1 C1 H1).
  rewrite <- (binary_round_aux_canonical m2 e2 C2 H2).
  eapply binary_round_aux_mono.
  - lia.
  - cbn [inbetween]. reflexivity.
  - cbn [Zdigits2]. rewrite C1. lia.
  - lia.
  - cbn [inbetween]. reflexivity.
  - cbn [Zdigits2]. rewrite C2. lia.
  - exact Hv.
Qed.

Lemma SFleb_trans (x y z : spec_float) :
  nonneg_sf x -> nonneg_sf y -> nonneg_sf z ->
  SFleb x y = true -> SFleb y z = true -> SFleb x z = true.
Proof.
  intros [Vx Hx] [Vy Hy] [Vz Hz] Hxy Hyz.
  destruct x as [?| | |[|] mx ex]; try contradiction; clear Hx;
    destruct z as [?| | |[|] mz ez]; try contradiction; clear Hz;
    destruct y as [?| | |[|] my ey]; try contradiction; clear Hy;
    try discriminate; try reflexivity.
  apply valid_canonical in Vx, Vy, Vz.
  destruct Vx as [Cx Ex], Vy as [Cy Ey], Vz as [Cz Ez].
  apply SFleb_of_val; try assumption.
  apply Rle_trans with (val my ey); apply SFleb_val; assumption.
Qed.

(** [x <= y] excludes [y < x]. *)
Lemma SFleb_not_ltb (x y : spec_float) : SFleb x y = true -> SFltb y x = false.
Proof.
  unfold SFleb, SFltb, SFcompare.
  destruct x as [[|]|[|]| |[|] m1 e1], y as [[|]|[|]| |[|] m2 e2];
    try reflexivity; try discriminate.
  - rewrite (Z.compare_antisym e1 e2).
    destruct (e1 ?= e2)%Z; cbn [CompOpp]; try reflexivity; try discriminate.
    fold (Pos.compare m1 m2). fold (Pos.compare m2 m1).
    rewrite (Pos.compare_antisym m2 m1).
    destruct (m2 ?= m1)%positive; cbn [CompOpp]; try reflexivity; discriminate.
  - rewrite (Z.compare_antisym e1 e2).
    destruct (e1 ?= e2)%Z; cbn [CompOpp]; try reflexivity; try discriminate.
    fold (Pos.compare m1 m2). fold (Pos.compare m2 m1).
    rewrite (Pos.compare_antisym m2 m1).
    destruct (m2 ?= m1)%positive; cbn [CompOpp]; try reflexivity; discriminate.
Qed.

Lemma val_one : val (2 ^ 52) (-52) = 1.
Proof.
  unfold val. change (Z.pos (2 ^ 52)) with (2 ^ 52)%Z.
  rewrite <- (pow2_IZR 52) by lia. rewrite <- pow2_add. apply pow2_0.
Qed.

(** Multiplying by a factor of at least one does not decrease, by a factor
    of at most one does not increase. *)
Lemma SFmul_ge_one (m mc : positive) (e ec : Z) :
  canonical m e -> (e <= 971)%Z -> canonical mc ec -> 1 <= val mc ec ->
  SFleb (S754_finite false m e)
        (SFmul prec emax (S754_finite false m e) (S754_finite false mc ec)) = true.
Proof.
  intros C He Cc Hc. rewrite SFmul_finite.
  rewrite <- (binary_round_aux_canonical m e C He) at 1.
  eapply binary_round_aux_mono.
  - lia.
  - cbn [inbetween]. reflexivity.
  - cbn [Zdigits2]. rewrite C. lia.
  - lia.
  - apply mul_inbetween.
  - apply mul_exponent_ok; assumption.
  - fold (val m e). pose proof (val_pos m e). nra.
Qed.

Lemma SFmul_le_one (m mc : positive) (e ec : Z) :
  canonical m e -> (e <= 971)%Z -> canonical mc ec -> val mc ec <= 1 ->
  SFleb (SFmul prec emax (S754_finite false m e) (S754_finite false mc ec))
        (S754_finite false m e) = true.
Proof.
  intros C He Cc Hc. rewrite SFmul_finite.
  rewrite <- (binary_round_aux_canonical m e C He).
  eapply binary_round_aux_mono.
  - lia.
  - apply mul_inbetween.
  - apply mul_exponent_ok; assumption.
  - lia.
  - cbn [inbetween]. reflexivity.
  - cbn [Zdigits2]. rewrite C. lia.
  - fold (val m e). pose proof (val_pos m e). pose proof (val_pos mc ec). nra.
Qed.

(** *** Subtraction and addition *)

(** [c - d] for finite positive [d <= c]: zero, or the rounding of the
    exact difference. *)
Lemma SFsub_spec (mc md : positive) (ec ed : Z) :
  val md ed <= val mc ec ->
  let r := SFsub prec emax (S754_finite false mc ec) (S754_finite false md ed) in
  (val md ed = val mc ec /\ r = S754_zero false)
  \/ (val md ed < val mc ec
      /\ exists mz ez,
           r = binary_round_aux prec emax false (Zpos mz) ez loc_Exact
           /\ inbetween (Zpos mz) ez loc_Exact (val mc ec - val md ed)
           /\ (ez <= fexp64 (Zdigits2 (Zpos mz) + ez))%Z).
Proof.
  intros Hle r. subst r. unfold SFsub. cbn [cond_Zopp].
  destruct (shl_align_spec mc ec (Z.min ec ed)) as [a [Ha [Hza _]]].
  destruct (shl_align_spec md ed (Z.min ec ed)) as [b [Hb [Hzb _]]].
  rewrite Ha, Hb. cbn [fst].
  replace (Z.min ec (Z.min ec ed)) with (Z.min ec ed) in Hza by lia.
  replace (Z.min ed (Z.min ec ed)) with (Z.min ec ed) in Hzb by lia.
  set (ez := Z.min ec ed) in *.
  pose proof (shl_align_val mc a ec ez Hza ltac:(lia)) as Va.
  pose proof (shl_align_val md b ed ez Hzb ltac:(lia)) as Vb.
  assert (Hval : val mc ec - val md ed = IZR (Z.pos a - Z.pos b) * pow2 ez).
  { rewrite minus_IZR, Rmult_minus_distr_r. fold (val a ez). fold (val b ez). lra. }
  unfold binary_normalize.
  destruct (Z.pos a - Z.pos b)%Z as [|p|p] eqn:Ed.
  - left. split; [|reflexivity]. rewrite Rmult_0_l in Hval. lra.
  - right. fold (val p ez) in Hval. pose proof (val_pos p ez).
    split; [lra|].
    destruct (binary_round_spec p ez) as [mz [ez' [-> [Hin He]]]].
    exists mz, ez'. split; [reflexivity|]. split; [rewrite Hval; exact Hin|exact He].
  - exfalso. assert (IZR (Z.neg p) < 0) by (apply IZR_lt; lia).
    pose proof (pow2_pos ez). nra.
Qed.

(** Subtracting more leaves less. *)
Theorem SFsub_anti (mc m1 m2 : positive) (ec e1 e2 : Z) :
  val m1 e1 <= val m2 e2 -> val m2 e2 <= val mc ec ->
  SFleb (SFsub prec emax (S754_finite false mc ec) (S754_finite false m2 e2))
        (SFsub prec emax (S754_finite false mc ec) (S754_finite false m1 e1)) = true.
Proof.
  intros H12 H2c.
  destruct (SFsub_spec mc m2 ec e2 H2c) as [[Hv ->]|[Hv [mz [ez [-> [Hin He]]]]]].
  - destruct (SFsub_spec mc m1 ec e1 ltac:(lra)) as [[Hv1 ->]|[Hv1 [mz [ez [-> [Hin He]]]]]].
    + reflexivity.
    + eapply binary_round_aux_valid; [|exact Hin|exact He]. lia.
  - destruct (SFsub_spec mc m1 ec e1 ltac:(lra)) as [[Hv1 ->]|[Hv1 [mz1 [ez1 [-> [Hin1 He1]]]]]].
    + lra.
    + eapply binary_round_aux_mono; [|exact Hin|exact He| |exact Hin1|exact He1|]; try lia.
      lra.
Qed.

(** [x + y] for finite positive floats: the rounding of the exact sum. *)
Lemma SFadd_spec (mx my : positive) (ex ey : Z) :
  exists mz ez,
    SFadd prec emax (S754_finite false mx ex) (S754_finite false my ey)
    = binary_round_aux prec emax false (Zpos mz) ez loc_Exact
    /\ inbetween (Zpos mz) ez loc_Exact (val mx ex + val my ey)
    /\ (ez <= fexp64 (Zdigits2 (Zpos mz) + ez))%Z.
Proof.
  unfold SFadd. cbn [cond_Zopp].
  destruct (shl_align_spec mx ex (Z.min ex ey)) as [a [Ha [Hza _]]].
  destruct (shl_align_spec my ey (Z.min ex ey)) as [b [Hb [Hzb _]]].
  rewrite Ha, Hb. cbn [fst].
  replace (Z.min ex (Z.min ex ey)) with (Z.min ex ey) in Hza by lia.
  replace (Z.min ey (Z.min ex ey)) with (Z.min ex ey) in Hzb by lia.
  set (ez := Z.min ex ey) in *.
  pose proof (shl_align_val mx a ex ez Hza ltac:(lia)) as Va.
  pose proof (shl_align_val my b ey ez Hzb ltac:(lia)) as Vb.
  unfold binary_normalize. cbn [Z.add].
  destruct (binary_round_spec (a + b) ez) as [mz [ez' [-> [Hin He]]]].
  exists mz, ez'. split; [reflexivity|]. split; [|exact He].
  replace (val mx ex + val my ey) with (val (a + b) ez); [exact Hin|].
  rewrite <- Va, <- Vb. unfold val. rewrite Pos2Z.inj_add, plus_IZR. ring.
Qed.

Theorem SFadd_mono (a1 b1 a2 b2 : positive) (ea1 eb1 ea2 eb2 : Z) :
  val a1 ea1 <= val a2 ea2 -> val b1 eb1 <= val b2 eb2 ->
  SFleb (SFadd prec emax (S754_finite false a1 ea1) (S754_finite false b1 eb1))
        (SFadd prec emax (S754_finite false a2 ea2) (S754_finite false b2 eb2)) = true.
Proof.
  intros Ha Hb.
  destruct (SFadd_spec a1 b1 ea1 eb1) as [m1 [e1 [-> [I1 E1]]]].
  destruct (SFadd_spec a2 b2 ea2 eb2) as [m2 [e2 [-> [I2 E2]]]].
  eapply binary_round_aux_mono; [|exact I1|exact E1| |exact I2|exact E2|]; try lia.
  lra.
Qed.

(** *** The same facts on primitive floats *)

Local Open Scope float_scope.

Lemma leb_trans (x y z : float) :
  nonneg_finite x -> nonneg_finite y -> nonneg_finite z ->
  (x <=? y) = true -> (y <=? z) = true -> (x <=? z) = true.
Proof.
  intros Hx Hy Hz. rewrite !FloatAxioms.leb_spec.
  apply SFleb_trans; apply nonneg_finite_sf; assumption.
Qed.

Lemma leb_not_ltb (x y : float) : (x <=? y) = true -> (y <? x) = false.
Proof.
  rewrite FloatAxioms.leb_spec, FloatAxioms.ltb_spec. apply SFleb_not_ltb.
Qed.

Lemma mul_ge_one (a c : float) :
  nonneg_finite a -> nonneg_finite c -> (1 <=? c) = true -> (a <=? a * c) = true.
Proof.
  intros Ha Hc H. rewrite FloatAxioms.leb_spec in *. rewrite FloatAxioms.mul_spec.
  pose proof (Prim2SF_valid a) as Va. pose proof (Prim2SF_valid c) as Vc.
  unfold nonneg_finite in Ha, Hc.
  change (Prim2SF 1) with (S754_finite false (2 ^ 52) (-52)) in H.
  destruct (Prim2SF c) as [?| | |[|] mc ec]; try contradiction; try discriminate.
  destruct (Prim2SF a) as [[|]| | |[|] m e]; try contradiction; try reflexivity.
  apply valid_canonical in Va, Vc. destruct Va as [Ca Ea], Vc as [Cc Ec].
  apply SFmul_ge_one; try assumption.
  rewrite <- val_one. apply SFleb_val; [reflexivity|exact Cc|exact H].
Qed.

Lemma mul_le_one (a c : float) :
  nonneg_finite a -> nonneg_finite c -> (c <=? 1) = true -> (a * c <=? a) = true.
Proof.
  intros Ha Hc H. rewrite FloatAxioms.leb_spec in *. rewrite FloatAxioms.mul_spec.
  pose proof (Prim2SF_valid a) as Va. pose proof (Prim2SF_valid c) as Vc.
  unfold nonneg_finite in Ha, Hc.
  change (Prim2SF 1) with (S754_finite false (2 ^ 52) (-52)) in H.
  destruct (Prim2SF a) as [[|]| | |[|] m e]; try contradiction;
    destruct (Prim2SF c) as [[|]| | |[|] mc ec]; try contradiction; try reflexivity.
  apply valid_canonical in Va, Vc. destruct Va as [Ca Ea], Vc as [Cc Ec].
  apply SFmul_le_one; try assumption.
  rewrite <- val_one. apply SFleb_val; [exact Cc|reflexivity|exact H].
Qed.

(** [c - d] falls when [d] rises, for [0 <= d <= c]. *)
Theorem sub_anti (c d1 d2 : float) :
  positive_finite c -> nonneg_finite d1 -> nonneg_finite d2 ->
  (d1 <=? d2) = true -> (d2 <=? c) = true -> (c - d2 <=? c - d1) = true.
Proof.
  intros Hc H1 H2 H12 H2c. rewrite !FloatAxioms.leb_spec in *.
  rewrite !FloatAxioms.sub_spec.
  pose proof (Prim2SF_valid c) as Vc. pose proof (Prim2SF_valid d1) as V1.
  pose proof (Prim2SF_valid d2) as V2.
  unfold positive_finite in Hc. unfold nonneg_finite in H1, H2.
  destruct (Prim2SF c) as [?| | |[|] mc ec]; try contradiction.
  apply valid_canonical in Vc. destruct Vc as [Cc Hec].
  destruct (Prim2SF d2) as [?| | |[|] m2 e2]; try contradiction;
    destruct (Prim2SF d1) as [?| | |[|] m1 e1]; try contradiction;
    try discriminate.
  - apply SFleb_finite. right. split; [reflexivity|lia].
  - apply valid_canonical in V2. destruct V2 as [C2 _].
    pose proof (SFleb_val _ _ _ _ C2 Cc H2c) as Hv.
    apply (SFsub_bounds mc m2 ec e2 Cc Hec Hv).
  - apply valid_canonical in V1, V2. destruct V1 as [C1 _], V2 as [C2 _].
    apply SFsub_anti; apply SFleb_val; assumption.
Qed.

(** Addition is monotone. *)
Theorem add_le (x1 y1 x2 y2 : float) :
  nonneg_finite x1 -> nonneg_finite y1 -> nonneg_finite x2 -> nonneg_finite y2 ->
  (x1 <=? x2) = true -> (y1 <=? y2) = true ->
  (x1 + y1 <=? x2 + y2) = true.
Proof.
  intros Hx1 Hy1 Hx2 Hy2 Hx Hy. rewrite FloatAxioms.leb_spec in *.
  rewrite !FloatAxioms.add_spec. unfold SF64add.
  pose proof (Prim2SF_valid x1) as Vx1. pose proof (Prim2SF_valid y1) as Vy1.
  pose proof (Prim2SF_valid x2) as Vx2. pose proof (Prim2SF_valid y2) as Vy2.
  unfold nonneg_finite in *.
  destruct (Prim2SF x1) as [[|]| | |[|] a1 ea1]; try contradiction;
    destruct (Prim2SF x2) as [[|]| | |[|] a2 ea2]; try contradiction;
    try discriminate;
    destruct (Prim2SF y1) as [[|]| | |[|] b1 eb1]; try contradiction;
    destruct (Prim2SF y2) as [[|]| | |[|] b2 eb2]; try contradiction;
    try discriminate; try reflexivity; try assumption;
    repeat match goal with
           | V : valid_binary (S754_finite _ _ _) = true |- _ =>
               apply valid_canonical in V; destruct V
           end;
    try (apply SFadd_mono; apply SFleb_val; assumption);
    try (destruct (SFadd_spec a2 b2 ea2 eb2) as [mz [ez [E [Hin He]]]];
         cbn [SFadd] in E |- *; rewrite E;
         first
           [ eapply binary_round_aux_valid; [|exact Hin|exact He]; lia
           | match goal with
             | C : canonical ?m ?e, L : (?e <= 971)%Z
               |- SFleb (S754_finite false ?m ?e) _ = true =>
                 rewrite <- (binary_round_aux_canonical m e C L);
                 eapply binary_round_aux_mono;
                 [lia|cbn [inbetween]; reflexivity|cbn [Zdigits2]; rewrite C; lia
                 |lia|exact Hin|exact He|]
             end ]).
  all: try (match goal with
            | |- (IZR (Z.pos ?m) * pow2 ?e <= _)%R => fold (val m e)
            end;
            repeat match goal with
                   | H : SFleb (S754_finite false ?p ?e1) (S754_finite false ?q ?e2) = true,
                     C1 : canonical ?p ?e1, C2 : canonical ?q ?e2 |- _ =>
                       apply (SFleb_val p q e1 e2 C1 C2) in H
                   end;
            pose proof (val_pos a2 ea2); pose proof (val_pos b2 eb2); lra).
Qed.

End Binary64Order.

(* ================================================================== *)
(** ** The gap report: accounting, gaps and recommendations *)
(* ================================================================== *)

(** The statements of this module are statements of [gap_analysis.py]
    repaired, as [GapAnalysis] embeds it. *)
Module GapReportFacts.
Import Py GapAnalysis InputShape Sequences GapSpec.
Local Open Scope list_scope.

Lemma control_id_of_str (ctrl v : pyval) (s : string) :
  control_id_of ctrl = Ok v ->
  (eq_str v s = true <-> subscript ctrl "id" = Ok (VStr s)).
Proof.
  unfold control_id_of. destruct (subscript ctrl "id") as [w|e]; unfold bind;
    [|discriminate].
  unfold hashable. destruct w; try discriminate; intro H; injection H as <-; simpl;
    try (split; [discriminate|intro H; discriminate]).
  rewrite String.eqb_eq. split; [intros ->; reflexivity|intro H; injection H; auto].
Qed.

Lemma implemented_declares (current_controls ids : list pyval) (req_id : string) :
  mapM control_id_of current_controls = Ok ids ->
  (implemented ids req_id = true <-> declares current_controls req_id).
Proof.
  intro H. apply SequenceFacts.mapM_ok_Forall2 in H. unfold implemented, declares.
  rewrite existsb_exists. induction H as [|c v cs vs Hcv HF IH].
  - split; [intros [x [[] _]]|intros [x [[] _]]].
  - split.
    + intros [x [[<-|Hin] Hx]].
      * exists c. split; [left; reflexivity|].
        apply (control_id_of_str c v); assumption.
      * destruct (proj1 IH) as [c' [Hc' Hs]]; [exists x; auto|].
        exists c'. split; [right|]; assumption.
    + intros [c' [[<-|Hin] Hs]].
      * exists v. split; [left; reflexivity|].
        apply (control_id_of_str c v); assumption.
      * destruct (proj2 IH) as [x [Hx Hs']]; [exists c'; auto|].
        exists x. split; [right|]; assumption.
Qed.

(** The report of a call that returns, written from the catalog entry of
    the framework and the identifiers read from the controls. *)
Lemma analyze_gaps_ok (now framework : string) (current_controls : list pyval)
    (report : gap_report) :
  analyze_gaps now framework current_controls = Ok report ->
  exists required ids,
    frameworks_get frameworks framework = Some required
    /\ mapM control_id_of current_controls = Ok ids
    /\ gaps report
       = map gap_of (filter (fun r => negb (implemented ids (id r))) required)
    /\ total_required report = List.length required
    /\ total_implemented report = (List.length required - List.length (gaps report))%nat
    /\ total_gaps report = List.length (gaps report)
    /\ critical_gaps report = List.length (filter is_critical (gaps report))
    /\ high_priority_gaps report = List.length (filter is_high (gaps report))
    /\ completion_rate report
       = round_num
           (if (0 <? List.length required)%nat
            then PFloat ((float_of_nat (List.length required - List.length (gaps report))
                          / float_of_nat (List.length required)) * 100)%float
            else PInt 0) 2
    /\ recommendations report = _generate_recommendations (gaps report).
Proof.
  unfold analyze_gaps.
  destruct (frameworks_get frameworks framework) as [required|]; [|discriminate].
  destruct (mapM control_id_of current_controls) as [ids|e]; unfold bind; [|discriminate].
  intro H. injection H as <-. exists required, ids.
  cbn [gaps total_required total_implemented total_gaps critical_gaps
       high_priority_gaps completion_rate recommendations].
  repeat split; reflexivity.
Qed.

Lemma frameworks_get_cases (framework : string) (required : list control) :
  frameworks_get frameworks framework = Some required ->
  required = _load_iso27001_controls \/ required = _load_soc2_controls
  \/ required = _load_gdpr_requirements.
Proof.
  unfold frameworks. cbn [frameworks_get].
  destruct (String.eqb "iso27001" framework); [intro H; injection H; auto|].
  destruct (String.eqb "soc2" framework); [intro H; injection H; auto|].
  destruct (String.eqb "gdpr" framework); [intro H; injection H; auto|].
  discriminate.
Qed.

Lemma catalog_priorities (framework : string) (required : list control) :
  frameworks_get frameworks framework = Some required ->
  Forall (fun r => priority r = "Critical" \/ priority r = "High") required.
Proof.
  intro H. destruct (frameworks_get_cases _ _ H) as [-> | [-> | ->]];
    repeat (apply Forall_cons; [simpl; auto|]); apply Forall_nil.
Qed.

Lemma critical_or_high (l : list control) :
  Forall (fun r => priority r = "Critical" \/ priority r = "High") l ->
  (List.length (filter is_critical (map gap_of l))
   + List.length (filter is_high (map gap_of l)) = List.length (map gap_of l))%nat.
Proof.
  induction 1 as [|r tl Hr _ IH]; [reflexivity|].
  cbn [map filter]. unfold is_critical at 1, is_high at 1. cbn [gap_of gap_priority].
  destruct Hr as [-> | ->]; cbn [String.eqb Ascii.eqb Bool.eqb List.length];
    cbn [List.length] in *; lia.
Qed.

(** *** The category counter *)

Lemma counted_count_category (cats : list (string * nat)) (c c' : string) :
  counted (count_category cats c) c'
  = if String.eqb c c' then S (counted cats c') else counted cats c'.
Proof.
  induction cats as [|[c0 n] tl IH]; simpl.
  - destruct (String.eqb c c'); reflexivity.
  - destruct (String.eqb_spec c0 c) as [->|Hne]; simpl.
    + destruct (String.eqb c c'); reflexivity.
    + rewrite IH. destruct (String.eqb_spec c0 c') as [->|Hne'].
      * destruct (String.eqb_spec c c'); [congruence|reflexivity].
      * reflexivity.
Qed.

Lemma counted_fold (gaps : list gap) (acc : list (string * nat)) (c : string) :
  counted (fold_left (fun cats g => count_category cats (gap_category g)) gaps acc) c
  = (counted acc c + category_count gaps c)%nat.
Proof.
  revert acc. induction gaps as [|g tl IH]; intro acc; simpl.
  - unfold category_count. simpl. lia.
  - rewrite IH, counted_count_category. unfold category_count. simpl.
    destruct (String.eqb (gap_category g) c); simpl; lia.
Qed.

Lemma keys_count_category (cats : list (string * nat)) (c k : string) :
  In k (map fst (count_category cats c)) <-> k = c \/ In k (map fst cats).
Proof.
  induction cats as [|[c0 n] tl IH]; simpl.
  - intuition congruence.
  - destruct (String.eqb_spec c0 c) as [->|Hne]; simpl.
    + intuition congruence.
    + rewrite IH. intuition congruence.
Qed.

Lemma well_counted_count_category (cats : list (string * nat)) (c : string) :
  well_counted cats -> well_counted (count_category cats c).
Proof.
  unfold well_counted. induction cats as [|[c0 n] tl IH]; simpl; intros [Hn Hp].
  - split; repeat constructor; simpl; auto.
  - inversion Hn as [|? ? Hnotin Hn']; subst. inversion Hp as [|? ? Hp0 Hp']; subst.
    destruct (String.eqb_spec c0 c) as [->|Hne]; simpl.
    + split; constructor; simpl; auto; lia.
    + destruct (IH (conj Hn' Hp')) as [IH1 IH2].
      split; constructor; auto.
      rewrite keys_count_category. intros [H|H]; [congruence|contradiction].
Qed.

Lemma well_counted_fold (gaps : list gap) (acc : list (string * nat)) :
  well_counted acc ->
  well_counted (fold_left (fun cats g => count_category cats (gap_category g)) gaps acc).
Proof.
  revert acc. induction gaps as [|g tl IH]; intros acc H; simpl; [exact H|].
  apply IH, well_counted_count_category, H.
Qed.

Lemma well_counted_in (cats : list (string * nat)) (c : string) (n : nat) :
  well_counted cats ->
  (In (c, n) cats <-> n = counted cats c /\ (0 < n)%nat).
Proof.
  unfold well_counted. induction cats as [|[c0 n0] tl IH]; simpl; intros [Hn Hp].
  - split; [contradiction|lia].
  - inversion Hn as [|? ? Hnotin Hn']; subst. inversion Hp as [|? ? Hp0 Hp']; subst.
    simpl in Hp0. specialize (IH (conj Hn' Hp')).
    destruct (String.eqb_spec c0 c) as [->|Hne].
    + split.
      * intros [H|H]; [injection H as <-; split; [reflexivity|exact Hp0]|].
        exfalso. apply Hnotin. apply in_map_iff. exists (c, n). auto.
      * intros [-> _]. left. reflexivity.
    + rewrite <- IH. split; [intros [H|H]; [congruence|exact H]|auto].
Qed.

Lemma list_sum_count_category (cats : list (string * nat)) (c : string) :
  list_sum (map snd (count_category cats c)) = S (list_sum (map snd cats)).
Proof.
  induction cats as [|[c0 n] tl IH]; simpl; [reflexivity|].
  destruct (String.eqb c0 c); simpl; [reflexivity|]. rewrite IH. lia.
Qed.

Lemma list_sum_fold (gaps : list gap) (acc : list (string * nat)) :
  list_sum (map snd (fold_left (fun cats g => count_category cats (gap_category g))
                               gaps acc))
  = (list_sum (map snd acc) + List.length gaps)%nat.
Proof.
  revert acc. induction gaps as [|g tl IH]; intro acc; simpl; [lia|].
  rewrite IH, list_sum_count_category. lia.
Qed.

(** X1.  Of [gap_analysis.py] with line 79 repaired.  In a report
    [analyze_gaps] returns, the counts agree with the list of gaps:
    [total_gaps] is its length, [total_gaps] and [total_implemented] add
    up to [total_required], which is the size of the catalog of the
    framework, and every gap is counted once as critical or as high
    priority, [critical_gaps] and [high_priority_gaps] adding up to
    [total_gaps]; the gap of Art.33 is counted by the priority High that
    the repaired line gives it. *)
Theorem analyze_gaps_accounting
    (now framework : string) (current_controls : list pyval) (report : gap_report) :
  analyze_gaps now framework current_controls = Ok report ->
  total_gaps report = List.length (gaps report)
  /\ (total_gaps report + total_implemented report = total_required report)%nat
  /\ (critical_gaps report + high_priority_gaps report = total_gaps report)%nat
  /\ (exists required,
        frameworks_get frameworks framework = Some required
        /\ total_required report = List.length required)
  /\ (2 <= total_required report <= 3)%nat.
Proof.
  intro H. apply analyze_gaps_ok in H.
  destruct H as [required [ids [Hreq [_ [Hg [Htr [Hti [Htg [Hc [Hh _]]]]]]]]]].
  rewrite Htg, Hti, Htr, Hc, Hh, Hreq.
  split; [reflexivity|].
  assert (Hle : (List.length (gaps report) <= List.length required)%nat).
  { rewrite Hg, length_map. apply filter_length_le. }
  split; [lia|].
  split.
  { rewrite Hg. apply critical_or_high, SequenceFacts.Forall_filter.
    eapply catalog_priorities; exact Hreq. }
  split; [exists required; split; reflexivity|].
  destruct (frameworks_get_cases _ _ Hreq) as [-> | [-> | ->]]; simpl; lia.
Qed.

Lemma analyze_gaps_accounting_witness :
  exists report,
    analyze_gaps "2024-05-01T09:30:00" "iso27001"
      [VDict [("id", VStr "A.5.1"); ("name", VStr "Info Sec Policy")]] = Ok report
    /\ total_gaps report = 2%nat
    /\ total_gaps report = List.length (gaps report)
    /\ (total_gaps report + total_implemented report = total_required report)%nat
    /\ (critical_gaps report + high_priority_gaps report = total_gaps report)%nat.
Proof.
  eexists. split; [vm_compute; reflexivity|].
  split; [reflexivity|].
  pose proof (analyze_gaps_accounting "2024-05-01T09:30:00" "iso27001"
                [VDict [("id", VStr "A.5.1"); ("name", VStr "Info Sec Policy")]]
                _ eq_refl) as H.
  destruct H as [H1 [H2 [H3 _]]]. split; [exact H1|]. split; [exact H2|exact H3].
Defined.

Lemma gap_of_inj (r1 r2 : control) : gap_of r1 = gap_of r2 -> r1 = r2.
Proof.
  destruct r1, r2. unfold gap_of. simpl. intro H. injection H. intros; subst. reflexivity.
Qed.

(** X2.  Of [gap_analysis.py] with line 79 repaired.  The gaps of a
    report are the catalog requirements no implemented control carries
    the identifier of: a requirement of the framework is
    listed as a gap exactly when no entry of the implemented controls has
    its identifier as [id]; every gap copies the fields of one catalog
    requirement and has status Missing; and the gaps come in catalog
    order. *)
Theorem gaps_are_the_undeclared_requirements
    (now framework : string) (current_controls : list pyval) (report : gap_report) :
  analyze_gaps now framework current_controls = Ok report ->
  exists required,
    frameworks_get frameworks framework = Some required
    /\ sublist (gaps report) (map gap_of required)
    /\ (forall r, In r required ->
          (In (gap_of r) (gaps report) <-> ~ declares current_controls (id r)))
    /\ (forall g, In g (gaps report) ->
          exists r, In r required /\ g = gap_of r /\ status g = "Missing"
                    /\ ~ declares current_controls (control_id g)).
Proof.
  intro H. apply analyze_gaps_ok in H.
  destruct H as [required [ids [Hreq [Hids [Hg _]]]]].
  exists required. split; [exact Hreq|]. rewrite Hg.
  assert (Hnot : forall r, negb (implemented ids (id r)) = true
                           <-> ~ declares current_controls (id r)).
  { intro r. rewrite <- (implemented_declares _ _ (id r) Hids).
    destruct (implemented ids (id r)); simpl; split; congruence. }
  split; [apply RequirementFacts.sublist_map, SequenceFacts.sublist_filter|].
  split.
  - intros r Hr. rewrite <- Hnot. split.
    + intro Hin. apply in_map_iff in Hin. destruct Hin as [r' [Heq Hin]].
      apply gap_of_inj in Heq. subst r'. apply filter_In in Hin. apply Hin.
    + intro Hn. apply in_map. apply filter_In. split; assumption.
  - intros g Hin. apply in_map_iff in Hin. destruct Hin as [r [<- Hin]].
    apply filter_In in Hin. destruct Hin as [Hin Hn].
    exists r. split; [exact Hin|]. split; [reflexivity|]. split; [reflexivity|].
    apply Hnot, Hn.
Qed.

Lemma gaps_are_the_undeclared_requirements_witness :
  exists report required,
    analyze_gaps "2024-05-01T09:30:00" "soc2"
      [VDict [("id", VStr "CC6.1"); ("status", VStr "Implemented")]] = Ok report
    /\ frameworks_get frameworks "soc2" = Some required
    /\ sublist (gaps report) (map gap_of required)
    /\ List.length (gaps report) = 1%nat.
Proof.
  destruct (gaps_are_the_undeclared_requirements "2024-05-01T09:30:00" "soc2"
              [VDict [("id", VStr "CC6.1"); ("status", VStr "Implemented")]]
              _ eq_refl) as [required [Hreq [Hsub _]]].
  eexists. exists required.
  split; [reflexivity|]. split; [exact Hreq|]. split; [exact Hsub|reflexivity].
Defined.

Lemma has_id_mapM (current_controls : list pyval) :
  forallb has_id current_controls = true ->
  exists ids, mapM control_id_of current_controls = Ok ids.
Proof.
  intro H.
  rewrite <- (PyFacts.forallb_pointwise _ _ GapFacts.control_id_of_ok) in H.
  rewrite <- PyFacts.mapM_is_ok in H.
  destruct (mapM control_id_of current_controls) as [ids|e]; [|discriminate].
  exists ids. reflexivity.
Qed.

(** X3.  Of [gap_analysis.py] with line 79 repaired.  The report depends
    on the implemented controls only through the identifiers they carry: two lists of well-formed entries that carry
    the same identifiers give the same result, whatever the order of the
    entries, their repetitions and their other keys. *)
Theorem analyze_gaps_depends_on_identifiers_only
    (now framework : string) (controls1 controls2 : list pyval) :
  forallb has_id controls1 = true -> forallb has_id controls2 = true ->
  (forall s, declares controls1 s <-> declares controls2 s) ->
  analyze_gaps now framework controls1 = analyze_gaps now framework controls2.
Proof.
  intros H1 H2 Hsame. unfold analyze_gaps.
  destruct (frameworks_get frameworks framework) as [required|]; [|reflexivity].
  destruct (has_id_mapM _ H1) as [ids1 E1]. destruct (has_id_mapM _ H2) as [ids2 E2].
  rewrite E1, E2. unfold bind.
  assert (Hext : forall r : control,
             negb (implemented ids1 (id r)) = negb (implemented ids2 (id r))).
  { intro r. f_equal.
    pose proof (implemented_declares _ _ (id r) E1) as A1.
    pose proof (implemented_declares _ _ (id r) E2) as A2.
    specialize (Hsame (id r)).
    destruct (implemented ids1 (id r)), (implemented ids2 (id r)); try reflexivity.
    - symmetry. apply A2, Hsame, A1. reflexivity.
    - apply A1, Hsame, A2. reflexivity. }
  rewrite (filter_ext _ _ Hext). reflexivity.
Qed.

Lemma analyze_gaps_depends_on_identifiers_only_witness :
  analyze_gaps "2024-05-01T09:30:00" "iso27001"
    [VDict [("id", VStr "A.5.1")]; VDict [("id", VStr "A.8.1")]]
  = analyze_gaps "2024-05-01T09:30:00" "iso27001"
      [VDict [("owner", VStr "IT"); ("id", VStr "A.8.1")];
       VDict [("id", VStr "A.5.1")]; VDict [("id", VStr "A.8.1")]].
Proof.
  apply analyze_gaps_depends_on_identifiers_only; [reflexivity|reflexivity|].
  intro s. unfold declares. split.
  - intros [c [[<-|[<-|[]]] Hs]]; vm_compute in Hs; injection Hs as <-.
    + eexists. split; [right; left; reflexivity|reflexivity].
    + eexists. split; [left; reflexivity|reflexivity].
  - intros [c [[<-|[<-|[<-|[]]]] Hs]]; vm_compute in Hs; injection Hs as <-.
    + eexists. split; [right; left; reflexivity|reflexivity].
    + eexists. split; [left; reflexivity|reflexivity].
    + eexists. split; [right; left; reflexivity|reflexivity].
Defined.

(** X4.  Of [gap_analysis.py] with line 79 repaired.  The
    [completion_rate] of a report is a float between 0 and 100;
    it is 100 exactly when the report has no gap and 0 exactly when no
    requirement of the framework is implemented. *)
Theorem completion_rate_bounds
    (now framework : string) (current_controls : list pyval) (report : gap_report) :
  analyze_gaps now framework current_controls = Ok report ->
  exists rate,
    completion_rate report = PFloat rate
    /\ (0 <=? rate)%float = true /\ (rate <=? 100)%float = true
    /\ (rate = 100%float <-> gaps report = [])
    /\ (rate = 0%float <-> total_implemented report = 0%nat).
Proof.
  intro H. apply analyze_gaps_ok in H.
  destruct H as [required [ids [Hreq [_ [Hg [_ [Hti [_ [_ [_ [Hc _]]]]]]]]]]].
  rewrite Hc, Hti, Hg. clear Hc Hti Hg.
  destruct (frameworks_get_cases _ _ Hreq) as [-> | [-> | ->]];
    cbn [filter _load_iso27001_controls _load_soc2_controls _load_gdpr_requirements id];
    repeat match goal with
           | |- context [negb (implemented ids ?s)] =>
               destruct (implemented ids s); cbn [negb]
           end;
    eexists; (split; [vm_compute; reflexivity|]);
    (split; [reflexivity|]); (split; [reflexivity|]);
    split; split; intro E; try reflexivity; try discriminate;
      apply (f_equal (fun x => Prim2SF x)) in E; vm_compute in E; discriminate.
Qed.

Lemma completion_rate_bounds_witness :
  exists report rate,
    analyze_gaps "2024-05-01T09:30:00" "iso27001"
      [VDict [("id", VStr "A.5.1")]; VDict [("id", VStr "CC1.1")]] = Ok report
    /\ completion_rate report = PFloat rate
    /\ rate = 33.33%float
    /\ (0 <=? rate)%float = true /\ (rate <=? 100)%float = true.
Proof.
  destruct (completion_rate_bounds "2024-05-01T09:30:00" "iso27001"
              [VDict [("id", VStr "A.5.1")]; VDict [("id", VStr "CC1.1")]]
              _ eq_refl) as [rate [Hr [H0 [H100 _]]]].
  eexists. exists rate. split; [reflexivity|]. split; [exact Hr|].
  split; [|split; assumption].
  vm_compute in Hr. injection Hr as <-. reflexivity.
Defined.

(** X5.  Of [gap_analysis.py] with line 79 repaired; the lines of the
    function itself, 134 to 159, are embedded as they stand.  For a
    non-empty list of gaps, [_generate_recommendations] gives,
    after the urgent line that is present exactly when some gap is
    critical and then states their number, one line per category that
    has a gap: each category once, with the number of gaps of that
    category, the lines ordered by that number, the greatest first; the
    numbers of the lines add up to the number of gaps. *)
Theorem recommendations_count_gaps_by_category (gaps : list gap) :
  gaps <> [] ->
  exists cats,
    _generate_recommendations gaps
    = (if existsb is_critical gaps
       then [urgent_line (List.length (filter is_critical gaps))]
       else []) ++ map focus_line cats
    /\ NoDup (map fst cats)
    /\ (forall c n, In (c, n) cats <-> n = category_count gaps c /\ (0 < n)%nat)
    /\ StronglySorted (fun a b => (snd b <= snd a)%nat) cats
    /\ list_sum (map snd cats) = List.length gaps.
Proof.
  intro Hne. destruct gaps as [|g0 tl]; [congruence|]. clear Hne.
  set (gaps := g0 :: tl).
  set (counter := fold_left (fun cats g => count_category cats (gap_category g)) gaps []).
  exists (sort_desc (fun x => Z.of_nat (snd x)) counter).
  assert (Hwc : well_counted counter).
  { apply well_counted_fold. split; constructor. }
  pose proof (PyFacts.sort_desc_perm (fun x : string * nat => Z.of_nat (snd x)) counter)
    as Hperm.
  split.
  { unfold _generate_recommendations. fold gaps. fold counter. fold is_critical.
    pose proof (SequenceFacts.filter_nil_existsb is_critical gaps) as Hf.
    destruct (filter is_critical gaps) as [|c0 ctl]; rewrite Hf; reflexivity. }
  split.
  { eapply Permutation_NoDup; [|apply Hwc].
    apply Permutation_map, Permutation_sym, Hperm. }
  split.
  { intros c n. transitivity (In (c, n) counter).
    - split; apply Permutation_in; [exact Hperm|apply Permutation_sym, Hperm].
    - rewrite (well_counted_in _ c n Hwc). unfold counter.
      rewrite counted_fold. simpl. tauto. }
  split.
  { pose proof (PyFacts.sort_desc_sorted (fun x : string * nat => Z.of_nat (snd x))
                                         counter) as Hs.
    eapply SequenceFacts.StronglySorted_weaken; [|exact Hs].
    intros a b Hab. unfold desc in Hab. lia. }
  rewrite (SequenceFacts.list_sum_perm _ _ (Permutation_map snd Hperm)).
  unfold counter. rewrite list_sum_fold. reflexivity.
Qed.

Lemma recommendations_count_gaps_by_category_witness :
  exists cats,
    _generate_recommendations (map gap_of _load_iso27001_controls)
    = (if existsb is_critical (map gap_of _load_iso27001_controls)
       then [urgent_line
               (List.length (filter is_critical (map gap_of _load_iso27001_controls)))]
       else []) ++ map focus_line cats
    /\ NoDup (map fst cats)
    /\ (forall c n, In (c, n) cats
                    <-> n = category_count (map gap_of _load_iso27001_controls) c
                        /\ (0 < n)%nat)
    /\ StronglySorted (fun a b => (snd b <= snd a)%nat) cats
    /\ list_sum (map snd cats) = List.length (map gap_of _load_iso27001_controls).
Proof.
  apply (recommendations_count_gaps_by_category (map gap_of _load_iso27001_controls)).
  discriminate.
Defined.

End GapReportFacts.

(* ================================================================== *)
(** ** The risk score: range and monotonicity in every input *)
(* ================================================================== *)

Module RiskRangeFacts.
Import Py RiskPrediction RiskSpec Binary64 Binary64Facts Binary64Order MonotonicityFacts.
Local Open Scope float_scope.

(** The factor [1 - controlEffectiveness/100 * 0.4] lies between 0.6 and
    1 and falls when the control effectiveness rises. *)
Lemma control_factor (ce1 ce2 : float) :
  in_range 0 100 ce1 -> in_range 0 100 ce2 -> (ce1 <=? ce2) = true ->
  nonneg_finite (1 - ce1 / 100 * 0.4)
  /\ nonneg_finite (1 - ce2 / 100 * 0.4)
  /\ (1 - ce2 / 100 * 0.4 <=? 1 - ce1 / 100 * 0.4) = true
  /\ (1 - ce1 / 100 * 0.4 <=? 1) = true
  /\ (1 - 100 / 100 * 0.4 <=? 1 - ce2 / 100 * 0.4) = true.
Proof.
  intros H1 H2 H12.
  assert (N1 : nonneg_finite ce1) by (eapply in_range_nonneg_finite; [| |exact H1]; constant).
  assert (N2 : nonneg_finite ce2) by (eapply in_range_nonneg_finite; [| |exact H2]; constant).
  destruct H1 as [_ H1]. destruct H2 as [_ H2].
  assert (Q : forall ce, nonneg_finite ce -> (ce <=? 100) = true ->
                         nonneg_finite (ce / 100)
                         /\ (ce / 100 <=? 100 / 100) = true
                         /\ nonneg_finite (ce / 100 * 0.4)
                         /\ (ce / 100 * 0.4 <=? 100 / 100 * 0.4) = true).
  { intros ce N H.
    assert (Hq0 : (0 / 100 <=? ce / 100) = true)
      by (apply div_le; [constant|exact N|constant|apply zero_le; exact N]).
    assert (Hq1 : (ce / 100 <=? 100 / 100) = true)
      by (apply div_le; [exact N|constant|constant|exact H]).
    assert (Nq : nonneg_finite (ce / 100))
      by (eapply between_nonneg_finite; [| |exact Hq0|exact Hq1]; constant).
    assert (Hd0 : (0 * 0 <=? ce / 100 * 0.4) = true)
      by (apply mul_le; [constant|constant|exact Nq|constant| |reflexivity];
          apply zero_le; exact Nq).
    assert (Hd1 : (ce / 100 * 0.4 <=? 100 / 100 * 0.4) = true)
      by (apply mul_le; [exact Nq|constant|constant|constant|exact Hq1|reflexivity]).
    split; [exact Nq|]. split; [exact Hq1|]. split; [|exact Hd1].
    eapply between_nonneg_finite; [| |exact Hd0|exact Hd1]; constant. }
  destruct (Q ce1 N1 H1) as [Nq1 [Hq1 [Nd1 Hd1]]].
  destruct (Q ce2 N2 H2) as [Nq2 [Hq2 [Nd2 Hd2]]].
  assert (Hq : (ce1 / 100 <=? ce2 / 100) = true)
    by (apply div_le; [exact N1|exact N2|constant|exact H12]).
  assert (Hd : (ce1 / 100 * 0.4 <=? ce2 / 100 * 0.4) = true)
    by (apply mul_le; [exact Nq1|constant|exact Nq2|constant|exact Hq|reflexivity]).
  assert (L1 : (ce1 / 100 * 0.4 <=? 1) = true).
  { apply (leb_trans _ (100 / 100 * 0.4)); [exact Nd1|constant|constant|exact Hd1|reflexivity]. }
  assert (L2 : (ce2 / 100 * 0.4 <=? 1) = true).
  { apply (leb_trans _ (100 / 100 * 0.4)); [exact Nd2|constant|constant|exact Hd2|reflexivity]. }
  destruct (sub_bounds 1 (ce1 / 100 * 0.4) ltac:(constant) Nd1 L1) as [A0 A1].
  destruct (sub_bounds 1 (ce2 / 100 * 0.4) ltac:(constant) Nd2 L2) as [B0 B1].
  split; [eapply between_nonneg_finite; [| |exact A0|exact A1]; constant|].
  split; [eapply between_nonneg_finite; [| |exact B0|exact B1]; constant|].
  split; [apply sub_anti; [constant|exact Nd1|exact Nd2|exact Hd|exact L2]|].
  split; [exact A1|].
  apply sub_anti; [constant|exact Nd2|constant|exact Hd2|reflexivity].
Qed.

(** Every multiplier of the table, the default included, lies between 0.8
    and 1.5. *)
Lemma multiplier_range (t : string) :
  nonneg_finite (multiplier_get threat_multipliers t 1.0)
  /\ (0.8 <=? multiplier_get threat_multipliers t 1.0) = true
  /\ (multiplier_get threat_multipliers t 1.0 <=? 1.5) = true.
Proof.
  rewrite RiskScoreFacts.multiplier_get_spec. unfold threat_multiplier.
  destruct (String.eqb t "low"), (String.eqb t "high"), (String.eqb t "critical");
    repeat split; vm_compute; auto.
Qed.

(** A product of two factors between bounds lies between the products of
    the bounds. *)
Lemma mul_between (x y lx ly hx hy : float) :
  nonneg_finite lx -> nonneg_finite ly -> nonneg_finite hx -> nonneg_finite hy ->
  nonneg_finite (lx * ly) -> nonneg_finite (hx * hy) ->
  nonneg_finite x -> nonneg_finite y ->
  (lx <=? x) = true -> (x <=? hx) = true -> (ly <=? y) = true -> (y <=? hy) = true ->
  nonneg_finite (x * y) /\ (lx * ly <=? x * y) = true /\ (x * y <=? hx * hy) = true.
Proof.
  intros Nlx Nly Nhx Nhy Nl Nh Nx Ny Hx1 Hx2 Hy1 Hy2.
  assert (H1 : (lx * ly <=? x * y) = true) by (apply mul_le; assumption).
  assert (H2 : (x * y <=? hx * hy) = true) by (apply mul_le; assumption).
  split; [|split; assumption].
  apply (between_nonneg_finite (lx * ly) (hx * hy)); assumption.
Qed.

Lemma round_between (x lo hi rlo rhi : float) (ndigits : nat) :
  nonneg_finite lo -> nonneg_finite x -> nonneg_finite hi ->
  (lo <=? x) = true -> (x <=? hi) = true ->
  Py.round lo ndigits = rlo -> Py.round hi ndigits = rhi ->
  in_range rlo rhi (Py.round x ndigits).
Proof.
  intros Nlo Nx Nhi H1 H2 <- <-. split; apply round_le; assumption.
Qed.

Lemma result_fields (rd : risk_data) :
  result_likelihood (calculate_risk_score rd) = Py.round (adjusted_likelihood rd) 2
  /\ confidence (calculate_risk_score rd)
     = Py.round (get (control_effectiveness rd) 70 / 100 * 100) 1
  /\ result_impact (calculate_risk_score rd) = get (impact rd) 3.
Proof.
  unfold calculate_risk_score.
  destruct (15 <=? final_score rd); [repeat split|].
  destruct (10 <=? final_score rd); [repeat split|].
  destruct (5 <=? final_score rd); repeat split.
Qed.

(** The adjusted likelihood, the base score and the final score of an
    input in the documented ranges, between their bounds. *)
Lemma score_between (l i ce : float) (t : option string) :
  in_range 1 5 l -> in_range 1 5 i -> in_range 0 100 ce ->
  let a := l * (1 - ce / 100 * 0.4) in
  let m := multiplier_get threat_multipliers (get t "medium") 1.0 in
  (nonneg_finite a
   /\ (1 * (1 - 100 / 100 * 0.4) <=? a) = true /\ (a <=? 5 * 1) = true)
  /\ (nonneg_finite (a * i)
      /\ (1 * (1 - 100 / 100 * 0.4) * 1 <=? a * i) = true
      /\ (a * i <=? 5 * 1 * 5) = true)
  /\ (nonneg_finite (a * i * m)
      /\ (1 * (1 - 100 / 100 * 0.4) * 1 * 0.8 <=? a * i * m) = true
      /\ (a * i * m <=? 5 * 1 * 5 * 1.5) = true).
Proof.
  intros Hl Hi Hce a m.
  assert (Nl : nonneg_finite l) by (eapply in_range_nonneg_finite; [| |exact Hl]; constant).
  assert (Ni : nonneg_finite i) by (eapply in_range_nonneg_finite; [| |exact Hi]; constant).
  assert (Nce : nonneg_finite ce) by (eapply in_range_nonneg_finite; [| |exact Hce]; constant).
  destruct (control_factor ce ce Hce Hce (leb_refl ce Nce)) as [Nf [_ [_ [Hf1 Hf0]]]].
  destruct Hl as [Hl1 Hl5]. destruct Hi as [Hi1 Hi5].
  destruct (multiplier_range (get t "medium")) as [Nm [Hm0 Hm1]]. fold m in Nm, Hm0, Hm1.
  assert (A : nonneg_finite a
              /\ (1 * (1 - 100 / 100 * 0.4) <=? a) = true /\ (a <=? 5 * 1) = true).
  { apply mul_between;
      [constant|constant|constant|constant|constant|constant
      |exact Nl|exact Nf|exact Hl1|exact Hl5|exact Hf0|exact Hf1]. }
  destruct A as [Na [Ha0 Ha1]].
  assert (B : nonneg_finite (a * i)
              /\ (1 * (1 - 100 / 100 * 0.4) * 1 <=? a * i) = true
              /\ (a * i <=? 5 * 1 * 5) = true).
  { apply mul_between;
      [constant|constant|constant|constant|constant|constant
      |exact Na|exact Ni|exact Ha0|exact Ha1|exact Hi1|exact Hi5]. }
  destruct B as [Nb [Hb0 Hb1]].
  split; [repeat split; assumption|]. split; [repeat split; assumption|].
  apply mul_between;
    [constant|constant|constant|constant|constant|constant
    |exact Nb|exact Nm|exact Hb0|exact Hb1|exact Hm0|exact Hm1].
Qed.

(** X6.  For a likelihood and an impact in 1-5 and a control
    effectiveness in 0-100, whatever the threat level, the score lies
    between 0.48 and 37.5, both the score the classification is taken
    from and the [risk_score] reported; the reported likelihood lies
    between 0.6 and 5 and the reported confidence between 0 and 100.
    Both bounds of the score are reached. *)
Theorem risk_score_range (l i ce : float) (t : option string) :
  in_range 1 5 l -> in_range 1 5 i -> in_range 0 100 ce ->
  let rd := {| likelihood := Some l; impact := Some i;
               control_effectiveness := Some ce; threat_level := t |} in
  in_range 0.48 37.5 (final_score rd)
  /\ in_range 0.48 37.5 (risk_score (calculate_risk_score rd))
  /\ in_range 0.6 5 (result_likelihood (calculate_risk_score rd))
  /\ in_range 0 100 (confidence (calculate_risk_score rd))
  /\ final_score {| likelihood := Some 1; impact := Some 1;
                    control_effectiveness := Some 100; threat_level := Some "low" |}
     = 0.48
  /\ final_score {| likelihood := Some 5; impact := Some 5;
                    control_effectiveness := Some 0; threat_level := Some "critical" |}
     = 37.5.
Proof.
  intros Hl Hi Hce rd.
  destruct (score_between l i ce t Hl Hi Hce) as [[Na [Ha0 Ha1]] [_ [Ns [Hs0 Hs1]]]].
  assert (Nce : nonneg_finite ce) by (eapply in_range_nonneg_finite; [| |exact Hce]; constant).
  destruct Hce as [Hc0 Hc100].
  destruct (result_fields rd) as [El [Ec _]].
  split; [split; assumption|].
  split.
  { rewrite RiskScoreFacts.risk_score_rounded.
    apply (round_between _ (1 * (1 - 100 / 100 * 0.4) * 1 * 0.8) (5 * 1 * 5 * 1.5));
      [constant|exact Ns|constant|exact Hs0|exact Hs1
      |vm_compute; reflexivity|vm_compute; reflexivity]. }
  split.
  { rewrite El.
    apply (round_between _ (1 * (1 - 100 / 100 * 0.4)) (5 * 1));
      [constant|exact Na|constant|exact Ha0|exact Ha1
      |vm_compute; reflexivity|vm_compute; reflexivity]. }
  split.
  { rewrite Ec. cbn [control_effectiveness rd get].
    assert (Hq0 : (0 / 100 <=? ce / 100) = true)
      by (apply div_le; [constant|exact Nce|constant|exact Hc0]).
    assert (Hq1 : (ce / 100 <=? 100 / 100) = true)
      by (apply div_le; [exact Nce|constant|constant|exact Hc100]).
    assert (Nq : nonneg_finite (ce / 100))
      by (eapply between_nonneg_finite; [| |exact Hq0|exact Hq1]; constant).
    assert (P : nonneg_finite (ce / 100 * 100)
                /\ (0 / 100 * 100 <=? ce / 100 * 100) = true
                /\ (ce / 100 * 100 <=? 100 / 100 * 100) = true).
    { apply mul_between;
        [constant|constant|constant|constant|constant|constant
        |exact Nq|constant|exact Hq0|exact Hq1|reflexivity|reflexivity]. }
    destruct P as [Np [Hp0 Hp1]].
    apply (round_between _ (0 / 100 * 100) (100 / 100 * 100));
      [constant|exact Np|constant|exact Hp0|exact Hp1
      |vm_compute; reflexivity|vm_compute; reflexivity]. }
  split; vm_compute; reflexivity.
Qed.

Lemma risk_score_range_witness :
  let rd := {| likelihood := Some 4; impact := Some 5;
               control_effectiveness := Some 75; threat_level := Some "high" |} in
  in_range 0.48 37.5 (final_score rd)
  /\ in_range 0.48 37.5 (risk_score (calculate_risk_score rd))
  /\ in_range 0.6 5 (result_likelihood (calculate_risk_score rd))
  /\ in_range 0 100 (confidence (calculate_risk_score rd)).
Proof.
  intro rd.
  destruct (risk_score_range 4 5 75 (Some "high")) as [H1 [H2 [H3 [H4 _]]]];
    try (split; reflexivity).
  repeat split; first [apply H1|apply H2|apply H3|apply H4].
Defined.

(** A higher score never gets a less severe tier. *)
Lemma tier_of_mono (s1 s2 : float) :
  nonneg_finite s1 -> nonneg_finite s2 -> (s1 <=? s2) = true ->
  (tier_priority (tier_of s2) <= tier_priority (tier_of s1))%Z.
Proof.
  intros N1 N2 H. unfold tier_of.
  assert (T : forall b : float, nonneg_finite b -> (b <=? s1) = true -> (b <=? s2) = true).
  { intros b Nb Hb. apply (leb_trans b s1 s2); assumption. }
  destruct (15 <=? s1) eqn:E15; [rewrite (T 15 ltac:(constant) E15); simpl; lia|].
  destruct (10 <=? s1) eqn:E10.
  { rewrite (T 10 ltac:(constant) E10). destruct (15 <=? s2); simpl; lia. }
  destruct (5 <=? s1) eqn:E5.
  { rewrite (T 5 ltac:(constant) E5).
    destruct (15 <=? s2); [simpl; lia|]. destruct (10 <=? s2); simpl; lia. }
  destruct (15 <=? s2); [simpl; lia|]. destruct (10 <=? s2); [simpl; lia|].
  destruct (5 <=? s2); simpl; lia.
Qed.

(** X7.  Within the documented ranges the risk score is monotone in each
    of its four inputs: a higher likelihood, a higher impact, a lower
    control effectiveness and a more severe threat level never lower the
    score, neither the score the classification is taken from nor the
    [risk_score] reported, and never give a less urgent priority. *)
Theorem risk_score_monotone_in_every_input
    (l1 l2 i1 i2 ce1 ce2 : float) (t1 t2 : string) :
  in_range 1 5 l1 -> in_range 1 5 l2 -> (l1 <=? l2) = true ->
  in_range 1 5 i1 -> in_range 1 5 i2 -> (i1 <=? i2) = true ->
  in_range 0 100 ce1 -> in_range 0 100 ce2 -> (ce2 <=? ce1) = true ->
  (threat_severity t1 <= threat_severity t2)%nat ->
  let rd1 := {| likelihood := Some l1; impact := Some i1;
                control_effectiveness := Some ce1; threat_level := Some t1 |} in
  let rd2 := {| likelihood := Some l2; impact := Some i2;
                control_effectiveness := Some ce2; threat_level := Some t2 |} in
  (final_score rd1 <=? final_score rd2) = true
  /\ (risk_score (calculate_risk_score rd1)
        <=? risk_score (calculate_risk_score rd2)) = true
  /\ (priority (calculate_risk_score rd2) <= priority (calculate_risk_score rd1))%Z.
Proof.
  intros Hl1 Hl2 Hl Hi1 Hi2 Hi Hc1 Hc2 Hc Ht rd1 rd2.
  destruct (score_between l1 i1 ce1 (Some t1) Hl1 Hi1 Hc1) as [[Na1 _] [[Nb1 _] [Ns1 _]]].
  destruct (score_between l2 i2 ce2 (Some t2) Hl2 Hi2 Hc2) as [[Na2 _] [[Nb2 _] [Ns2 _]]].
  cbn [get] in Ns1, Ns2.
  assert (Nl1 : nonneg_finite l1) by (eapply in_range_nonneg_finite; [| |exact Hl1]; constant).
  assert (Nl2 : nonneg_finite l2) by (eapply in_range_nonneg_finite; [| |exact Hl2]; constant).
  assert (Ni1 : nonneg_finite i1) by (eapply in_range_nonneg_finite; [| |exact Hi1]; constant).
  assert (Ni2 : nonneg_finite i2) by (eapply in_range_nonneg_finite; [| |exact Hi2]; constant).
  destruct (control_factor ce2 ce1 Hc2 Hc1 Hc) as [Nf2 [Nf1 [Hf _]]].
  destruct (severity_multiplier t1 t2 Ht) as [Nm1 [Nm2 [Hm _]]].
  assert (Ha : (l1 * (1 - ce1 / 100 * 0.4) <=? l2 * (1 - ce2 / 100 * 0.4)) = true)
    by (apply mul_le; assumption).
  assert (Hb : (l1 * (1 - ce1 / 100 * 0.4) * i1 <=? l2 * (1 - ce2 / 100 * 0.4) * i2) = true)
    by (apply mul_le; assumption).
  assert (Hs : (final_score rd1 <=? final_score rd2) = true)
    by (apply mul_le; assumption).
  split; [exact Hs|]. split.
  - rewrite !RiskScoreFacts.risk_score_rounded. apply round_le; assumption.
  - rewrite (proj2 (RiskScoreFacts.classification_spec rd1)).
    rewrite (proj2 (RiskScoreFacts.classification_spec rd2)).
    apply tier_of_mono; assumption.
Qed.

Lemma risk_score_monotone_in_every_input_witness :
  let rd1 := {| likelihood := Some 2; impact := Some 3;
                control_effectiveness := Some 90; threat_level := Some "medium" |} in
  let rd2 := {| likelihood := Some 4; impact := Some 3;
                control_effectiveness := Some 30; threat_level := Some "medium" |} in
  (final_score rd1 <=? final_score rd2) = true
  /\ (risk_score (calculate_risk_score rd1)
        <=? risk_score (calculate_risk_score rd2)) = true
  /\ (priority (calculate_risk_score rd2) <= priority (calculate_risk_score rd1))%Z.
Proof.
  apply (risk_score_monotone_in_every_input 2 4 3 3 90 30 "medium" "medium");
    try (split; reflexivity); reflexivity.
Defined.

End RiskRangeFacts.

(* ================================================================== *)
(** ** The emerging-risk prediction: which catalog risks are returned *)
(* ================================================================== *)

Module PredictionFacts.
Import Py RiskPrediction InputShape Sequences PredictionSpec.
Local Open Scope list_scope.

Lemma lower_char_idempotent (c : ascii) : lower_char (lower_char c) = lower_char c.
Proof.
  destruct c as [[|] [|] [|] [|] [|] [|] [|] [|]]; reflexivity.
Qed.

Lemma lower_idempotent (s : string) : lower (lower s) = lower s.
Proof.
  induction s as [|c tl IH]; simpl; [reflexivity|].
  rewrite lower_char_idempotent, IH. reflexivity.
Qed.

Lemma mem_names (current_risks : list pyval) (names : list string) (t : string) :
  mapM risk_name_lower current_risks = Ok names ->
  (mem_string t names = true
   <-> exists c s, In c current_risks /\ subscript c "name" = Ok (VStr s) /\ lower s = t).
Proof.
  intro H. apply SequenceFacts.mapM_ok_Forall2 in H.
  unfold mem_string. rewrite existsb_exists.
  assert (Hone : forall c n, risk_name_lower c = Ok n ->
                             exists s, subscript c "name" = Ok (VStr s) /\ lower s = n).
  { intros c n. unfold risk_name_lower.
    destruct (subscript c "name") as [[| | | |s| |]|e]; simpl; try discriminate.
    intro E. injection E as <-. exists s. auto. }
  induction H as [|c n cs ns Hcn _ IH].
  - split; [intros [x [[] _]]|intros [c [s [[] _]]]].
  - split.
    + intros [x [[<-|Hin] Hx]]; apply String.eqb_eq in Hx; subst.
      * destruct (Hone c _ Hcn) as [s [Hs Hl]]. exists c, s. simpl; auto.
      * destruct (proj1 IH) as [c' [s [Hc' Hs]]].
        { exists x. split; [exact Hin|apply String.eqb_refl]. }
        exists c', s. simpl; tauto.
    + intros [c' [s [[<-|Hin] [Hs Hl]]]].
      * exists n. split; [left; reflexivity|]. apply String.eqb_eq.
        destruct (Hone c n Hcn) as [s' [Hs' Hl']]. congruence.
      * destruct (proj2 IH) as [x [Hx Hx']]; [exists c', s; auto|].
        exists x. split; [right; exact Hx|exact Hx'].
Qed.

(** X8.  The risks [predict_emerging_risks] returns are the entries of
    the catalog of the industry that no current risk names: an entry is
    returned exactly when no current risk has, letter case apart, its
    name; the returned entries come in catalog order, each once. *)
Theorem predicted_risks_are_the_unnamed_catalog_risks
    (clock : nat -> string) (industry : string) (current_risks : list pyval)
    (rs : list predicted_risk) :
  predict_emerging_risks clock industry current_risks = Ok rs ->
  let base_risks := db_get emerging_risks_db (lower industry) in
  sublist (map risk rs) base_risks
  /\ (forall r, In r base_risks ->
        (In r (map risk rs) <-> ~ named current_risks r))
  /\ (forall p, In p rs -> ~ named current_risks (risk p)).
Proof.
  intros H base_risks. unfold predict_emerging_risks in H. fold base_risks in H.
  destruct (mapM risk_name_lower current_risks) as [names|e] eqn:Hn; unfold bind in H;
    [|discriminate].
  apply EmergingRiskFacts.add_metadata_loop_risk in H.
  assert (Hnot : forall r, negb (mem_string (lower (name r)) names) = true
                           <-> ~ named current_risks r).
  { intro r. unfold named. rewrite <- (mem_names _ _ (lower (name r)) Hn).
    destruct (mem_string (lower (name r)) names); simpl; split; congruence. }
  assert (Hin : forall r, In r (map risk rs) -> ~ named current_risks r).
  { intros r Hr. rewrite H in Hr. apply filter_In in Hr. apply Hnot, Hr. }
  split; [rewrite H; apply SequenceFacts.sublist_filter|].
  split.
  - intros r Hr. split; [apply Hin|].
    intro Hnn. rewrite H. apply filter_In. split; [exact Hr|apply Hnot, Hnn].
  - intros p Hp. apply Hin. apply in_map, Hp.
Qed.

Lemma predicted_risks_are_the_unnamed_catalog_risks_witness :
  exists rs,
    predict_emerging_risks example_clock "Finance"
      [VDict [("name", VStr "DIGITAL payment fraud")]] = Ok rs
    /\ map (fun p => name (risk p)) rs = ["Regulatory Compliance Changes"]
    /\ sublist (map risk rs) (db_get emerging_risks_db (lower "Finance")).
Proof.
  eexists. split; [vm_compute; reflexivity|]. split; [reflexivity|].
  apply (predicted_risks_are_the_unnamed_catalog_risks example_clock "Finance"
           [VDict [("name", VStr "DIGITAL payment fraud")]]).
  vm_compute. reflexivity.
Defined.

Lemma db_get_unknown (k : string) :
  ~ In k known_industries -> db_get emerging_risks_db k = [].
Proof.
  unfold known_industries, emerging_risks_db. cbn [db_get]. intro H.
  destruct (String.eqb_spec "technology" k) as [E|_]; [simpl in H; tauto|].
  destruct (String.eqb_spec "finance" k) as [E|_]; [simpl in H; tauto|].
  destruct (String.eqb_spec "healthcare" k) as [E|_]; [simpl in H; tauto|].
  reflexivity.
Qed.

(** X9.  The industry is matched without regard to letter case: the
    industry and its lower-case spelling give the same result, the clock
    giving the same readings.  An industry other than technology, finance
    and healthcare gives the empty list for every list of well-formed
    current risks. *)
Theorem industry_is_case_insensitive
    (clock : nat -> string) (industry : string) (current_risks : list pyval) :
  predict_emerging_risks clock (lower industry) current_risks
  = predict_emerging_risks clock industry current_risks
  /\ (~ In (lower industry) known_industries ->
      forallb has_name current_risks = true ->
      predict_emerging_risks clock industry current_risks = Ok []).
Proof.
  split.
  - unfold predict_emerging_risks. rewrite lower_idempotent. reflexivity.
  - intros Hn Hs.
    pose proof (EmergingRiskFacts.predict_is_ok clock industry current_risks) as Hok.
    rewrite Hs in Hok. unfold predict_emerging_risks in *.
    rewrite (db_get_unknown _ Hn) in *.
    destruct (mapM risk_name_lower current_risks) as [names|e]; unfold bind in *;
      [reflexivity|discriminate].
Qed.

End PredictionFacts.

(* ================================================================== *)
(** ** The completeness check: accounting and score *)
(* ================================================================== *)

Module CompletenessScoreFacts.
Import Py DocumentAnalyzer InputShape Sequences TextSpec.
Local Open Scope list_scope.

Lemma check_loop_spec (text_lower : string) (required : list string)
    (found : nat) (missing : list string) :
  check_loop text_lower required found missing
  = ((found + List.length (filter (fun e => contains (lower e) text_lower) required))%nat,
     missing ++ filter (fun e => negb (contains (lower e) text_lower)) required).
Proof.
  revert found missing. induction required as [|e tl IH]; intros found missing; simpl.
  - rewrite Nat.add_0_r, app_nil_r. reflexivity.
  - destruct (contains (lower e) text_lower); simpl; rewrite IH.
    + f_equal. lia.
    + rewrite <- app_assoc. reflexivity.
Qed.

Lemma filter_partition_length {A : Type} (p : A -> bool) (l : list A) :
  (List.length (filter p l) + List.length (filter (fun x => negb (p x)) l)
   = List.length l)%nat.
Proof.
  induction l as [|x tl IH]; simpl; [reflexivity|].
  destruct (p x); simpl; lia.
Qed.

(** The fields of the result, from the checklist of the document type. *)
Lemma check_completeness_fields (text doc_type : string) :
  found (_check_completeness text doc_type)
  = List.length (filter (present text) (elements_get required_elements doc_type))
  /\ missing (_check_completeness text doc_type)
     = filter (fun e => negb (present text e)) (elements_get required_elements doc_type)
  /\ total_required (_check_completeness text doc_type)
     = List.length (elements_get required_elements doc_type)
  /\ score (_check_completeness text doc_type)
     = round_num
         match elements_get required_elements doc_type with
         | [] => PInt 100
         | _ :: _ =>
             PFloat ((float_of_nat (found (_check_completeness text doc_type))
                      / float_of_nat
                          (List.length (elements_get required_elements doc_type)))
                     * 100)%float
         end 1.
Proof.
  unfold _check_completeness.
  rewrite check_loop_spec. cbn [found missing total_required score app Nat.add].
  repeat split.
Qed.

(** X10.  [_check_completeness] lists as missing exactly the elements of
    the checklist of the document type that do not occur in the text,
    letter case apart, in checklist order; the elements found and the
    elements missing add up to the checklist; and the result does not
    depend on the letter case of the text. *)
Theorem completeness_accounting (text doc_type : string) :
  let c := _check_completeness text doc_type in
  let required := elements_get required_elements doc_type in
  missing c = filter (fun e => negb (present text e)) required
  /\ sublist (missing c) required
  /\ (forall e, In e required -> (In e (missing c) <-> present text e = false))
  /\ (found c + List.length (missing c) = total_required c)%nat
  /\ total_required c = List.length required
  /\ _check_completeness (lower text) doc_type = c.
Proof.
  intros c required. subst c required.
  destruct (check_completeness_fields text doc_type) as [Hf [Hm [Ht _]]].
  split; [exact Hm|].
  split; [rewrite Hm; apply SequenceFacts.sublist_filter|].
  split.
  { intros e He. rewrite Hm, filter_In.
    destruct (present text e); simpl; intuition congruence. }
  split; [rewrite Hf, Hm, Ht; apply filter_partition_length|].
  split; [exact Ht|].
  unfold _check_completeness. rewrite PredictionFacts.lower_idempotent.
  reflexivity.
Qed.

Lemma known_checklists (doc_type : string) :
  In doc_type known_document_types ->
  List.length (elements_get required_elements doc_type) = 7%nat
  \/ List.length (elements_get required_elements doc_type) = 6%nat.
Proof.
  intros [<-|[<-|[<-|[]]]]; vm_compute; auto.
Qed.

(** The score as a function of the number of elements found, for the
    checklists of six and of seven elements. *)
Lemma score_of_found (len k : nat) :
  len = 7%nat \/ len = 6%nat -> (k <= len)%nat ->
  exists s,
    round_num (PFloat ((float_of_nat k / float_of_nat len) * 100)%float) 1 = PFloat s
    /\ (0 <=? s)%float = true /\ (s <=? 100)%float = true
    /\ (s = 100%float <-> k = len)
    /\ (s = 0%float <-> k = 0%nat).
Proof.
  intros [-> | ->] Hk;
    destruct k as [|[|[|[|[|[|[|[|k]]]]]]]]; try lia; clear Hk;
    (eexists; split; [vm_compute; reflexivity|]);
    (split; [reflexivity|]); (split; [reflexivity|]);
    split; split; intro H;
    first [ reflexivity
          | discriminate H
          | apply (f_equal (fun x => Prim2SF x)) in H; vm_compute in H; discriminate H ].
Qed.

(** X11.  For the document types policy, procedure and contract the
    completeness score is a float between 0 and 100; it is 100 exactly
    when no element is missing and 0 exactly when none is found. *)
Theorem completeness_score_bounds (text doc_type : string) :
  In doc_type known_document_types ->
  let c := _check_completeness text doc_type in
  exists s,
    score c = PFloat s
    /\ (0 <=? s)%float = true /\ (s <=? 100)%float = true
    /\ (s = 100%float <-> missing c = [])
    /\ (s = 0%float <-> found c = 0%nat).
Proof.
  intros Hk c. subst c.
  destruct (check_completeness_fields text doc_type) as [Hf [Hm [Ht Hs]]].
  assert (Hsum : (found (_check_completeness text doc_type)
                  + List.length (missing (_check_completeness text doc_type))
                  = List.length (elements_get required_elements doc_type))%nat).
  { rewrite Hf, Hm. apply filter_partition_length. }
  assert (Hnil : missing (_check_completeness text doc_type) = []
                 <-> List.length (missing (_check_completeness text doc_type)) = 0%nat).
  { destruct (missing (_check_completeness text doc_type)); simpl; split; congruence. }
  pose proof (known_checklists doc_type Hk) as Hlen.
  destruct (score_of_found (List.length (elements_get required_elements doc_type))
                           (found (_check_completeness text doc_type)) Hlen ltac:(lia))
    as [s [Es [H0 [H100 [Hfull Hnone]]]]].
  exists s. split.
  { rewrite Hs. destruct (elements_get required_elements doc_type) as [|e0 tl];
      [simpl in Hlen; destruct Hlen; discriminate|exact Es]. }
  split; [exact H0|]. split; [exact H100|]. split; [|exact Hnone].
  rewrite Hfull, Hnil. lia.
Qed.

Lemma completeness_score_bounds_witness :
  let c := _check_completeness "Purpose and scope. Review yearly." "policy" in
  exists s,
    score c = PFloat s
    /\ (0 <=? s)%float = true /\ (s <=? 100)%float = true
    /\ (s = 100%float <-> missing c = [])
    /\ (s = 0%float <-> found c = 0%nat).
Proof.
  apply (completeness_score_bounds "Purpose and scope. Review yearly." "policy").
  left. reflexivity.
Defined.

End CompletenessScoreFacts.

(* ================================================================== *)
(** ** The extracted requirements: where they sit in the document *)
(* ================================================================== *)

Module RequirementShapeFacts.
Import Py DocumentAnalyzer Sequences TextSpec.

Lemma length_append (a b : string) :
  String.length (a ++ b) = (String.length a + String.length b)%nat.
Proof. induction a as [|c a IH]; simpl; [reflexivity|]. rewrite IH. reflexivity. Qed.

Lemma append_assoc (a b c : string) : ((a ++ b) ++ c = a ++ (b ++ c))%string.
Proof. induction a as [|x a IH]; simpl; [reflexivity|]. rewrite IH. reflexivity. Qed.

Lemma append_empty_r (a : string) : (a ++ "")%string = a.
Proof. induction a as [|x a IH]; simpl; [reflexivity|]. rewrite IH. reflexivity. Qed.

Lemma all_chars_app (p : ascii -> bool) (a b : string) :
  all_chars p (a ++ b) = all_chars p a && all_chars p b.
Proof.
  induction a as [|c a IH]; simpl; [reflexivity|].
  rewrite IH. apply andb_assoc.
Qed.

(** *** [span], [lstrip], [rstrip] and [strip] cut a text in pieces *)

Lemma span_spec (p : ascii -> bool) (s a b : string) :
  span p s = (a, b) -> s = (a ++ b)%string /\ all_chars p a = true.
Proof.
  revert a b. induction s as [|c tl IH]; simpl; intros a b H.
  - injection H as <- <-. split; reflexivity.
  - destruct (p c) eqn:Hc.
    + destruct (span p tl) as [a' b'] eqn:E. injection H as <- <-.
      destruct (IH a' b' eq_refl) as [-> Ha]. simpl. rewrite Hc, Ha. split; reflexivity.
    + injection H as <- <-. split; reflexivity.
Qed.

Lemma lstrip_spec (s : string) :
  exists pre, s = (pre ++ lstrip s)%string /\ all_chars isspace pre = true.
Proof.
  induction s as [|c tl [pre [IH1 IH2]]]; simpl.
  - exists "". split; reflexivity.
  - destruct (isspace c) eqn:Hc.
    + exists (String c pre). simpl. rewrite Hc, IH2, <- IH1. split; reflexivity.
    + exists "". split; reflexivity.
Qed.

Lemma rstrip_spec (s : string) :
  exists post, s = (rstrip s ++ post)%string /\ all_chars isspace post = true.
Proof.
  induction s as [|c tl [post [IH1 IH2]]]; simpl.
  - exists "". split; reflexivity.
  - destruct (rstrip tl) as [|c' r] eqn:E.
    + simpl in IH1. destruct (isspace c) eqn:Hc.
      * exists (String c post). simpl. rewrite Hc, IH2, <- IH1. split; reflexivity.
      * exists post. split; [simpl; rewrite <- IH1; reflexivity|exact IH2].
    + exists post. split; [simpl; simpl in IH1; rewrite <- IH1; reflexivity|exact IH2].
Qed.

Lemma strip_spec (s : string) :
  exists pre post,
    s = (pre ++ strip s ++ post)%string
    /\ all_chars isspace pre = true /\ all_chars isspace post = true.
Proof.
  destruct (lstrip_spec s) as [pre [H1 Hpre]].
  destruct (rstrip_spec (lstrip s)) as [post [H2 Hpost]].
  exists pre, post. unfold strip. rewrite <- H2, <- H1. auto.
Qed.

Lemma lstrip_head (s : string) :
  match lstrip s with
  | EmptyString => True
  | String c _ => isspace c = false
  end.
Proof.
  induction s as [|c tl IH]; simpl; [exact I|].
  destruct (isspace c) eqn:Hc; [exact IH|exact Hc].
Qed.

Lemma rstrip_cons (c : ascii) (tl : string) :
  isspace c = false -> rstrip (String c tl) = String c (rstrip tl).
Proof.
  intro Hc. simpl. destruct (rstrip tl); [rewrite Hc|]; reflexivity.
Qed.

Lemma rstrip_step (c : ascii) (tl : string) :
  rstrip (String c tl)
  = match rstrip tl with
    | EmptyString => if isspace c then EmptyString else String c EmptyString
    | r => String c r
    end.
Proof. reflexivity. Qed.

Lemma rstrip_idempotent (s : string) : rstrip (rstrip s) = rstrip s.
Proof.
  induction s as [|c tl IH]; [reflexivity|].
  rewrite rstrip_step. destruct (rstrip tl) as [|c' r] eqn:E.
  - destruct (isspace c) eqn:Hc; [reflexivity|]. simpl. rewrite Hc. reflexivity.
  - rewrite rstrip_step, IH. reflexivity.
Qed.

Lemma strip_idempotent (s : string) : strip (strip s) = strip s.
Proof.
  unfold strip. pose proof (lstrip_head s) as H.
  destruct (lstrip s) as [|c tl]; [reflexivity|].
  rewrite (rstrip_cons c tl H). cbn [lstrip]. rewrite H.
  rewrite <- (rstrip_cons c tl H). apply rstrip_idempotent.
Qed.

Lemma last_char_length (s : string) : (String.length (last_char s) <= 1)%nat.
Proof.
  induction s as [|c tl IH]; simpl; [lia|].
  destruct tl; [simpl; lia|exact IH].
Qed.

(** *** The pattern at one place of the text *)

(** A keyword in lower case matches the word it is compared with up to
    letter case. *)
Lemma match_literal_spec (kw s rest : string) :
  lower kw = kw -> match_literal kw s = Some rest ->
  exists word, s = (word ++ rest)%string /\ lower word = kw.
Proof.
  revert s. induction kw as [|k kw IH]; simpl; intros s Hl H.
  - injection H as <-. exists "". split; reflexivity.
  - destruct s as [|c s]; [discriminate|].
    injection Hl as Hk Hkw.
    destruct (Ascii.eqb_spec (lower_char c) (lower_char k)) as [E|_]; [|discriminate].
    destruct (IH s Hkw H) as [word [-> Hw]].
    exists (String c word). simpl. rewrite Hw, E, Hk. split; reflexivity.
Qed.

(** What one match of [kw\s+([^.]+)] captures: either the text that
    follows the keyword and a run of white space, periods excluded, or,
    when nothing but a period follows the run, one character of white
    space. *)
Lemma match_here_spec (kw s grp : string) (len : nat) :
  match_here kw s = Some (grp, len) ->
  exists after_kw,
    match_literal kw s = Some after_kw
    /\ ((exists ws tail,
            after_kw = (ws ++ grp ++ tail)%string
            /\ ws <> ""%string /\ all_chars isspace ws = true
            /\ all_chars not_period grp = true)
        \/ (String.length grp <= 1)%nat).
Proof.
  unfold match_here. destruct (match_literal kw s) as [rest|]; [|discriminate].
  destruct (span isspace rest) as [ws after] eqn:Ews.
  destruct (span not_period after) as [g tail] eqn:Eg.
  destruct (span_spec _ _ _ _ Ews) as [Hrest Hws].
  destruct (span_spec _ _ _ _ Eg) as [Hafter Hg].
  intro H. exists rest. split; [reflexivity|].
  destruct ws as [|w ws']; [discriminate|].
  destruct g as [|c g'].
  - right. destruct ws' as [|w' ws'']; [discriminate|].
    injection H as <- _. apply (last_char_length (String w (String w' ws''))).
  - left. assert (Hgrp : grp = String c g').
    { destruct ws'; injection H as <- _; reflexivity. }
    exists (String w ws'), tail. rewrite Hgrp, <- Hafter, <- Hrest.
    split; [reflexivity|]. split; [discriminate|]. split; assumption.
Qed.

(** Every match of the scan sits at a place of the text. *)
Lemma finditer_from_spec (kw s : string) (pos skip start : nat) (grp : string) :
  In (start, grp) (finditer_from kw s pos skip) ->
  exists before rest len,
    s = (before ++ rest)%string
    /\ start = (pos + String.length before)%nat
    /\ match_here kw rest = Some (grp, len).
Proof.
  revert pos skip. induction s as [|c tl IH]; simpl; intros pos skip H.
  - contradiction.
  - assert (Htl : forall k, In (start, grp) (finditer_from kw tl (S pos) k) ->
                   exists before rest len,
                     String c tl = (before ++ rest)%string
                     /\ start = (pos + String.length before)%nat
                     /\ match_here kw rest = Some (grp, len)).
    { intros k Hk. destruct (IH _ _ Hk) as [b [r [l [-> [-> Hm]]]]].
      exists (String c b), r, l. simpl. split; [reflexivity|]. split; [lia|exact Hm]. }
    destruct skip as [|k]; [|apply (Htl k), H].
    destruct (match_here kw (String c tl)) as [[g l]|] eqn:Em; [|apply (Htl 0%nat), H].
    destruct H as [H|H]; [|apply (Htl (Nat.pred l)), H].
    injection H as <- <-. exists "", (String c tl), l.
    simpl. split; [reflexivity|]. split; [lia|exact Em].
Qed.

Lemma keywords_lower (kw : string) :
  In kw requirement_keywords -> lower kw = kw /\ (0 < String.length kw)%nat.
Proof.
  intros [<-|[<-|[<-|[<-|[]]]]]; (split; [reflexivity|simpl; lia]).
Qed.

Lemma length_strip_le (s : string) : (String.length (strip s) <= String.length s)%nat.
Proof.
  destruct (strip_spec s) as [pre [post [H _]]].
  rewrite H at 2. rewrite !length_append. lia.
Qed.

(** The texts of the embedding are the sequences of code points below
    256, each read back as it was given. *)
Lemma str_of_code_points (code_points : list N) :
  latin1 code_points -> code_points_of (str_of code_points) = code_points.
Proof.
  unfold code_points_of, str_of. rewrite list_ascii_of_string_of_list_ascii.
  induction 1 as [|c tl Hc _ IH]; [reflexivity|].
  cbn [map]. rewrite IH, (N_ascii_embedding c Hc). reflexivity.
Qed.

Lemma latin1_code_points_of (s : string) : latin1 (code_points_of s).
Proof.
  unfold latin1, code_points_of.
  induction s as [|c tl IH]; cbn [list_ascii_of_string map]; constructor;
    [apply N_ascii_bounded|exact IH].
Qed.

Lemma requirement_in_text (document : string) (r : requirement) :
  In r (_extract_requirements document) ->
  type r = "mandatory"
  /\ (10 < String.length (text r))%nat
  /\ strip (text r) = text r
  /\ all_chars not_period (text r) = true
  /\ (position r < String.length document)%nat
  /\ exists kw before word ws tail,
       In kw requirement_keywords
       /\ document = (before ++ word ++ ws ++ text r ++ tail)%string
       /\ String.length before = position r
       /\ lower word = kw
       /\ ws <> ""%string /\ all_chars isspace ws = true.
Proof.
  intro Hin. unfold _extract_requirements in Hin.
  apply (RequirementFacts.sublist_in _ _ _ (RequirementFacts.sublist_firstn _ _)) in Hin.
  apply (RequirementFacts.sublist_in _ _ _
           (RequirementFacts.remove_duplicates_sublist _ _)) in Hin.
  unfold all_requirements in Hin. apply in_flat_map in Hin.
  destruct Hin as [kw [Hkw Hin]].
  apply RequirementFacts.collect_in in Hin.
  destruct Hin as [start [grp [Hm [-> Hlen]]]]. cbn [type text position].
  apply finditer_from_spec in Hm.
  destruct Hm as [before [rest [len [Hdoc [Hstart Hm]]]]]. simpl in Hstart. subst start.
  apply match_here_spec in Hm. destruct Hm as [after_kw [Hlit Hcase]].
  destruct (keywords_lower kw Hkw) as [Hlow Hpos].
  destruct (match_literal_spec kw rest after_kw Hlow Hlit) as [word [Hrest Hword]].
  destruct Hcase as [[ws [tail [Hafter [Hne [Hws Hgrp]]]]]|Hshort];
    [|pose proof (length_strip_le grp); lia].
  destruct (strip_spec grp) as [pre [post [Hg [Hpre Hpost]]]].
  split; [reflexivity|]. split; [exact Hlen|]. split; [apply strip_idempotent|].
  split.
  { rewrite Hg, !all_chars_app in Hgrp.
    apply andb_true_iff in Hgrp. destruct Hgrp as [_ Hgrp].
    apply andb_true_iff in Hgrp. apply Hgrp. }
  assert (Hw : String.length word = String.length kw).
  { rewrite <- Hword. clear. induction word; simpl; auto. }
  split.
  { rewrite Hdoc, Hrest, !length_append. lia. }
  exists kw, before, word, (ws ++ pre)%string, (post ++ tail)%string.
  split; [exact Hkw|]. split.
  { rewrite Hdoc, Hrest, Hafter. rewrite Hg at 1.
    rewrite !append_assoc. reflexivity. }
  split; [reflexivity|]. split; [exact Hword|]. split.
  - destruct ws; [congruence|discriminate].
  - rewrite all_chars_app, Hws, Hpre. reflexivity.
Qed.

(** X12.  Of a document whose code points are all below 256, which the
    analyzer is given as it is: every requirement
    [_extract_requirements] returns is of type mandatory and sits in the
    document: at its [position] the document has one of the keywords
    must, shall, required to, mandatory in any letter case, then a
    non-empty run of white space, then the text of the requirement.  The
    text has more than 10 characters, none of them a period, and neither
    starts nor ends with white space.  (Beyond U+00FF the keyword can be
    written with letters [str.lower] does not turn into its own, and the
    statement is not made.) *)
Theorem extracted_requirements_sit_in_the_document
    (document : list N) (r : requirement) :
  latin1 document ->
  In r (_extract_requirements (str_of document)) ->
  code_points_of (str_of document) = document
  /\ type r = "mandatory"
  /\ (10 < String.length (text r))%nat
  /\ strip (text r) = text r
  /\ all_chars not_period (text r) = true
  /\ (position r < String.length (str_of document))%nat
  /\ exists kw before word ws tail,
       In kw requirement_keywords
       /\ str_of document = (before ++ word ++ ws ++ text r ++ tail)%string
       /\ String.length before = position r
       /\ lower word = kw
       /\ ws <> ""%string /\ all_chars isspace ws = true.
Proof.
  intros Hl Hin. split; [apply str_of_code_points, Hl|].
  apply requirement_in_text, Hin.
Qed.

Lemma extracted_requirements_sit_in_the_document_witness :
  exists r,
    _extract_requirements
      (str_of (code_points_of "All visitors MUST   sign the register. Thanks."))
    = [r]
    /\ text r = "sign the register"
    /\ position r = 13%nat
    /\ type r = "mandatory"
    /\ strip (text r) = text r
    /\ all_chars not_period (text r) = true.
Proof.
  eexists. split; [vm_compute; reflexivity|].
  split; [reflexivity|]. split; [reflexivity|].
  destruct (extracted_requirements_sit_in_the_document
              (code_points_of "All visitors MUST   sign the register. Thanks.")
              {| text := "sign the register"; type := "mandatory"; position := 13 |})
    as [_ [H1 [_ [H3 [H4 _]]]]].
  - apply latin1_code_points_of.
  - vm_compute. left. reflexivity.
  - split; [exact H1|]. split; [exact H3|exact H4].
Defined.

(** *** A text without the keywords *)

Lemma match_literal_prefix (kw s rest : string) :
  lower kw = kw -> match_literal kw s = Some rest -> String.prefix kw (lower s) = true.
Proof.
  intros Hl H. destruct (match_literal_spec kw s rest Hl H) as [word [-> Hw]].
  subst kw. clear. induction word as [|c w IH]; simpl;
    [destruct (lower rest); reflexivity|].
  destruct (ascii_dec (lower_char c) (lower_char c)); [exact IH|congruence].
Qed.

Lemma finditer_from_absent (kw s : string) (pos skip : nat) :
  lower kw = kw -> contains kw (lower s) = false -> finditer_from kw s pos skip = [].
Proof.
  intro Hl. revert pos skip. induction s as [|c tl IH]; intros pos skip H;
    [reflexivity|].
  cbn [lower contains] in H. apply orb_false_iff in H. destruct H as [Hp Hc].
  cbn [finditer_from]. destruct skip as [|k]; [|apply IH, Hc].
  assert (Hm : match_here kw (String c tl) = None).
  { unfold match_here. destruct (match_literal kw (String c tl)) as [rest|] eqn:E;
      [|reflexivity].
    apply (match_literal_prefix kw _ rest Hl) in E. cbn [lower] in E. congruence. }
  rewrite Hm. apply IH, Hc.
Qed.

Lemma no_keyword_in_text (document : string) :
  (forall kw, In kw requirement_keywords -> contains kw (lower document) = false) ->
  _extract_requirements document = [].
Proof.
  intro H. unfold _extract_requirements, all_requirements.
  assert (E : flat_map (fun kw => collect (finditer kw document)) requirement_keywords
              = []).
  { assert (G : forall kws, (forall kw, In kw kws -> In kw requirement_keywords) ->
                 flat_map (fun kw => collect (finditer kw document)) kws = []).
    { induction kws as [|kw kws IH]; intro Hk; [reflexivity|].
      cbn [flat_map]. unfold finditer at 1.
      rewrite finditer_from_absent;
        [|apply keywords_lower, Hk; left; reflexivity|apply H, Hk; left; reflexivity].
      apply IH. intros k Hin. apply Hk. right. exact Hin. }
    apply G. auto. }
  rewrite E. reflexivity.
Qed.

(** X13.  A document whose code points are all below 256, which the
    analyzer is given as it is, and in which none of the keywords must,
    shall, required to, mandatory occurs, letter case apart, yields no
    requirement.  (Beyond U+00FF it can yield one: [re.IGNORECASE] finds
    the keyword must in a word written with U+017F for its s, and
    [str.lower] leaves that word as it is.) *)
Theorem no_keyword_no_requirement (document : list N) :
  latin1 document ->
  (forall kw, In kw requirement_keywords ->
              contains kw (lower (str_of document)) = false) ->
  code_points_of (str_of document) = document
  /\ _extract_requirements (str_of document) = [].
Proof.
  intros Hl H. split; [apply str_of_code_points, Hl|].
  apply no_keyword_in_text, H.
Qed.

Lemma no_keyword_no_requirement_witness :
  _extract_requirements
    (str_of (code_points_of "Visitors sign the register at the front desk."))
  = [].
Proof.
  apply (no_keyword_no_requirement
           (code_points_of "Visitors sign the register at the front desk.")).
  - apply latin1_code_points_of.
  - intros kw [<-|[<-|[<-|[<-|[]]]]]; vm_compute; reflexivity.
Defined.

End RequirementShapeFacts.

(* ================================================================== *)
(** ** The remediation ranking: bounds, idempotence, stability *)
(* ================================================================== *)

Module RankingFacts.
Import Py RecommendationEngine.
Local Open Scope list_scope.

Lemma dict_set_present (d : dict) (k : string) (v : pyval) :
  dict_get d k = Some v -> dict_set d k v = d.
Proof.
  induction d as [|[k' v'] tl IH]; simpl; [discriminate|].
  destruct (String.eqb_spec k' k) as [->|Hne].
  - intro H. injection H as ->. reflexivity.
  - intro H. rewrite (IH H). reflexivity.
Qed.

Lemma priority_score_score_gap (gap : dict) :
  priority_score (score_gap gap) = priority_score gap.
Proof.
  destruct (RemediationFacts.score_gap_keys gap) as [_ [_ Hk]].
  unfold priority_score, dict_get_default.
  rewrite !Hk by discriminate. reflexivity.
Qed.

(** Scoring a scored gap changes nothing. *)
Lemma score_gap_idempotent (gap : dict) : score_gap (score_gap gap) = score_gap gap.
Proof.
  destruct (RemediationFacts.score_gap_keys gap) as [Hs [Ha _]].
  unfold score_gap at 1. rewrite priority_score_score_gap.
  rewrite (dict_set_present _ _ _ Hs). apply dict_set_present, Ha.
Qed.

Section Sorting.
Context {A : Type} (key : A -> Z).

Lemma sort_desc_sorted_id (l : list A) :
  StronglySorted (desc key) l -> sort_desc key l = l.
Proof.
  induction 1 as [|x tl Hs IH Hx]; [reflexivity|].
  simpl. rewrite IH. destruct tl as [|y tl']; [reflexivity|].
  simpl. inversion Hx as [|? ? Hy _]; subst. unfold desc in Hy.
  apply Z.leb_le in Hy. rewrite Hy. reflexivity.
Qed.

Lemma filter_insert_desc (k : Z) (x : A) (l : list A) :
  filter (fun a => key a =? k) (insert_desc key x l)
  = filter (fun a => key a =? k) (x :: l).
Proof.
  induction l as [|y tl IH]; [reflexivity|].
  cbn [insert_desc]. destruct (Z.leb_spec (key y) (key x)) as [Hle|Hgt]; [reflexivity|].
  cbn [filter] in *. rewrite IH.
  destruct (Z.eqb_spec (key x) k) as [Ex|Ex]; [|reflexivity].
  destruct (Z.eqb_spec (key y) k) as [Ey|Ey]; [lia|reflexivity].
Qed.

Lemma filter_sort_desc (k : Z) (l : list A) :
  filter (fun a => key a =? k) (sort_desc key l) = filter (fun a => key a =? k) l.
Proof.
  induction l as [|x tl IH]; [reflexivity|].
  cbn [sort_desc]. rewrite filter_insert_desc. cbn [filter]. rewrite IH. reflexivity.
Qed.
End Sorting.

Lemma map_fixed {A : Type} (f : A -> A) (l : list A) :
  (forall x, In x l -> f x = x) -> map f l = l.
Proof.
  induction l as [|x tl IH]; intro H; [reflexivity|].
  simpl. rewrite H by (left; reflexivity). rewrite IH; [reflexivity|].
  intros y Hy. apply H. right. exact Hy.
Qed.

(** X14.  Ranking a ranked plan again returns it unchanged: the scores,
    the actions and the order are those of the first ranking. *)
Theorem prioritize_remediation_idempotent (gaps : list dict) :
  prioritize_remediation (prioritize_remediation gaps) = prioritize_remediation gaps
  /\ List.length (prioritize_remediation gaps) = List.length gaps.
Proof.
  split.
  - unfold prioritize_remediation.
    rewrite (map_fixed score_gap (sort_desc sort_key (map score_gap gaps))).
    + apply sort_desc_sorted_id. apply PyFacts.sort_desc_sorted.
    + intros g Hg.
      apply (Permutation_in _ (PyFacts.sort_desc_perm sort_key (map score_gap gaps))) in Hg.
      apply in_map_iff in Hg. destruct Hg as [g0 [<- _]]. apply score_gap_idempotent.
  - unfold prioritize_remediation.
    rewrite (Permutation_length (PyFacts.sort_desc_perm sort_key (map score_gap gaps))).
    apply length_map.
Qed.

(** X15.  Gaps with the same score keep the order they had in the input:
    for every score, the gaps of the result with that score are the
    scored gaps of the input with that score, in input order. *)
Theorem prioritize_remediation_is_stable (gaps : list dict) (k : Z) :
  filter (fun g => sort_key g =? k) (prioritize_remediation gaps)
  = map score_gap (filter (fun g => priority_score g =? k) gaps).
Proof.
  unfold prioritize_remediation. rewrite filter_sort_desc.
  induction gaps as [|g tl IH]; [reflexivity|].
  cbn [map filter]. rewrite RemediationFacts.sort_key_score_gap, IH.
  destruct (priority_score g =? k); reflexivity.
Qed.

(** X16.  The score of a gap lies between 25 and 150.  The action is
    Immediate exactly for a gap of priority Critical, complexity Low and
    cost Low, and Low Priority exactly when the score is below 50, which
    a gap of priority Critical, High or Medium never is. *)
Theorem priority_score_bounds (gap : dict) :
  25 <= priority_score gap <= 150
  /\ (action (priority_score gap) = "Immediate - Start within 1 week"
      <-> dict_get gap "priority" = Some (VStr "Critical")
          /\ dict_get_default gap "complexity" (VStr "Medium") = VStr "Low"
          /\ dict_get_default gap "cost" (VStr "Medium") = VStr "Low")
  /\ (action (priority_score gap) = "Low Priority - Address as resources allow"
      <-> priority_score gap < 50)
  /\ (forall p, In p ["Critical"; "High"; "Medium"] ->
                dict_get gap "priority" = Some (VStr p) -> 50 <= priority_score gap).
Proof.
  unfold priority_score. cbv zeta.
  generalize (dict_get_default gap "complexity" (VStr "Medium")) as c.
  generalize (dict_get_default gap "cost" (VStr "Medium")) as k.
  intros k c.
  destruct (dict_get gap "priority") as [v|];
    repeat match goal with
           | |- context [if eq_str ?x ?s then _ else _] =>
               let E := fresh "E" in destruct (eq_str x s) eqn:E
           end;
    (split; [simpl; lia|]);
    (split;
     [split;
      [intro H;
       first [ vm_compute in H; discriminate H
             | repeat split; [f_equal|..]; apply RemediationFacts.eq_str_spec; assumption ]
      |intros [H1 [H2 H3]];
       first [ reflexivity
             | exfalso; try discriminate H1; try (injection H1 as H1);
               subst; simpl in *; congruence ]]
     |]);
    (split;
     [split;
      [intro H; first [vm_compute in H; discriminate H|simpl; lia]
      |intro H; first [reflexivity|exfalso; simpl in H; lia]]
     |]);
    intros p Hp H;
    first [ simpl; lia
          | exfalso; try discriminate H;
            destruct Hp as [<-|[<-|[<-|[]]]]; injection H as H; subst;
            simpl in *; congruence ].
Qed.

End RankingFacts.

(* ================================================================== *)
(** ** Ranking the gaps of a gap report *)
(* ================================================================== *)

Module PipelineFacts.
Import Py GapAnalysis RecommendationEngine GapSpec Pipeline.
Local Open Scope list_scope.

(** X17.  Of [gap_analysis.py] with line 79 repaired.  Ranking the gaps
    of a gap report: the critical gaps come first and the high-priority
    gaps after them, each group in catalog order; a critical gap gets the
    score 125 and a high-priority gap the score 100, and every gap of the
    plan gets the action High Priority.  The gap of Art.33 is ranked by
    the priority High that the repaired line gives it. *)
Theorem remediation_plan_of_gap_report
    (now framework : string) (current_controls : list pyval) (report : gap_report) :
  analyze_gaps now framework current_controls = Ok report ->
  prioritize_remediation (map dict_of_gap (gaps report))
  = map (fun g => score_gap (dict_of_gap g))
        (filter is_critical (gaps report) ++ filter is_high (gaps report))
  /\ (forall g, In g (gaps report) ->
        dict_get (score_gap (dict_of_gap g)) "action"
        = Some (VStr "High Priority - Start within 1 month")
        /\ dict_get (score_gap (dict_of_gap g)) "priority_score"
           = Some (VInt (if is_critical g then 125 else 100))).
Proof.
  intro H. apply GapReportFacts.analyze_gaps_ok in H.
  destruct H as [required [ids [Hreq [_ [Hg _]]]]].
  rewrite Hg. clear Hg.
  destruct (GapReportFacts.frameworks_get_cases _ _ Hreq) as [-> | [-> | ->]];
    cbn [filter _load_iso27001_controls _load_soc2_controls _load_gdpr_requirements id];
    repeat match goal with
           | |- context [negb (implemented ids ?s)] =>
               destruct (implemented ids s); cbn [negb]
           end;
    (split; [vm_compute; reflexivity|]);
    intros g Hin; cbn [map In] in Hin;
    repeat (destruct Hin as [<-|Hin]; [split; vm_compute; reflexivity|]);
    contradiction.
Qed.

Lemma remediation_plan_of_gap_report_witness :
  exists report,
    analyze_gaps "2024-05-01T09:30:00" "iso27001" [VDict [("id", VStr "A.5.2")]]
    = Ok report
    /\ map (fun d => dict_get d "control_id")
           (prioritize_remediation (map dict_of_gap (gaps report)))
       = [Some (VStr "A.5.1"); Some (VStr "A.8.1")]
    /\ prioritize_remediation (map dict_of_gap (gaps report))
       = map (fun g => score_gap (dict_of_gap g))
             (filter is_critical (gaps report) ++ filter is_high (gaps report)).
Proof.
  eexists. split; [vm_compute; reflexivity|]. split; [vm_compute; reflexivity|].
  apply (remediation_plan_of_gap_report "2024-05-01T09:30:00" "iso27001"
           [VDict [("id", VStr "A.5.2")]]).
  vm_compute. reflexivity.
Defined.

End PipelineFacts.

(* ================================================================== *)
(** ** Sorting by a binary64 key *)
(* ================================================================== *)

Module SortFloatFacts.
Import Py PyMore Binary64 Binary64Facts Binary64Order.
Local Open Scope list_scope.

Lemma SFleb_total (x y : spec_float) :
  nonneg_sf x -> nonneg_sf y -> SFleb x y = false -> SFleb y x = true.
Proof.
  intros [_ Hx] [_ Hy]. unfold SFleb, SFcompare.
  destruct x as [[|]| | |[|] m1 e1]; try contradiction;
    destruct y as [[|]| | |[|] m2 e2]; try contradiction;
    try reflexivity; try discriminate.
  rewrite (Z.compare_antisym e1 e2).
  destruct (e1 ?= e2)%Z; cbn [CompOpp]; try reflexivity; try discriminate.
  fold (Pos.compare m1 m2). fold (Pos.compare m2 m1).
  rewrite (Pos.compare_antisym m1 m2).
  destruct (m1 ?= m2)%positive; cbn [CompOpp]; try reflexivity; discriminate.
Qed.

Lemma leb_total (x y : float) :
  nonneg_finite x -> nonneg_finite y -> (x <=? y)%float = false -> (y <=? x)%float = true.
Proof.
  intros Hx Hy. rewrite !FloatAxioms.leb_spec.
  apply SFleb_total; apply nonneg_finite_sf; assumption.
Qed.

Section SortFloat.
Context {A : Type} (key : A -> float).

Lemma insert_desc_float_perm (x : A) (l : list A) :
  Permutation (insert_desc_float key x l) (x :: l).
Proof.
  induction l as [|y tl IH]; simpl.
  - apply Permutation_refl.
  - destruct (key y <=? key x)%float.
    + apply Permutation_refl.
    + eapply Permutation_trans; [apply perm_skip, IH|apply perm_swap].
Qed.

Lemma sort_desc_float_perm (l : list A) : Permutation (sort_desc_float key l) l.
Proof.
  induction l as [|x tl IH]; simpl.
  - apply perm_nil.
  - eapply Permutation_trans; [apply insert_desc_float_perm|].
    apply perm_skip, IH.
Qed.

Lemma insert_desc_float_sorted (x : A) (l : list A) :
  nonneg_finite (key x) -> Forall (fun a => nonneg_finite (key a)) l ->
  StronglySorted (desc_float key) l -> StronglySorted (desc_float key) (insert_desc_float key x l).
Proof.
  intros Nx. induction l as [|y tl IH]; simpl; intros Nl Hs.
  - constructor; constructor.
  - apply StronglySorted_inv in Hs. destruct Hs as [Htl Hy].
    inversion Nl as [|? ? Ny Ntl]; subst.
    destruct (key y <=? key x)%float eqn:E.
    + constructor.
      * constructor; assumption.
      * constructor; [exact E|].
        rewrite Forall_forall in Hy, Ntl. apply Forall_forall. intros a Ha.
        unfold desc_float in *.
        apply (leb_trans (key a) (key y) (key x)); auto.
    + constructor.
      * apply IH; assumption.
      * eapply Permutation_Forall.
        { apply Permutation_sym, insert_desc_float_perm. }
        constructor; [|exact Hy].
        unfold desc_float. apply leb_total; assumption.
Qed.

Lemma sort_desc_float_sorted (l : list A) :
  Forall (fun a => nonneg_finite (key a)) l ->
  StronglySorted (desc_float key) (sort_desc_float key l).
Proof.
  induction l as [|x tl IH]; simpl; intro Nl.
  - constructor.
  - inversion Nl as [|? ? Nx Ntl]; subst.
    apply insert_desc_float_sorted; [exact Nx| |apply IH, Ntl].
    eapply Permutation_Forall; [apply Permutation_sym, sort_desc_float_perm|exact Ntl].
Qed.
End SortFloat.

(** Two sorted lists with the same elements are equal when no two
    different elements are each before the other. *)
Lemma sorted_unique {A : Type} (R : A -> A -> Prop) (l1 l2 : list A) :
  (forall a b, In a l1 -> In b l1 -> R a b -> R b a -> a = b) ->
  StronglySorted R l1 -> StronglySorted R l2 -> Permutation l1 l2 -> l1 = l2.
Proof.
  revert l2. induction l1 as [|x t1 IH]; intros l2 Hanti H1 H2 Hp.
  - apply Permutation_nil in Hp. subst. reflexivity.
  - destruct l2 as [|y t2]; [apply Permutation_sym, Permutation_nil in Hp; discriminate|].
    apply StronglySorted_inv in H1. destruct H1 as [Ht1 Hx].
    apply StronglySorted_inv in H2. destruct H2 as [Ht2 Hy].
    rewrite Forall_forall in Hx, Hy.
    assert (Exy : x = y).
    { assert (Hxin : In x (y :: t2)) by (eapply Permutation_in; [exact Hp|left; reflexivity]).
      assert (Hyin : In y (x :: t1))
        by (eapply Permutation_in; [apply Permutation_sym, Hp|left; reflexivity]).
      destruct Hxin as [E|Hxin]; [auto|]. destruct Hyin as [E|Hyin]; [auto|].
      apply Hanti; [left; reflexivity|right; exact Hyin|apply Hx, Hyin|apply Hy, Hxin]. }
    subst y. f_equal. apply IH; auto.
    + intros a b Ha Hb. apply Hanti; right; assumption.
    + eapply Permutation_cons_inv; exact Hp.
Qed.

Lemma StronglySorted_filter {A : Type} (R : A -> A -> Prop) (p : A -> bool) (l : list A) :
  StronglySorted R l -> StronglySorted R (filter p l).
Proof.
  induction 1 as [|x tl Hs IH Hx]; simpl; [constructor|].
  destruct (p x); [|exact IH]. constructor; [exact IH|].
  apply Forall_forall. intros a Ha. apply filter_In in Ha.
  rewrite Forall_forall in Hx. apply Hx, Ha.
Qed.

End SortFloatFacts.

(* ================================================================== *)
(** ** The control recommendations *)
(* ================================================================== *)

Module ControlFacts.
Import Py PyMore ControlLibrary ControlSpec Binary64 SortFloatFacts.
Local Open Scope list_scope.

(** *** [dict.items] *)

Lemma items_from_spec (seen : list string) (d : dict) (k : string) (v : pyval) :
  In (k, v) (items_from seen d) <-> (~ In k seen /\ dict_get d k = Some v).
Proof.
  revert seen. induction d as [|[k0 v0] tl IH]; intro seen; simpl.
  - split; [contradiction|intros [_ H]; discriminate].
  - destruct (existsb (String.eqb k0) seen) eqn:E.
    + rewrite IH. apply RequirementFacts.existsb_eqb_in in E.
      destruct (String.eqb_spec k0 k) as [->|Hne]; [tauto|tauto].
    + assert (Hn : ~ In k0 seen).
      { intro Hin. apply RequirementFacts.existsb_eqb_in in Hin. congruence. }
      simpl. rewrite IH. simpl.
      destruct (String.eqb_spec k0 k) as [->|Hne].
      * split.
        -- intros [H|[H _]]; [injection H as <-; auto|tauto].
        -- intros [_ H]. left. congruence.
      * split.
        -- intros [H|[H H']]; [congruence|tauto].
        -- intros [H H']. right. tauto.
Qed.

Lemma items_from_NoDup (seen : list string) (d : dict) :
  NoDup (map fst (items_from seen d)).
Proof.
  revert seen. induction d as [|[k0 v0] tl IH]; intro seen; simpl; [constructor|].
  destruct (existsb (String.eqb k0) seen); [apply IH|].
  simpl. constructor; [|apply IH].
  intro Hin. apply in_map_iff in Hin. destruct Hin as [[k v] [Hk Hin]].
  simpl in Hk. subst k. apply items_from_spec in Hin. apply (proj1 Hin).
  left. reflexivity.
Qed.

(** The high-risk categories: each once, those the levels flag. *)
Lemma high_risk_categories (levels : dict) :
  let cats := map fst (filter (fun item => is_high_risk (snd item)) (items levels)) in
  NoDup cats /\ forall cat, In cat cats <-> flagged levels cat = true.
Proof.
  intro cats. split.
  - subst cats. unfold items.
    pose proof (items_from_NoDup [] levels) as Hn.
    induction (items_from [] levels) as [|[k v] tl IH]; simpl; [constructor|].
    simpl in Hn. inversion Hn as [|? ? Hk Htl]; subst.
    destruct (is_high_risk v); simpl; [|apply IH, Htl].
    constructor; [|apply IH, Htl].
    intro Hin. apply Hk. apply in_map_iff in Hin. destruct Hin as [x [Hx Hin]].
    apply filter_In in Hin. apply in_map_iff. exists x. tauto.
  - intro cat. subst cats. unfold flagged. rewrite in_map_iff. split.
    + intros [[k v] [Hk Hin]]. simpl in Hk. subst k.
      apply filter_In in Hin. destruct Hin as [Hin Hv].
      apply items_from_spec in Hin. destruct Hin as [_ ->]. exact Hv.
    + destruct (dict_get levels cat) as [v|] eqn:E; [|discriminate].
      intro Hv. exists (cat, v). split; [reflexivity|]. apply filter_In.
      split; [|exact Hv]. apply items_from_spec. split; [simpl; tauto|exact E].
Qed.

(** *** The recommendations of one category *)

Lemma recs_of_cases (risk_profile : dict) (cat : string) :
  (cat = "access_control" \/ cat = "data_protection" \/ cat = "incident_response")
  \/ recs_of risk_profile cat = [].
Proof.
  unfold recs_of, control_library, _load_control_library. cbn [table_get].
  destruct (String.eqb_spec "access_control" cat) as [<-|_]; [auto|].
  destruct (String.eqb_spec "data_protection" cat) as [<-|_]; [auto|].
  destruct (String.eqb_spec "incident_response" cat) as [<-|_]; [auto|].
  right. reflexivity.
Qed.

Lemma recs_of_category (risk_profile : dict) (cat : string) (r : recommendation) :
  In r (recs_of risk_profile cat) -> category r = cat /\ In r ranking.
Proof.
  destruct (recs_of_cases risk_profile cat) as [[-> | [-> | ->]]|E];
    [| | |rewrite E; contradiction];
    unfold recs_of; cbn; intro H;
    repeat (destruct H as [<-|H]; [split; [reflexivity|unfold ranking; simpl; tauto]|]);
    contradiction.
Qed.

Lemma ranking_recs_of (risk_profile : dict) (r : recommendation) :
  In r ranking -> In r (recs_of risk_profile (category r)).
Proof.
  unfold ranking. intro H. cbn [In] in H.
  repeat (destruct H as [<-|H]; [unfold recs_of; cbn; tauto|]). contradiction.
Qed.

Lemma ranking_NoDup : NoDup ranking.
Proof.
  unfold ranking.
  repeat (constructor;
          [cbn [In]; intro H;
           repeat (destruct H as [H|H];
                   [apply (f_equal (fun r => id (control r))) in H; discriminate H|]);
           contradiction|]).
  constructor.
Qed.

Lemma ranking_sorted : StronglySorted by_score ranking.
Proof.
  unfold ranking.
  repeat (apply SSorted_cons;
          [|repeat (apply Forall_cons; [vm_compute; reflexivity|]); apply Forall_nil]).
  apply SSorted_nil.
Qed.

Lemma ranking_scores (r : recommendation) :
  In r ranking -> nonneg_finite (recommendation_score r).
Proof.
  unfold ranking. cbn [In]. intro H.
  repeat (destruct H as [<-|H]; [vm_compute; exact I|]). contradiction.
Qed.

Lemma ranking_antisym (a b : recommendation) :
  In a ranking -> In b ranking -> by_score a b -> by_score b a -> a = b.
Proof.
  unfold ranking, by_score. cbn [In]. intros Ha Hb.
  repeat (destruct Ha as [<-|Ha]; [|]); try contradiction;
    repeat (destruct Hb as [<-|Hb]; [|]); try contradiction;
    intros H1 H2; try reflexivity;
    first [vm_compute in H1; discriminate H1|vm_compute in H2; discriminate H2].
Qed.

Lemma flat_map_NoDup {A B : Type} (f : A -> list B) (g : B -> A) (l : list A) :
  NoDup l -> (forall a, NoDup (f a)) -> (forall a b, In b (f a) -> g b = a) ->
  NoDup (flat_map f l).
Proof.
  intros Hl Hf Hg. induction Hl as [|a tl Ha Htl IH]; simpl; [constructor|].
  apply NoDup_app; [apply Hf|exact IH|].
  intros b Hb Hb'. apply in_flat_map in Hb'. destruct Hb' as [a' [Ha' Hb']].
  apply Hg in Hb. apply Hg in Hb'. congruence.
Qed.

Lemma recs_of_NoDup (risk_profile : dict) (cat : string) :
  NoDup (recs_of risk_profile cat).
Proof.
  destruct (recs_of_cases risk_profile cat) as [[-> | [-> | ->]]|E];
    [| | |rewrite E; constructor];
    unfold recs_of; cbn;
    repeat (constructor;
            [cbn [In]; intro H;
             repeat (destruct H as [H|H];
                     [apply (f_equal (fun r => id (control r))) in H; discriminate H|]);
             contradiction|]);
    constructor.
Qed.

(** X18.  [recommend_controls] returns the library controls of the
    categories the risk profile gives the level High or Critical, and
    always in the same order: Data Encryption in Transit (97), Data
    Encryption at Rest (96), Multi-Factor Authentication (90),
    Role-Based Access Control (82.5), Incident Response Plan (81.5),
    whatever the order of the categories in the profile.  The list is
    sorted by score, the highest first, and has at most five entries,
    so that the cap of ten never cuts it. *)
Theorem recommend_controls_ranking (risk_profile levels : dict) :
  dict_get_default risk_profile "risk_levels" (VDict []) = VDict levels ->
  recommend_controls risk_profile
  = Ok (filter (fun r => flagged levels (category r)) ranking)
  /\ StronglySorted by_score (filter (fun r => flagged levels (category r)) ranking)
  /\ (List.length (filter (fun r => flagged levels (category r)) ranking) <= 5)%nat
  /\ map (fun r => (id (control r), recommendation_score r)) ranking
     = [("DP-002", 97%float); ("DP-001", 96%float); ("AC-001", 90%float);
        ("AC-002", 82.5%float); ("IR-001", 81.5%float)].
Proof.
  intro Hlevels.
  set (target := filter (fun r => flagged levels (category r)) ranking).
  assert (Hlen : (List.length target <= 5)%nat)
    by (apply (Nat.le_trans _ _ _ (filter_length_le _ _)); reflexivity).
  assert (Hsorted : StronglySorted by_score target)
    by (apply StronglySorted_filter, ranking_sorted).
  split; [|split; [exact Hsorted|split; [exact Hlen|vm_compute; reflexivity]]].
  unfold recommend_controls. rewrite Hlevels. unfold bind.
  destruct (high_risk_categories levels) as [Hnd Hcats].
  set (cats := map fst (filter (fun item => is_high_risk (snd item)) (items levels))) in *.
  fold (recs_of risk_profile).
  set (L := flat_map (recs_of risk_profile) cats).
  assert (HL : forall r, In r L <-> In r target).
  { intro r. unfold L, target. rewrite in_flat_map, filter_In. split.
    - intros [cat [Hc Hr]]. apply recs_of_category in Hr. destruct Hr as [<- Hr].
      split; [exact Hr|apply Hcats, Hc].
    - intros [Hr Hf]. exists (category r). split; [apply Hcats, Hf|].
      apply ranking_recs_of, Hr. }
  assert (Hperm : Permutation L target).
  { apply NoDup_Permutation; [| |exact HL].
    - apply (flat_map_NoDup _ category); [exact Hnd|apply recs_of_NoDup|].
      intros a b Hb. apply recs_of_category in Hb. apply Hb.
    - apply NoDup_filter, ranking_NoDup. }
  assert (Hin : forall r, In r L -> In r ranking).
  { intros r Hr. apply HL in Hr. apply filter_In in Hr. apply Hr. }
  assert (Hsort : sort_desc_float recommendation_score L = target).
  { apply (sorted_unique by_score).
    - intros a b Ha Hb.
      apply ranking_antisym; apply Hin.
      + apply (Permutation_in _ (sort_desc_float_perm recommendation_score L)), Ha.
      + apply (Permutation_in _ (sort_desc_float_perm recommendation_score L)), Hb.
    - apply (sort_desc_float_sorted recommendation_score).
      apply Forall_forall. intros r Hr. apply ranking_scores, Hin, Hr.
    - exact Hsorted.
    - eapply Permutation_trans; [apply sort_desc_float_perm|exact Hperm]. }
  rewrite Hsort. rewrite firstn_all2; [reflexivity|lia].
Qed.

Lemma recommend_controls_ranking_witness :
  exists recs,
    recommend_controls
      [("risk_levels",
        VDict [("access_control", VStr "High"); ("network", VStr "Critical");
               ("data_protection", VStr "Critical"); ("incident_response", VStr "Low")])]
    = Ok recs
    /\ map (fun r => id (control r)) recs = ["DP-002"; "DP-001"; "AC-001"; "AC-002"].
Proof.
  eexists. split.
  - apply (recommend_controls_ranking _
             [("access_control", VStr "High"); ("network", VStr "Critical");
              ("data_protection", VStr "Critical"); ("incident_response", VStr "Low")]).
    reflexivity.
  - reflexivity.
Defined.

End ControlFacts.

(* ================================================================== *)
(** ** The framework alignment and the control mapping *)
(* ================================================================== *)

Module AlignmentFacts.
Import Py PyMore ControlLibrary ControlSpec.
Local Open Scope list_scope.

Lemma category_controls_spec (category : string) (current_controls : list pyval) :
  category_controls category current_controls
  = if forallb is_mapping current_controls
    then Ok (filter (in_category category) current_controls)
    else Raise AttributeError.
Proof.
  induction current_controls as [|ctrl tl IH]; [reflexivity|].
  cbn [category_controls forallb filter]. rewrite IH.
  destruct ctrl as [| | | | | |d]; try reflexivity.
  cbn [has_category is_mapping in_category andb]. unfold bind.
  destruct (dict_get d "category") as [v|];
    destruct (forallb is_mapping tl); reflexivity.
Qed.

Lemma known_framework_cases (target_framework : string) :
  (table_mem framework_mappings target_framework = true
   /\ (target_framework = "iso27001" \/ target_framework = "soc2"))
  \/ (table_mem framework_mappings target_framework = false
      /\ table_get framework_mappings target_framework [] = []).
Proof.
  unfold table_mem, framework_mappings, _load_framework_mappings.
  cbn [existsb fst table_get].
  destruct (String.eqb_spec "iso27001" target_framework) as [<-|_]; [left; auto|].
  destruct (String.eqb_spec "soc2" target_framework) as [<-|_]; [left; auto|].
  right. split; reflexivity.
Qed.

(** The loop over the requirements, for well-formed controls. *)
Lemma suggest_spec (current_controls : list pyval) (target_framework : string) :
  forallb is_mapping current_controls = true ->
  suggest current_controls (table_get framework_mappings target_framework []) []
  = Ok (map (suggestion_for current_controls)
            (table_get framework_mappings target_framework [])).
Proof.
  intro Hm.
  destruct (known_framework_cases target_framework) as [[_ [-> | ->]]|[_ ->]];
    [| |reflexivity];
    cbn [table_get framework_mappings _load_framework_mappings String.eqb Ascii.eqb
         Bool.eqb suggest map];
    rewrite !category_controls_spec, Hm; unfold bind, suggestion_for; cbn [fst snd];
    repeat match goal with
           | |- context [filter (in_category ?c) current_controls] =>
               destruct (filter (in_category c) current_controls)
           end;
    reflexivity.
Qed.

(** X19.  [suggest_framework_alignment] never fails on an unknown
    framework: it returns the error value, whatever the controls.  On
    iso27001 and soc2 it returns an alignment exactly when every entry
    of the controls is a mapping; otherwise it raises [AttributeError]. *)
Theorem suggest_framework_alignment_totality
    (current_controls : list pyval) (target_framework : string) :
  (table_mem framework_mappings target_framework = false ->
   suggest_framework_alignment current_controls target_framework = Ok UnknownFramework)
  /\ (table_mem framework_mappings target_framework = true ->
      (target_framework = "iso27001" \/ target_framework = "soc2")
      /\ if forallb is_mapping current_controls
         then exists a,
                suggest_framework_alignment current_controls target_framework
                = Ok (Alignment a)
                /\ framework a = target_framework
         else suggest_framework_alignment current_controls target_framework
              = Raise AttributeError).
Proof.
  unfold suggest_framework_alignment. split.
  - intros ->. reflexivity.
  - intro Hk. rewrite Hk. cbn [negb].
    destruct (known_framework_cases target_framework) as [[_ Hc]|[Hn _]];
      [|congruence].
    split; [exact Hc|].
    destruct (forallb is_mapping current_controls) eqn:Hm.
    + rewrite (suggest_spec _ _ Hm). unfold bind. eexists. split; reflexivity.
    + destruct Hc as [-> | ->];
        cbn [table_get framework_mappings _load_framework_mappings String.eqb Ascii.eqb
             Bool.eqb suggest];
        rewrite category_controls_spec, Hm; reflexivity.
Qed.

(** The coverage percentage as a function of the number of requirements
    covered, out of three. *)
Lemma coverage_of (covered : nat) :
  (covered <= 3)%nat ->
  exists p,
    round_num (PFloat ((float_of_nat covered / float_of_nat 3) * 100)%float) 1 = PFloat p
    /\ (0 <=? p)%float = true /\ (p <=? 100)%float = true
    /\ (p = 100%float <-> covered = 3%nat)
    /\ (p = 0%float <-> covered = 0%nat).
Proof.
  intro H. destruct covered as [|[|[|[|n]]]]; try lia; clear H;
    (eexists; split; [vm_compute; reflexivity|]);
    (split; [reflexivity|]); (split; [reflexivity|]);
    split; split; intro H;
    first [ reflexivity
          | discriminate H
          | apply (f_equal (fun x => Prim2SF x)) in H; vm_compute in H; discriminate H ].
Qed.

Lemma suggestion_for_covered (current_controls : list pyval) (item : string * string) :
  is_covered (suggestion_for current_controls item)
  = existsb (in_category (snd item)) current_controls.
Proof.
  unfold suggestion_for.
  pose proof (SequenceFacts.filter_nil_existsb (in_category (snd item)) current_controls)
    as H.
  destruct (filter (in_category (snd item)) current_controls); rewrite H; reflexivity.
Qed.

(** The fields of an alignment. *)
Lemma alignment_fields
    (current_controls : list pyval) (target_framework : string) (a : alignment) :
  suggest_framework_alignment current_controls target_framework = Ok (Alignment a) ->
  suggestions a
  = map (suggestion_for current_controls)
        (table_get framework_mappings target_framework [])
  /\ total_requirements a = 3%nat
  /\ covered_requirements a
     = List.length (filter (fun item => existsb (in_category (snd item)) current_controls)
                           (table_get framework_mappings target_framework []))
  /\ (covered_requirements a <= 3)%nat
  /\ gap_count a = (3 - covered_requirements a)%nat
  /\ coverage_percentage a
     = round_num (PFloat ((float_of_nat (covered_requirements a) / float_of_nat 3)
                          * 100)%float) 1.
Proof.
  intro H. unfold suggest_framework_alignment in H.
  destruct (known_framework_cases target_framework) as [[Hmem Hc]|[Hmem _]];
    rewrite Hmem in H; cbn [negb] in H; [|discriminate].
  destruct (forallb is_mapping current_controls) eqn:Hm.
  2:{ exfalso. destruct Hc as [-> | ->];
        cbn [table_get framework_mappings _load_framework_mappings String.eqb Ascii.eqb
             Bool.eqb suggest] in H;
        rewrite category_controls_spec, Hm in H; discriminate. }
  rewrite (suggest_spec _ _ Hm) in H. unfold bind in H.
  set (fm := table_get framework_mappings target_framework []) in *.
  assert (Hlen : List.length fm = 3%nat) by (destruct Hc as [-> | ->]; reflexivity).
  assert (Hcov : List.length (filter is_covered (map (suggestion_for current_controls) fm))
                 = List.length
                     (filter (fun item => existsb (in_category (snd item)) current_controls)
                             fm)).
  { clear. induction fm as [|item tl IH]; [reflexivity|].
    cbn [map filter]. rewrite suggestion_for_covered.
    destruct (existsb (in_category (snd item)) current_controls); simpl; rewrite IH;
      reflexivity. }
  assert (Hle : (List.length
                   (filter (fun item => existsb (in_category (snd item)) current_controls)
                           fm) <= 3)%nat)
    by (rewrite <- Hlen; apply filter_length_le).
  rewrite length_map, Hcov, Hlen in H. injection H as <-.
  repeat split. exact Hle.
Qed.

(** X20.  An alignment lists the three requirements of the framework in
    the order of the mapping: a requirement is Covered, with the number
    of controls of its category, when some control has that category,
    and otherwise a Gap recommending the first two library controls of
    the category.  [total_requirements] is 3, the covered requirements
    and the gaps add up to it, and [coverage_percentage] is a float
    between 0 and 100 that is 100 exactly when there is no gap and 0
    exactly when nothing is covered. *)
Theorem alignment_accounting
    (current_controls : list pyval) (target_framework : string) (a : alignment) :
  suggest_framework_alignment current_controls target_framework = Ok (Alignment a) ->
  suggestions a
  = map (suggestion_for current_controls)
        (table_get framework_mappings target_framework [])
  /\ total_requirements a = 3%nat
  /\ covered_requirements a
     = List.length (filter (fun item => existsb (in_category (snd item)) current_controls)
                           (table_get framework_mappings target_framework []))
  /\ (covered_requirements a + gap_count a = total_requirements a)%nat
  /\ exists p,
       coverage_percentage a = PFloat p
       /\ (0 <=? p)%float = true /\ (p <=? 100)%float = true
       /\ (p = 100%float <-> gap_count a = 0%nat)
       /\ (p = 0%float <-> covered_requirements a = 0%nat).
Proof.
  intro H. destruct (alignment_fields _ _ _ H) as [Hs [Ht [Hc [Hle [Hg Hp]]]]].
  split; [exact Hs|]. split; [exact Ht|]. split; [exact Hc|].
  split; [rewrite Hg, Ht; lia|].
  destruct (coverage_of _ Hle) as [p [Ep [H0 [H100 [Hfull Hnone]]]]].
  exists p. split; [rewrite Hp; exact Ep|]. split; [exact H0|]. split; [exact H100|].
  split; [rewrite Hfull, Hg; lia|exact Hnone].
Qed.

Lemma alignment_accounting_witness :
  exists a,
    suggest_framework_alignment
      [VDict [("category", VStr "access_control"); ("name", VStr "MFA")]] "iso27001"
    = Ok (Alignment a)
    /\ coverage_percentage a = PFloat 33.3%float
    /\ total_requirements a = 3%nat
    /\ (covered_requirements a + gap_count a = total_requirements a)%nat.
Proof.
  eexists. split; [vm_compute; reflexivity|]. split; [reflexivity|].
  destruct (alignment_accounting
              [VDict [("category", VStr "access_control"); ("name", VStr "MFA")]]
              "iso27001" _ eq_refl) as [_ [H1 [_ [H2 _]]]].
  split; [exact H1|exact H2].
Defined.

Lemma existsb_incl {A : Type} (p : A -> bool) (l1 l2 : list A) :
  incl l1 l2 -> existsb p l1 = true -> existsb p l2 = true.
Proof.
  intros Hi H. apply existsb_exists in H. destruct H as [x [Hx Hp]].
  apply existsb_exists. exists x. split; [apply Hi, Hx|exact Hp].
Qed.

Lemma filter_length_mono {A : Type} (p q : A -> bool) (l : list A) :
  (forall x, p x = true -> q x = true) ->
  (List.length (filter p l) <= List.length (filter q l))%nat.
Proof.
  intro H. induction l as [|x tl IH]; [reflexivity|].
  simpl. destruct (p x) eqn:Ep.
  - rewrite (H x Ep). simpl. lia.
  - destruct (q x); simpl; lia.
Qed.

(** X21.  More controls never lower the coverage: when every control of
    one list occurs in another, the alignment of the second covers at
    least as many requirements and has at most as many gaps. *)
Theorem coverage_grows_with_controls
    (controls1 controls2 : list pyval) (target_framework : string) (a1 a2 : alignment) :
  incl controls1 controls2 ->
  suggest_framework_alignment controls1 target_framework = Ok (Alignment a1) ->
  suggest_framework_alignment controls2 target_framework = Ok (Alignment a2) ->
  (covered_requirements a1 <= covered_requirements a2)%nat
  /\ (gap_count a2 <= gap_count a1)%nat.
Proof.
  intros Hi H1 H2.
  destruct (alignment_fields controls1 target_framework a1 H1)
    as [_ [_ [C1 [_ [G1 _]]]]].
  destruct (alignment_fields controls2 target_framework a2 H2)
    as [_ [_ [C2 [_ [G2 _]]]]].
  assert (Hc : (covered_requirements a1 <= covered_requirements a2)%nat).
  { rewrite C1, C2. apply filter_length_mono.
    intros item. apply existsb_incl, Hi. }
  split; [exact Hc|lia].
Qed.

Lemma coverage_grows_with_controls_witness :
  exists a1 a2,
    suggest_framework_alignment
      [VDict [("category", VStr "access_control")]] "soc2" = Ok (Alignment a1)
    /\ suggest_framework_alignment
         [VDict [("category", VStr "incident_response")];
          VDict [("category", VStr "access_control")]] "soc2" = Ok (Alignment a2)
    /\ (covered_requirements a1 <= covered_requirements a2)%nat
    /\ (gap_count a2 <= gap_count a1)%nat.
Proof.
  eexists. eexists. split; [vm_compute; reflexivity|]. split; [vm_compute; reflexivity|].
  eapply (coverage_grows_with_controls
            [VDict [("category", VStr "access_control")]]
            [VDict [("category", VStr "incident_response")];
             VDict [("category", VStr "access_control")]] "soc2").
  - intros x [<-|[]]. right. left. reflexivity.
  - vm_compute. reflexivity.
  - vm_compute. reflexivity.
Defined.

(** *** [smart_control_mapping] *)

Lemma mapping_table_cases (f : string) :
  f = "iso27001" \/ f = "soc2"
  \/ (table_mem framework_mappings f = false /\ table_get framework_mappings f [] = []).
Proof.
  unfold table_mem, framework_mappings, _load_framework_mappings.
  cbn [existsb fst table_get].
  destruct (String.eqb_spec "iso27001" f) as [<-|_]; [left; reflexivity|].
  destruct (String.eqb_spec "soc2" f) as [<-|_]; [right; left; reflexivity|].
  right. right. split; reflexivity.
Qed.

(** X22.  [smart_control_mapping] pairs a requirement of the source
    framework with a requirement of the target framework exactly when
    both belong to the same category, always with confidence High.  An
    unknown source or target framework gives no mapping.  Between two
    known frameworks every source requirement is mapped exactly once,
    and the mapping in the other direction is the same list read from
    the target to the source. *)
Theorem smart_control_mapping_pairs_equal_categories
    (source_framework target_framework : string) :
  let source_map := table_get framework_mappings source_framework [] in
  let target_map := table_get framework_mappings target_framework [] in
  let mappings := smart_control_mapping source_framework target_framework in
  (forall m, In m mappings <->
     In (source_requirement m, mapping_category m) source_map
     /\ In (target_requirement m, mapping_category m) target_map
     /\ mapping_confidence m = "High")
  /\ (table_mem framework_mappings source_framework = false
      \/ table_mem framework_mappings target_framework = false -> mappings = [])
  /\ (table_mem framework_mappings source_framework = true ->
      table_mem framework_mappings target_framework = true ->
      map source_requirement mappings = map fst source_map)
  /\ map mirror mappings = smart_control_mapping target_framework source_framework.
Proof.
  intros source_map target_map mappings.
  split.
  { intro m. subst mappings. unfold smart_control_mapping.
    fold source_map. fold target_map. rewrite in_flat_map. split.
    - intros [[s c] [Hs Hm]]. apply in_flat_map in Hm. destruct Hm as [[t c'] [Ht Hm]].
      cbn [fst snd] in Hm. destruct (String.eqb_spec c c') as [<-|_]; [|contradiction].
      destruct Hm as [<-|[]]. cbn. auto.
    - intros [Hs [Ht Hc]]. exists (source_requirement m, mapping_category m).
      split; [exact Hs|]. apply in_flat_map.
      exists (target_requirement m, mapping_category m). split; [exact Ht|].
      cbn [fst snd]. rewrite String.eqb_refl. left.
      destruct m; cbn in *. subst. reflexivity. }
  subst mappings source_map target_map. unfold smart_control_mapping.
  destruct (mapping_table_cases source_framework) as [-> | [-> | [Hs ->]]];
    destruct (mapping_table_cases target_framework) as [-> | [-> | [Ht ->]]];
    (split; [intros [H|H]; first [reflexivity|vm_compute in H; discriminate H]|]);
    (split; [intros H1 H2; first [reflexivity|congruence]|reflexivity]).
Qed.

End AlignmentFacts.

(* ================================================================== *)
(** ** Division of integers and the minimum with 100 *)
(* ================================================================== *)

Module TrueDivFacts.
Import Py PyMore Binary64 Binary64Facts Binary64Order.

Local Open Scope R_scope.

Lemma val_of_nat (n : nat) : (0 < n)%nat -> val (Pos.of_nat n) 0 = INR n.
Proof.
  intro H. unfold val. rewrite pow2_0, Rmult_1_r.
  rewrite INR_IZR_INZ. f_equal.
  destruct n as [|n]; [lia|]. rewrite <- Pos.of_nat_succ. lia.
Qed.

(** The quotient of two positive integers, as long as it is in range. *)
Lemma true_div_spec (n d : nat) :
  (0 < n)%nat -> (0 < d)%nat ->
  let q := SFdiv prec emax (S754_finite false (Pos.of_nat n) 0)
                 (S754_finite false (Pos.of_nat d) 0) in
  match true_div n d with
  | Some x => Prim2SF x = q /\ nonneg_sf q
  | None => q = S754_infinity false
  end.
Proof.
  intros Hn Hd q. unfold true_div.
  destruct d as [|d']; [lia|]. destruct n as [|n']; [lia|]. fold q.
  destruct (SFdiv_valid (Pos.of_nat (S n')) (Pos.of_nat (S d')) 0 0) as [Hv Hz].
  fold q in Hv, Hz. specialize (Hz false).
  destruct q as [s|s| |s m e] eqn:E.
  - split; [apply Prim2SF_SF2Prim; reflexivity|]. split; [reflexivity|exact I].
  - destruct s; [discriminate Hz|reflexivity].
  - discriminate Hz.
  - destruct s; [discriminate Hz|].
    split; [apply Prim2SF_SF2Prim; exact Hv|]. split; [exact Hv|exact I].
Qed.

Local Open Scope float_scope.

(** A quotient below a quotient that is in range is in range, and
    smaller. *)
Lemma true_div_below (n d : nat) (P : positive) (hi : spec_float) :
  (0 < d)%nat -> (Z.of_nat n <= Zpos P)%Z ->
  SFdiv prec emax (S754_finite false P 0) (S754_finite false (Pos.of_nat d) 0) = hi ->
  nonneg_sf hi ->
  exists q, true_div n d = Some q /\ nonneg_finite q /\ SFleb (Prim2SF q) hi = true.
Proof.
  intros Hd Hn Hhi Nhi. destruct n as [|n'].
  - exists 0. unfold true_div. destruct d; [lia|].
    split; [reflexivity|]. split; [vm_compute; exact I|].
    change (Prim2SF 0) with (S754_zero false). apply SFleb_zero_nonneg, Nhi.
  - pose proof (true_div_spec (S n') d ltac:(lia) Hd) as Hs. cbv zeta in Hs.
    assert (Hle : SFleb (SFdiv prec emax (S754_finite false (Pos.of_nat (S n')) 0)
                               (S754_finite false (Pos.of_nat d) 0)) hi = true).
    { rewrite <- Hhi. apply SFdiv_mono. unfold val.
      apply Rmult_le_compat_r; [pose proof (pow2_pos 0); lra|].
      apply IZR_le. rewrite <- Pos.of_nat_succ in *. lia. }
    destruct (true_div (S n') d) as [x|].
    + destruct Hs as [Hx Nx]. exists x. split; [reflexivity|].
      split; [|rewrite Hx; exact Hle].
      unfold nonneg_finite. rewrite Hx. apply Nx.
    + rewrite Hs in Hle. destruct Nhi as [_ Nhi].
      destruct hi as [?|?| |[|] ? ?]; try contradiction; discriminate Hle.
Qed.

(** The quotient grows with the dividend. *)
Lemma true_div_mono (n1 n2 d : nat) (q1 q2 : float) :
  (n1 <= n2)%nat -> true_div n1 d = Some q1 -> true_div n2 d = Some q2 ->
  nonneg_finite q1 /\ nonneg_finite q2 /\ (q1 <=? q2) = true.
Proof.
  intros Hn H1 H2. destruct d as [|d']; [discriminate H1|].
  destruct n2 as [|n2'].
  { assert (n1 = 0%nat) by lia. subst n1. injection H1 as <-. injection H2 as <-.
    split; [vm_compute; exact I|]. split; [vm_compute; exact I|reflexivity]. }
  pose proof (true_div_spec (S n2') (S d') ltac:(lia) ltac:(lia)) as S2.
  cbv zeta in S2. rewrite H2 in S2. destruct S2 as [E2 N2].
  assert (F2 : nonneg_finite q2) by (unfold nonneg_finite; rewrite E2; apply N2).
  destruct n1 as [|n1'].
  { injection H1 as <-. split; [vm_compute; exact I|]. split; [exact F2|].
    apply zero_le, F2. }
  pose proof (true_div_spec (S n1') (S d') ltac:(lia) ltac:(lia)) as S1.
  cbv zeta in S1. rewrite H1 in S1. destruct S1 as [E1 N1].
  split; [unfold nonneg_finite; rewrite E1; apply N1|]. split; [exact F2|].
  rewrite FloatAxioms.leb_spec, E1, E2. apply SFdiv_mono.
  rewrite !val_of_nat by lia. apply le_INR. exact Hn.
Qed.

Lemma SFltb_leb (x y : spec_float) : SFltb x y = true -> SFleb x y = true.
Proof.
  unfold SFltb, SFleb. destruct (SFcompare x y) as [[| |]|]; try discriminate; reflexivity.
Qed.

Lemma SFltb_false_leb (x y : spec_float) :
  nonneg_sf x -> nonneg_sf y -> SFltb x y = false -> SFleb y x = true.
Proof.
  intros [_ Hx] [_ Hy]. unfold SFleb, SFltb, SFcompare.
  destruct x as [[|]| | |[|] m1 e1]; try contradiction;
    destruct y as [[|]| | |[|] m2 e2]; try contradiction;
    try reflexivity; try discriminate.
  rewrite (Z.compare_antisym e1 e2).
  destruct (e1 ?= e2)%Z; cbn [CompOpp]; try reflexivity; try discriminate.
  fold (Pos.compare m1 m2). fold (Pos.compare m2 m1).
  rewrite (Pos.compare_antisym m1 m2).
  destruct (m1 ?= m2)%positive; cbn [CompOpp]; try reflexivity; discriminate.
Qed.

(** [min(100, x)] for a product [x = a * b] of two finite non-negative
    floats: between 0 and 100. *)
Lemma min_100_range (a b : float) :
  nonneg_finite a -> nonneg_finite b ->
  nonneg_finite (min_100 (a * b))
  /\ (0 <=? min_100 (a * b)) = true /\ (min_100 (a * b) <=? 100) = true.
Proof.
  intros Na Nb. unfold min_100.
  assert (N0 : nonneg_finite 0) by (vm_compute; exact I).
  assert (N100 : nonneg_finite 100) by (vm_compute; exact I).
  destruct (a * b <? 100) eqn:E;
    [|split; [exact N100|split; vm_compute; reflexivity]].
  assert (Hle : (a * b <=? 100) = true).
  { rewrite FloatAxioms.ltb_spec in E. rewrite FloatAxioms.leb_spec.
    apply SFltb_leb, E. }
  assert (H0 : (0 * 0 <=? a * b) = true).
  { apply mul_le; [exact N0|exact N0|exact Na|exact Nb| |]; apply zero_le; assumption. }
  assert (N : nonneg_finite (a * b)).
  { eapply (between_nonneg_finite (0 * 0) 100); [vm_compute; exact I|exact N100
                                                 |exact H0|exact Hle]. }
  split; [exact N|]. split; [apply zero_le, N|exact Hle].
Qed.

(** [min(100, x)] grows with [x]. *)
Lemma min_100_mono (x y : float) :
  nonneg_finite x -> nonneg_finite y -> (x <=? y) = true ->
  (min_100 x <=? min_100 y) = true.
Proof.
  intros Nx Ny H. unfold min_100.
  assert (N100 : nonneg_finite 100) by (vm_compute; exact I).
  destruct (x <? 100) eqn:Ex; destruct (y <? 100) eqn:Ey.
  - exact H.
  - rewrite FloatAxioms.ltb_spec in Ex. rewrite FloatAxioms.leb_spec.
    apply SFltb_leb, Ex.
  - exfalso.
    assert (Hx : (100 <=? x) = true).
    { rewrite FloatAxioms.ltb_spec in Ex. rewrite FloatAxioms.leb_spec.
      apply SFltb_false_leb; [apply nonneg_finite_sf, Nx|apply nonneg_finite_sf, N100|].
      exact Ex. }
    pose proof (leb_trans 100 x y N100 Nx Ny Hx H) as H100.
    apply leb_not_ltb in H100. congruence.
  - reflexivity.
Qed.

End TrueDivFacts.

(* ================================================================== *)
(** ** The frameworks a document mentions and its quality score *)
(* ================================================================== *)

Module DocumentQualityFacts.
Import Py PyMore DocumentAnalyzer DocumentQuality Sequences TextSpec.
Import RiskSpec Binary64 Binary64Facts Binary64Order TrueDivFacts.
Local Open Scope list_scope.

Lemma lower_app (a b : string) : lower (a ++ b) = (lower a ++ lower b)%string.
Proof. induction a as [|c a IH]; simpl; [reflexivity|]. rewrite IH. reflexivity. Qed.

Lemma prefix_app (sub a b : string) :
  String.prefix sub a = true -> String.prefix sub (a ++ b) = true.
Proof.
  revert a. induction sub as [|k sub IH]; intros a H.
  - destruct (a ++ b)%string; reflexivity.
  - destruct a as [|c a]; [discriminate|]. simpl in *.
    destruct (ascii_dec k c); [apply IH, H|discriminate].
Qed.

Lemma contains_app_l (sub a b : string) :
  contains sub a = true -> contains sub (a ++ b) = true.
Proof.
  induction a as [|c a IH]; intro H.
  - simpl in H. rewrite orb_false_r in H.
    destruct sub; [|discriminate]. destruct b; reflexivity.
  - cbn [contains append] in *. apply orb_true_iff in H. apply orb_true_iff.
    destruct H as [H|H]; [left; apply (prefix_app sub (String c a) b), H|right; auto].
Qed.

Lemma contains_app_r (sub a b : string) :
  contains sub b = true -> contains sub (a ++ b) = true.
Proof.
  intro H. induction a as [|c a IH]; [exact H|].
  cbn [contains append]. rewrite IH. apply orb_true_r.
Qed.

Lemma in_filter_keys {A : Type} (p : string * A -> bool) (table : list (string * A))
    (k : string) (v : A) :
  NoDup (map fst table) -> In (k, v) table ->
  (In k (map fst (filter p table)) <-> p (k, v) = true).
Proof.
  intros Hn Hin. rewrite in_map_iff. split.
  - intros [[k' v'] [Hk H]]. simpl in Hk. subst k'. apply filter_In in H.
    destruct H as [H Hp].
    assert (v' = v); [|subst; exact Hp].
    clear Hp. induction table as [|[k0 v0] tl IH]; [contradiction|].
    simpl in Hn. inversion Hn as [|? ? Hk0 Htl]; subst.
    destruct H as [H|H], Hin as [Hin|Hin].
    + congruence.
    + injection H as -> ->. exfalso. apply Hk0. apply in_map_iff. exists (k, v). auto.
    + injection Hin as -> ->. exfalso. apply Hk0. apply in_map_iff. exists (k, v'). auto.
    + apply IH; assumption.
  - intro Hp. exists (k, v). split; [reflexivity|]. apply filter_In. auto.
Qed.

Lemma framework_identifiers_keys :
  map fst framework_identifiers = known_frameworks /\ NoDup known_frameworks.
Proof.
  split; [reflexivity|].
  unfold known_frameworks.
  repeat (constructor;
          [cbn [In]; intro H; repeat (destruct H as [H|H]; [discriminate H|]);
           contradiction|]).
  constructor.
Qed.

(** X23.  [_identify_frameworks] lists a framework exactly when one of
    its identifiers occurs in the text, letter case apart; the
    frameworks come in the fixed order iso27001, soc2, gdpr, hipaa,
    pci_dss, each at most once; and text added before or after a
    document never removes a framework. *)
Theorem identify_frameworks_spec (text : string) :
  sublist (_identify_frameworks text) known_frameworks
  /\ NoDup (_identify_frameworks text)
  /\ (forall framework identifiers,
         In (framework, identifiers) framework_identifiers ->
         (In framework (_identify_frameworks text)
          <-> exists identifier,
                In identifier identifiers /\ contains identifier (lower text) = true))
  /\ _identify_frameworks (lower text) = _identify_frameworks text
  /\ (forall before after,
         incl (_identify_frameworks text)
              (_identify_frameworks (before ++ text ++ after))).
Proof.
  destruct framework_identifiers_keys as [Hkeys Hnd].
  assert (Hsub : sublist (_identify_frameworks text) known_frameworks).
  { rewrite <- Hkeys. unfold _identify_frameworks.
    apply RequirementFacts.sublist_map, SequenceFacts.sublist_filter. }
  assert (Hin : forall t framework identifiers,
             In (framework, identifiers) framework_identifiers ->
             (In framework (_identify_frameworks t)
              <-> exists identifier,
                    In identifier identifiers
                    /\ contains identifier (lower t) = true)).
  { intros t f ids Hf. unfold _identify_frameworks.
    rewrite (in_filter_keys _ _ f ids); [|rewrite Hkeys; exact Hnd|exact Hf].
    cbn [snd]. apply existsb_exists. }
  split; [exact Hsub|].
  split; [eapply RequirementFacts.sublist_NoDup; [exact Hsub|exact Hnd]|].
  split; [apply Hin|].
  split.
  { unfold _identify_frameworks. rewrite PredictionFacts.lower_idempotent. reflexivity. }
  intros before after f Hf.
  assert (Hk : In f (map fst framework_identifiers)).
  { rewrite Hkeys. eapply RequirementFacts.sublist_in; [exact Hsub|exact Hf]. }
  apply in_map_iff in Hk. destruct Hk as [[f' ids] [Hf' Hk]]. simpl in Hf'. subst f'.
  apply (Hin _ f ids Hk). apply (Hin _ f ids Hk) in Hf.
  destruct Hf as [i [Hi Hc]]. exists i. split; [exact Hi|].
  rewrite !lower_app. apply contains_app_r, contains_app_l, Hc.
Qed.

(** *** The quality score *)

Local Open Scope float_scope.

(** The number of words or sections over the expected number, times
    100 and capped: a float between 0 and 100 that grows with the
    number. *)
Lemma capped_share (n1 n2 d : nat) (P : positive) (hi : spec_float) :
  (0 < d)%nat -> (n1 <= n2)%nat -> (Z.of_nat n2 <= Zpos P)%Z ->
  SFdiv prec emax (S754_finite false P 0) (S754_finite false (Pos.of_nat d) 0) = hi ->
  nonneg_sf hi ->
  exists q1 q2,
    true_div n1 d = Some q1 /\ true_div n2 d = Some q2
    /\ nonneg_finite (min_100 (q1 * 100)) /\ nonneg_finite (min_100 (q2 * 100))
    /\ (min_100 (q1 * 100) <=? min_100 (q2 * 100)) = true
    /\ (min_100 (q2 * 100) <=? 100) = true
    /\ ((100 <=? q1 * 100) = true -> min_100 (q1 * 100) = 100).
Proof.
  intros Hd Hn HP Hhi Nhi.
  assert (N100 : nonneg_finite 100) by (vm_compute; exact I).
  destruct (true_div_below n1 d P hi Hd ltac:(lia) Hhi Nhi) as [q1 [E1 [N1 _]]].
  destruct (true_div_below n2 d P hi Hd HP Hhi Nhi) as [q2 [E2 [N2 _]]].
  destruct (true_div_mono n1 n2 d q1 q2 Hn E1 E2) as [_ [_ Hq]].
  exists q1, q2. split; [exact E1|]. split; [exact E2|].
  destruct (min_100_range q1 100 N1 N100) as [M1 _].
  destruct (min_100_range q2 100 N2 N100) as [M2 [_ L2]].
  split; [exact M1|]. split; [exact M2|]. split; [|split; [exact L2|]].
  - unfold min_100 at 1 2.
    destruct (q1 * 100 <? 100) eqn:A1; destruct (q2 * 100 <? 100) eqn:A2.
    + apply mul_le; [exact N1|exact N100|exact N2|exact N100|exact Hq|reflexivity].
    + rewrite FloatAxioms.ltb_spec in A1. rewrite FloatAxioms.leb_spec.
      apply SFltb_leb, A1.
    + exfalso.
      pose proof (mul_le q1 100 q2 100 N1 N100 N2 N100 Hq eq_refl) as Hm.
      unfold min_100 in M2. rewrite A2 in M2.
      assert (Hx : (100 <=? q1 * 100) = true).
      { rewrite FloatAxioms.ltb_spec in A1. rewrite FloatAxioms.leb_spec.
        pose proof (Prim2SF_valid (q1 * 100)) as V.
        rewrite FloatAxioms.leb_spec in Hm.
        pose proof (nonneg_finite_sf _ M2) as S2.
        pose proof (nonneg_finite_sf _ N100) as S100.
        destruct (Prim2SF (q1 * 100)) as [s|s| |s m e] eqn:Eq.
        - apply SFltb_false_leb; [split; [exact V|exact I]|exact S100|exact A1].
        - destruct s; [discriminate A1|].
          destruct S2 as [_ S2]. destruct (Prim2SF (q2 * 100)) as [?| | |[|] ? ?];
            try contradiction; discriminate Hm.
        - discriminate Hm.
        - destruct s.
          + destruct S2 as [_ S2]. destruct (Prim2SF (q2 * 100)) as [?| | |[|] ? ?];
              try contradiction; discriminate A1.
          + apply SFltb_false_leb; [split; [exact V|exact I]|exact S100|exact A1]. }
      assert (Nq1 : nonneg_finite (q1 * 100)).
      { eapply (between_nonneg_finite 100 (q2 * 100)); [exact N100|exact M2|exact Hx|exact Hm]. }
      pose proof (leb_trans 100 (q1 * 100) (q2 * 100) N100 Nq1 M2 Hx Hm) as H100.
      apply leb_not_ltb in H100. congruence.
    + reflexivity.
  - intro H. unfold min_100. apply leb_not_ltb in H. rewrite H. reflexivity.
Qed.

Lemma add_between (x y hx hy : float) :
  nonneg_finite x -> nonneg_finite y -> nonneg_finite hx -> nonneg_finite hy ->
  nonneg_finite (hx + hy) ->
  (x <=? hx) = true -> (y <=? hy) = true ->
  nonneg_finite (x + y) /\ (x + y <=? hx + hy) = true.
Proof.
  intros Nx Ny Nhx Nhy Nh Hx Hy.
  assert (N0 : nonneg_finite 0) by (vm_compute; exact I).
  assert (H1 : (0 + 0 <=? x + y) = true)
    by (apply add_le; [exact N0|exact N0|exact Nx|exact Ny| |]; apply zero_le; assumption).
  assert (H2 : (x + y <=? hx + hy) = true) by (apply add_le; assumption).
  split; [|exact H2].
  apply (between_nonneg_finite (0 + 0) (hx + hy)); [vm_compute; exact I|exact Nh|exact H1|exact H2].
Qed.

(** The weighted sum of three parts between 0 and 100. *)
Lemma weighted_sum (c1 c2 l1 l2 s1 s2 : float) :
  nonneg_finite c1 -> nonneg_finite c2 -> (c1 <=? c2) = true -> (c2 <=? 100) = true ->
  nonneg_finite l1 -> nonneg_finite l2 -> (l1 <=? l2) = true -> (l2 <=? 100) = true ->
  nonneg_finite s1 -> nonneg_finite s2 -> (s1 <=? s2) = true -> (s2 <=? 100) = true ->
  nonneg_finite (c1 * 0.5 + l1 * 0.25 + s1 * 0.25)
  /\ nonneg_finite (c2 * 0.5 + l2 * 0.25 + s2 * 0.25)
  /\ (c1 * 0.5 + l1 * 0.25 + s1 * 0.25 <=? c2 * 0.5 + l2 * 0.25 + s2 * 0.25) = true
  /\ (c2 * 0.5 + l2 * 0.25 + s2 * 0.25 <=? 100 * 0.5 + 100 * 0.25 + 100 * 0.25) = true.
Proof.
  intros Nc1 Nc2 Hc Hc2 Nl1 Nl2 Hl Hl2 Ns1 Ns2 Hs Hs2.
  assert (N100 : nonneg_finite 100) by (vm_compute; exact I).
  assert (Nh : nonneg_finite 0.5) by (vm_compute; exact I).
  assert (Nq : nonneg_finite 0.25) by (vm_compute; exact I).
  assert (T : forall a b, nonneg_finite a -> nonneg_finite b ->
                          (a <=? b) = true -> (b <=? 100) = true -> (a <=? 100) = true).
  { intros a b Na Nb Hab Hb. apply (leb_trans a b 100); assumption. }
  assert (P : forall a w, nonneg_finite a -> nonneg_finite w -> nonneg_finite (100 * w) ->
                          (a <=? 100) = true ->
                          nonneg_finite (a * w) /\ (a * w <=? 100 * w) = true).
  { intros a w Na Nw Nhw Ha.
    assert (H2 : (a * w <=? 100 * w) = true)
      by (apply mul_le; [exact Na|exact Nw|exact N100|exact Nw|exact Ha|apply leb_refl, Nw]).
    split; [|exact H2].
    apply (between_nonneg_finite (0 * 0) (100 * w));
      [vm_compute; exact I|exact Nhw| |exact H2].
    apply mul_le; [vm_compute; exact I|vm_compute; exact I|exact Na|exact Nw| |];
      apply zero_le; assumption. }
  assert (N50 : nonneg_finite (100 * 0.5)) by (vm_compute; exact I).
  assert (N25 : nonneg_finite (100 * 0.25)) by (vm_compute; exact I).
  destruct (P c1 0.5 Nc1 Nh N50 (T c1 c2 Nc1 Nc2 Hc Hc2)) as [A1 B1].
  destruct (P c2 0.5 Nc2 Nh N50 Hc2) as [A2 B2].
  destruct (P l1 0.25 Nl1 Nq N25 (T l1 l2 Nl1 Nl2 Hl Hl2)) as [A3 B3].
  destruct (P l2 0.25 Nl2 Nq N25 Hl2) as [A4 B4].
  destruct (P s1 0.25 Ns1 Nq N25 (T s1 s2 Ns1 Ns2 Hs Hs2)) as [A5 B5].
  destruct (P s2 0.25 Ns2 Nq N25 Hs2) as [A6 B6].
  destruct (add_between (c1 * 0.5) (l1 * 0.25) (100 * 0.5) (100 * 0.25))
    as [D1 E1]; [exact A1|exact A3|exact N50|exact N25|vm_compute; exact I|exact B1|exact B3|].
  destruct (add_between (c2 * 0.5) (l2 * 0.25) (100 * 0.5) (100 * 0.25))
    as [D2 E2]; [exact A2|exact A4|exact N50|exact N25|vm_compute; exact I|exact B2|exact B4|].
  destruct (add_between (c1 * 0.5 + l1 * 0.25) (s1 * 0.25)
                        (100 * 0.5 + 100 * 0.25) (100 * 0.25))
    as [D3 E3]; [exact D1|exact A5|vm_compute; exact I|exact N25|vm_compute; exact I
                |exact E1|exact B5|].
  destruct (add_between (c2 * 0.5 + l2 * 0.25) (s2 * 0.25)
                        (100 * 0.5 + 100 * 0.25) (100 * 0.25))
    as [D4 E4]; [exact D2|exact A6|vm_compute; exact I|exact N25|vm_compute; exact I
                |exact E2|exact B6|].
  split; [exact D3|]. split; [exact D4|]. split; [|exact E4].
  apply add_le; [exact D1|exact A5|exact D2|exact A6| |].
  - apply add_le; [exact A1|exact A3|exact A2|exact A4| |].
    + apply mul_le; [exact Nc1|exact Nh|exact Nc2|exact Nh|exact Hc|apply leb_refl, Nh].
    + apply mul_le; [exact Nl1|exact Nq|exact Nl2|exact Nq|exact Hl|apply leb_refl, Nq].
  - apply mul_le; [exact Ns1|exact Nq|exact Ns2|exact Nq|exact Hs|apply leb_refl, Nq].
Qed.

Lemma word_bound (d : nat) :
  d = 1000%nat \/ d = 5%nat ->
  (0 < d)%nat
  /\ nonneg_sf (SFdiv prec emax (S754_finite false (2 ^ 63) 0)
                      (S754_finite false (Pos.of_nat d) 0)).
Proof.
  intros [-> | ->]; (split; [lia|split; [vm_compute; reflexivity|vm_compute; exact I]]).
Qed.

(** The quality scores of two documents, the second with at least as
    many words and sections and at least the completeness of the
    first. *)
Lemma quality_scores (wc1 wc2 : nat) (sec1 sec2 : list string) (c1 c2 : float) :
  (wc1 <= wc2)%nat -> (List.length sec1 <= List.length sec2)%nat ->
  fits_word wc2 -> fits_word (List.length sec2) ->
  in_range 0 100 c1 -> in_range 0 100 c2 -> (c1 <=? c2) = true ->
  exists q1 q2,
    _calculate_quality_score wc1 sec1 c1 = Some q1
    /\ _calculate_quality_score wc2 sec2 c2 = Some q2
    /\ (0 <=? q1) = true /\ (q1 <=? q2) = true /\ (q2 <=? 100) = true
    /\ ((1000 <= wc1)%nat -> (5 <= List.length sec1)%nat ->
        q1 = Py.round (c1 * 0.5 + 100 * 0.25 + 100 * 0.25) 1).
Proof.
  intros Hw Hs Fw Fs R1 R2 Hc. unfold fits_word in Fw, Fs.
  assert (N0 : nonneg_finite 0) by (vm_compute; exact I).
  assert (N100 : nonneg_finite 100) by (vm_compute; exact I).
  assert (Nc1 : nonneg_finite c1)
    by (destruct R1; eapply (between_nonneg_finite 0 100); eassumption).
  assert (Nc2 : nonneg_finite c2)
    by (destruct R2; eapply (between_nonneg_finite 0 100); eassumption).
  destruct R1 as [_ R1]. destruct R2 as [_ R2].
  destruct (word_bound 1000 ltac:(auto)) as [Dw Nw].
  destruct (word_bound 5 ltac:(auto)) as [Ds Ns].
  destruct (capped_share wc1 wc2 1000 (2 ^ 63) _ Dw Hw ltac:(lia) eq_refl Nw)
    as [w1 [w2 [Ew1 [Ew2 [Mw1 [Mw2 [Lw [Lw2 Sw]]]]]]]].
  destruct (capped_share (List.length sec1) (List.length sec2) 5 (2 ^ 63) _
                         Ds Hs ltac:(lia) eq_refl Ns)
    as [s1 [s2 [Es1 [Es2 [Ms1 [Ms2 [Ls [Ls2 Ss]]]]]]]].
  destruct (weighted_sum c1 c2 (min_100 (w1 * 100)) (min_100 (w2 * 100))
                         (min_100 (s1 * 100)) (min_100 (s2 * 100)))
    as [Q1 [Q2 [Q12 Q100]]]; try assumption.
  unfold _calculate_quality_score. rewrite Ew1, Es1, Ew2, Es2.
  eexists. eexists. split; [reflexivity|]. split; [reflexivity|].
  split; [|split; [|split]].
  - apply (RiskRangeFacts.round_between _ 0 (100 * 0.5 + 100 * 0.25 + 100 * 0.25) 0 100 1);
      [exact N0|exact Q1|vm_compute; exact I|apply zero_le, Q1
      |apply (leb_trans _ _ _ Q1 Q2); [vm_compute; exact I|exact Q12|exact Q100]
      |vm_compute; reflexivity|vm_compute; reflexivity].
  - apply round_le; assumption.
  - apply (RiskRangeFacts.round_between _ 0 (100 * 0.5 + 100 * 0.25 + 100 * 0.25) 0 100 1);
      [exact N0|exact Q2|vm_compute; exact I|apply zero_le, Q2|exact Q100
      |vm_compute; reflexivity|vm_compute; reflexivity].
  - intros H1000 H5.
    assert (A : forall n d q,
               true_div d d = Some 1 -> (d <= n)%nat -> true_div n d = Some q ->
               (100 <=? q * 100) = true).
    { intros n d q Eone Hdn Eq.
      destruct (true_div_mono d n d 1 q Hdn Eone Eq) as [No [Nq Hq]].
      exact (mul_le 1 100 q 100 No N100 Nq N100 Hq eq_refl). }
    rewrite (Sw (A wc1 1000%nat w1 eq_refl H1000 Ew1)).
    rewrite (Ss (A (List.length sec1) 5%nat s1 eq_refl H5 Es1)).
    reflexivity.
Qed.


(** X24.  For a document of a size a machine word can count and a
    completeness between 0 and 100, [_calculate_quality_score] returns
    a score between 0 and 100.  From 1000 words and 5 sections on, the
    length and the structure contribute their full 25 points each: the
    score is the completeness halved plus 50, rounded to one decimal. *)
Theorem quality_score_range
    (word_count : nat) (sections : list string) (completeness : float) :
  fits_word word_count -> fits_word (List.length sections) ->
  in_range 0 100 completeness ->
  exists q,
    _calculate_quality_score word_count sections completeness = Some q
    /\ in_range 0 100 q
    /\ ((1000 <= word_count)%nat -> (5 <= List.length sections)%nat ->
        q = Py.round (completeness * 0.5 + 100 * 0.25 + 100 * 0.25) 1).
Proof.
  intros Fw Fs R.
  assert (Nc : nonneg_finite completeness)
    by (destruct R; eapply (between_nonneg_finite 0 100); try eassumption;
        vm_compute; exact I).
  destruct (quality_scores word_count word_count sections sections
                           completeness completeness
                           (Nat.le_refl _) (Nat.le_refl _) Fw Fs R R (leb_refl _ Nc))
    as [q1 [q2 [E1 [E2 [H0 [H12 [H100 Hsat]]]]]]].
  rewrite E1 in E2. injection E2 as <-.
  exists q1. split; [exact E1|]. split; [split; assumption|exact Hsat].
Qed.

Lemma quality_score_range_witness :
  exists q,
    _calculate_quality_score 18 ["Purpose"; "Scope"; "Responsibilities"] 42.9
    = Some q
    /\ q = 36.9 /\ in_range 0 100 q.
Proof.
  destruct (quality_score_range 18 ["Purpose"; "Scope"; "Responsibilities"] 42.9)
    as [q [E [R _]]];
    [vm_compute; reflexivity|vm_compute; reflexivity|split; reflexivity|].
  exists q. split; [exact E|]. split; [|exact R].
  vm_compute in E. injection E as <-. reflexivity.
Defined.

(** X25.  The quality score never falls when the document gets more
    words, more sections or a higher completeness. *)
Theorem quality_score_monotone
    (wc1 wc2 : nat) (sec1 sec2 : list string) (c1 c2 : float) :
  (wc1 <= wc2)%nat -> (List.length sec1 <= List.length sec2)%nat ->
  fits_word wc2 -> fits_word (List.length sec2) ->
  in_range 0 100 c1 -> in_range 0 100 c2 -> (c1 <=? c2) = true ->
  exists q1 q2,
    _calculate_quality_score wc1 sec1 c1 = Some q1
    /\ _calculate_quality_score wc2 sec2 c2 = Some q2
    /\ (q1 <=? q2) = true.
Proof.
  intros Hw Hs Fw Fs R1 R2 Hc.
  destruct (quality_scores wc1 wc2 sec1 sec2 c1 c2 Hw Hs Fw Fs R1 R2 Hc)
    as [q1 [q2 [E1 [E2 [_ [H12 _]]]]]].
  exists q1, q2. auto.
Qed.

Lemma quality_score_monotone_witness :
  exists q1 q2,
    _calculate_quality_score 120 ["Purpose"] 50 = Some q1
    /\ _calculate_quality_score 640 ["Purpose"; "Scope"] 75 = Some q2
    /\ (q1 <=? q2) = true.
Proof.
  apply (quality_score_monotone 120 640 ["Purpose"] ["Purpose"; "Scope"] 50 75);
    try (vm_compute; reflexivity); try (split; reflexivity).
  - apply Nat.leb_le. vm_compute. reflexivity.
  - simpl. lia.
Defined.

End DocumentQualityFacts.

(* ================================================================== *)
(** ** The risk trend *)
(* ================================================================== *)

Module TrendFacts.
Import Py PyMore GapAnalysis GapSpec RiskTrends TrendSpec TextSpec.
Import Binary64 Binary64Facts Binary64Order TrueDivFacts.
Local Open Scope list_scope.

(** *** The counter of the months *)

Lemma count_months_spec (historical_risks : list pyval) (acc : list (string * nat)) :
  match count_months historical_risks acc with
  | Some counts =>
      forallb has_date historical_risks = true
      /\ (well_counted acc -> well_counted counts)
      /\ list_sum (map snd counts)
         = (list_sum (map snd acc) + List.length historical_risks)%nat
      /\ (forall m, counted counts m
                    = (counted acc m + risks_in_month historical_risks m)%nat)
  | None => forallb has_date historical_risks = false
  end.
Proof.
  revert acc. induction historical_risks as [|risk tl IH]; intro acc.
  - simpl. split; [reflexivity|]. split; [auto|]. split; [lia|].
    intro m. unfold risks_in_month. simpl. lia.
  - cbn [count_months forallb].
    assert (Hd : has_date risk = match month_of risk with Some _ => true | None => false end)
      by reflexivity.
    rewrite Hd. clear Hd.
    destruct (month_of risk) as [month|] eqn:E; [|reflexivity].
    specialize (IH (count_category acc month)).
    destruct (count_months tl (count_category acc month)) as [counts|]; [|exact IH].
    destruct IH as [H1 [H2 [H3 H4]]].
    split; [exact H1|]. split; [|split].
    + intro Hw. apply H2, GapReportFacts.well_counted_count_category, Hw.
    + rewrite H3, GapReportFacts.list_sum_count_category. simpl. lia.
    + intro m. rewrite H4, GapReportFacts.counted_count_category.
      unfold risks_in_month. cbn [filter]. rewrite E.
      destruct (String.eqb month m); simpl; lia.
Qed.

Lemma count_of_counted (counts : list (string * nat)) (m : string) :
  count_of counts m = counted counts m.
Proof.
  induction counts as [|[k n] tl IH]; [reflexivity|].
  simpl. rewrite IH. reflexivity.
Qed.

(** *** [sorted] *)

Lemma insert_sorted_perm (s : string) (l : list string) :
  Permutation (insert_sorted s l) (s :: l).
Proof.
  induction l as [|h tl IH]; simpl; [apply Permutation_refl|].
  destruct (String.ltb s h); [apply Permutation_refl|].
  eapply Permutation_trans; [apply perm_skip, IH|apply perm_swap].
Qed.

Lemma sorted_perm (l : list string) : Permutation (sorted l) l.
Proof.
  induction l as [|s tl IH]; simpl; [apply perm_nil|].
  eapply Permutation_trans; [apply insert_sorted_perm|apply perm_skip, IH].
Qed.

(** *** The sum over some of the months *)

Lemma list_sum_keys (counts : list (string * nat)) :
  NoDup (map fst counts) ->
  list_sum (map (counted counts) (map fst counts)) = list_sum (map snd counts).
Proof.
  induction counts as [|[k n] tl IH]; intro Hn; [reflexivity|].
  simpl in Hn. inversion Hn as [|? ? Hk Htl]; subst.
  assert (C : forall x l, list_sum (x :: l) = (x + list_sum l)%nat) by reflexivity.
  cbn [map fst snd counted]. rewrite String.eqb_refl, !C. f_equal.
  rewrite <- (IH Htl). f_equal. apply map_ext_in. intros m Hm.
  destruct (String.eqb_spec k m) as [->|_]; [contradiction|reflexivity].
Qed.

Lemma list_sum_firstn (n : nat) (l : list nat) : (list_sum (firstn n l) <= list_sum l)%nat.
Proof.
  revert n. induction l as [|x tl IH]; intros [|n]; simpl; try lia.
  specialize (IH n). lia.
Qed.

Lemma list_sum_skipn (n : nat) (l : list nat) : (list_sum (skipn n l) <= list_sum l)%nat.
Proof.
  revert n. induction l as [|x tl IH]; intros [|n]; simpl; try lia.
  specialize (IH n). lia.
Qed.

(** The counts of the first and of the last months add up to at most the
    number of all risks counted. *)
Lemma sum_of_some_months (counts : list (string * nat)) (n : nat) :
  NoDup (map fst counts) ->
  let months := sorted (map fst counts) in
  (list_sum (map (count_of counts) (firstn n months)) <= list_sum (map snd counts))%nat
  /\ (list_sum (map (count_of counts) (skipn n months)) <= list_sum (map snd counts))%nat.
Proof.
  intros Hn months.
  assert (Hall : list_sum (map (count_of counts) months) = list_sum (map snd counts)).
  { rewrite <- (list_sum_keys counts Hn).
    apply SequenceFacts.list_sum_perm.
    rewrite (map_ext _ _ (count_of_counted counts)).
    apply Permutation_map, sorted_perm. }
  rewrite <- Hall, <- firstn_map, <- skipn_map.
  split; [apply list_sum_firstn|apply list_sum_skipn].
Qed.

Lemma average_bound (d : nat) :
  d = 1%nat \/ d = 2%nat \/ d = 3%nat ->
  nonneg_sf (SFdiv prec emax (S754_finite false (2 ^ 63) 0)
                   (S754_finite false (Pos.of_nat d) 0)).
Proof.
  intros [-> | [-> | ->]]; (split; [vm_compute; reflexivity|vm_compute; exact I]).
Qed.

(** The average over some months of a history a machine word can
    count. *)
Lemma average_some (counts : list (string * nat)) (ms : list string) :
  ms <> [] ->
  (Z.of_nat (list_sum (map (count_of counts) ms)) < 2 ^ 63)%Z ->
  exists a, average counts ms = Some a /\ nonneg_finite a.
Proof.
  intros Hne Hs. unfold average.
  assert (Hd : Nat.min 3 (List.length ms) = 1%nat \/ Nat.min 3 (List.length ms) = 2%nat
               \/ Nat.min 3 (List.length ms) = 3%nat).
  { destruct ms as [|a [|b [|c tl]]]; [congruence|auto|auto|]. simpl. auto. }
  destruct (true_div_below (list_sum (map (count_of counts) ms))
                           (Nat.min 3 (List.length ms)) (2 ^ 63) _
                           ltac:(lia) ltac:(lia) eq_refl (average_bound _ Hd))
    as [q [E [N _]]].
  exists q. auto.
Qed.

(** The trend of a history of two or three months is stable: both
    averages are the same number. *)
Lemma same_average_is_stable (a : float) :
  nonneg_finite a -> (a * 1.2 <? a)%float = false /\ (a <? a * 0.8)%float = false.
Proof.
  intro Na. split; apply leb_not_ltb.
  - apply mul_ge_one; [exact Na|vm_compute; exact I|reflexivity].
  - apply mul_le_one; [exact Na|vm_compute; exact I|reflexivity].
Qed.

(** The report of a non-empty history. *)
Lemma analyze_risk_trends_report (now : string) (historical_risks : list pyval) :
  historical_risks <> [] ->
  match analyze_risk_trends now historical_risks with
  | Some (TrendReport r) =>
      count_months historical_risks [] = Some (monthly_data r)
      /\ total_risks r = List.length historical_risks
      /\ analysis_date r = now
      /\ In (trend r) trends
      /\ (trend r = "insufficient_data"
          <-> (List.length (monthly_data r) < 2)%nat)
  | Some (TrendOnly _) => False
  | None =>
      count_months historical_risks [] = None
      \/ exists counts,
           count_months historical_risks [] = Some counts
           /\ (2 <= List.length counts)%nat
           /\ (average counts
                 (skipn (List.length (sorted (map fst counts)) - 3)
                        (sorted (map fst counts))) = None
               \/ average counts (firstn 3 (sorted (map fst counts))) = None)
  end.
Proof.
  intro Hne.
  destruct historical_risks as [|r0 tl]; [congruence|].
  cbv beta iota delta [analyze_risk_trends].
  set (rs := r0 :: tl). clearbody rs.
  destruct (count_months rs []) as [counts|]; [|left; reflexivity].
  cbv zeta. set (months := sorted (map fst counts)).
  assert (Hlen : List.length months = List.length counts).
  { unfold months. rewrite (Permutation_length (sorted_perm _)). apply length_map. }
  rewrite Hlen.
  destruct (Nat.leb_spec 2 (List.length counts)) as [H2|H2].
  - destruct (average counts (skipn (List.length counts - 3) months)) as [recent|] eqn:Er;
      [|right; exists counts; fold months; rewrite Hlen;
        split; [reflexivity|split; [exact H2|left; exact Er]]].
    destruct (average counts (firstn 3 months)) as [older|] eqn:Eo;
      [|right; exists counts; fold months; rewrite Hlen;
        split; [reflexivity|split; [exact H2|right; exact Eo]]].
    destruct (older * 1.2 <? recent)%float;
      [|destruct (recent <? older * 0.8)%float];
      cbn [monthly_data total_risks analysis_date trend];
      (split; [reflexivity|]); (split; [reflexivity|]); (split; [reflexivity|]);
      (split; [unfold trends; simpl; tauto|]);
      (split; [intro H; discriminate H|intro H; lia]).
  - cbn [monthly_data total_risks analysis_date trend].
    split; [reflexivity|]. split; [reflexivity|]. split; [reflexivity|].
    split; [unfold trends; simpl; tauto|]. split; [intros _; exact H2|reflexivity].
Qed.

(** X26.  [analyze_risk_trends] returns the one-key result for an empty
    history.  For a non-empty history a machine word can count it
    returns a report exactly when every entry is a mapping whose
    [identified_date], if present, is a text; otherwise it raises. *)
Theorem analyze_risk_trends_totality (now : string) (historical_risks : list pyval) :
  analyze_risk_trends now [] = Some (TrendOnly "insufficient_data")
  /\ (historical_risks <> [] -> fits_word (List.length historical_risks) ->
      if forallb has_date historical_risks
      then exists r, analyze_risk_trends now historical_risks = Some (TrendReport r)
      else analyze_risk_trends now historical_risks = None).
Proof.
  split; [reflexivity|]. intros Hne Hfit.
  pose proof (analyze_risk_trends_report now historical_risks Hne) as Hr.
  pose proof (count_months_spec historical_risks []) as Hc.
  destruct (forallb has_date historical_risks) eqn:Hd.
  - destruct (count_months historical_risks []) as [counts|] eqn:Ec; [|congruence].
    destruct Hc as [_ [Hw [Hsum _]]].
    destruct (analyze_risk_trends now historical_risks) as [[t|r]|];
      [contradiction|exists r; reflexivity|].
    exfalso. destruct Hr as [Hr|[counts' [Ec' [H2 Hr]]]]; [discriminate|].
    injection Ec' as <-.
    destruct (Hw ltac:(split; constructor)) as [Hnd _].
    simpl in Hsum. unfold fits_word in Hfit.
    assert (Hlen : List.length (sorted (map fst counts)) = List.length counts).
    { rewrite (Permutation_length (sorted_perm _)). apply length_map. }
    destruct (sum_of_some_months counts 3 Hnd) as [Hf _].
    destruct (sum_of_some_months counts (List.length (sorted (map fst counts)) - 3) Hnd)
      as [_ Hs].
    destruct Hr as [Hr|Hr].
    + destruct (average_some counts
                  (skipn (List.length (sorted (map fst counts)) - 3)
                         (sorted (map fst counts)))) as [a [Ea _]];
        [|lia|congruence].
      intro E. apply (f_equal (@List.length string)) in E.
      rewrite length_skipn in E. cbn [List.length] in E. lia.
    + destruct (average_some counts (firstn 3 (sorted (map fst counts))))
        as [a [Ea _]]; [|lia|congruence].
      intro E. apply (f_equal (@List.length string)) in E.
      rewrite length_firstn in E. cbn [List.length] in E. lia.
  - destruct (count_months historical_risks []) as [counts|] eqn:Ec;
      [destruct Hc; congruence|].
    unfold analyze_risk_trends. destruct historical_risks; [congruence|].
    rewrite Ec. reflexivity.
Qed.

(** X27.  In a report of [analyze_risk_trends], [total_risks] is the
    number of risks of the history and [monthly_data] counts them by
    the first seven characters of their date: every month once, with
    the number of risks of that month, the counts adding up to
    [total_risks]. *)
Theorem risk_trends_accounting
    (now : string) (historical_risks : list pyval) (r : trend_report) :
  analyze_risk_trends now historical_risks = Some (TrendReport r) ->
  total_risks r = List.length historical_risks
  /\ list_sum (map snd (monthly_data r)) = total_risks r
  /\ NoDup (map fst (monthly_data r))
  /\ (forall m n, In (m, n) (monthly_data r)
                  <-> n = risks_in_month historical_risks m /\ (0 < n)%nat)
  /\ analysis_date r = now.
Proof.
  intro H.
  assert (Hne : historical_risks <> []).
  { intro E. subst. discriminate H. }
  pose proof (analyze_risk_trends_report now historical_risks Hne) as Hr.
  rewrite H in Hr. destruct Hr as [Hc [Ht [Hd _]]].
  pose proof (count_months_spec historical_risks []) as Hs. rewrite Hc in Hs.
  destruct Hs as [_ [Hw [Hsum Hcount]]].
  specialize (Hw ltac:(split; constructor)).
  split; [exact Ht|]. split; [rewrite Hsum, Ht; reflexivity|].
  split; [apply Hw|]. split; [|exact Hd].
  intros m n. rewrite (GapReportFacts.well_counted_in _ m n Hw), Hcount. simpl. tauto.
Qed.

Lemma risk_trends_accounting_witness :
  exists r,
    analyze_risk_trends "2024-05-01T09:30:00"
      [VDict [("identified_date", VStr "2024-01-15")];
       VDict [("identified_date", VStr "2024-02-03")];
       VDict [("identified_date", VStr "2024-01-28")]] = Some (TrendReport r)
    /\ monthly_data r = [("2024-01", 2%nat); ("2024-02", 1%nat)]
    /\ total_risks r = 3%nat
    /\ list_sum (map snd (monthly_data r)) = total_risks r.
Proof.
  eexists. split; [vm_compute; reflexivity|]. split; [reflexivity|].
  destruct (risk_trends_accounting "2024-05-01T09:30:00"
              [VDict [("identified_date", VStr "2024-01-15")];
               VDict [("identified_date", VStr "2024-02-03")];
               VDict [("identified_date", VStr "2024-01-28")]] _ eq_refl)
    as [H1 [H2 _]].
  split; [exact H1|exact H2].
Defined.

(** X28.  The trend of a report is one of increasing, decreasing, stable
    and insufficient_data; it is insufficient_data exactly when all
    risks fall in one month; and a history of two or three months is
    always stable, so that a rising or a falling trend needs risks in
    at least four different months. *)
Theorem risk_trend_needs_four_months
    (now : string) (historical_risks : list pyval) (r : trend_report) :
  analyze_risk_trends now historical_risks = Some (TrendReport r) ->
  In (trend r) trends
  /\ (trend r = "insufficient_data" <-> List.length (monthly_data r) = 1%nat)
  /\ ((2 <= List.length (monthly_data r) <= 3)%nat -> trend r = "stable")
  /\ (trend r = "increasing" \/ trend r = "decreasing" ->
      (4 <= List.length (monthly_data r))%nat).
Proof.
  intro H.
  assert (Hne : historical_risks <> []).
  { intro E. subst. discriminate H. }
  pose proof (analyze_risk_trends_report now historical_risks Hne) as Hr.
  rewrite H in Hr. destruct Hr as [Hc [_ [_ [Hin Hins]]]].
  pose proof (count_months_spec historical_risks []) as Hs. rewrite Hc in Hs.
  destruct Hs as [_ [_ [Hsum _]]]. simpl in Hsum.
  assert (Hpos : (1 <= List.length (monthly_data r))%nat).
  { destruct (monthly_data r); [|simpl; lia].
    simpl in Hsum. destruct historical_risks; [congruence|discriminate Hsum]. }
  assert (Hstable : (2 <= List.length (monthly_data r) <= 3)%nat -> trend r = "stable").
  { intros [H2 H3]. clear Hin Hins.
    unfold analyze_risk_trends in H. destruct historical_risks as [|r0 tl]; [congruence|].
    rewrite Hc in H.
    set (months := sorted (map fst (monthly_data r))) in *.
    assert (Hlen : List.length months = List.length (monthly_data r)).
    { unfold months. rewrite (Permutation_length (sorted_perm _)). apply length_map. }
    rewrite Hlen in H.
    destruct (Nat.leb_spec 2 (List.length (monthly_data r))) as [_|]; [|lia].
    replace (List.length (monthly_data r) - 3)%nat with 0%nat in H by lia.
    rewrite firstn_all2 in H by lia. cbn [skipn] in H.
    destruct (average (monthly_data r) months) as [a|] eqn:Ea; [|discriminate H].
    assert (Na : nonneg_finite a).
    { unfold average in Ea.
      set (n := list_sum (map (count_of (monthly_data r)) months)) in *.
      set (d := Nat.min 3 (List.length months)) in *.
      destruct d as [|d'] eqn:Ed; [discriminate Ea|].
      destruct n as [|n'] eqn:En; [injection Ea as <-; vm_compute; exact I|].
      pose proof (true_div_spec (S n') (S d') ltac:(lia) ltac:(lia)) as Hs.
      cbv zeta in Hs. rewrite Ea in Hs. destruct Hs as [E N].
      unfold nonneg_finite. rewrite E. apply N. }
    destruct (same_average_is_stable a Na) as [E1 E2]. rewrite E1, E2 in H.
    injection H as <-. reflexivity. }
  split; [exact Hin|]. split; [rewrite Hins; lia|]. split; [exact Hstable|].
  intros Ht.
  destruct (Nat.le_gt_cases 4 (List.length (monthly_data r))) as [H4|H4]; [exact H4|].
  exfalso. destruct (Nat.eq_dec (List.length (monthly_data r)) 1) as [E1|E1].
  - assert (Hi : trend r = "insufficient_data") by (apply Hins; lia).
    destruct Ht as [Ht|Ht]; congruence.
  - rewrite Hstable in Ht by lia. destruct Ht; discriminate.
Qed.

Lemma risk_trend_needs_four_months_witness :
  exists r,
    analyze_risk_trends "2024-05-01T09:30:00"
      [VDict [("identified_date", VStr "2024-01-15")];
       VDict [("identified_date", VStr "2024-02-03")];
       VDict [("identified_date", VStr "2024-02-17")];
       VDict [("identified_date", VStr "2024-02-21")];
       VDict [("identified_date", VStr "2024-02-28")]] = Some (TrendReport r)
    /\ List.length (monthly_data r) = 2%nat
    /\ trend r = "stable".
Proof.
  eexists. split; [vm_compute; reflexivity|]. split; [reflexivity|].
  destruct (risk_trend_needs_four_months "2024-05-01T09:30:00"
              [VDict [("identified_date", VStr "2024-01-15")];
               VDict [("identified_date", VStr "2024-02-03")];
               VDict [("identified_date", VStr "2024-02-17")];
               VDict [("identified_date", VStr "2024-02-21")];
               VDict [("identified_date", VStr "2024-02-28")]] _ eq_refl)
    as [_ [_ [H _]]].
  apply H. simpl. lia.
Defined.

End TrendFacts.
